(** * elsummariz00r: content acquisition and summarization pipeline

    A shallow embedding of the TypeScript sources (run.ts, storage.ts,
    site.ts, youtube.ts, cdp.ts) and the properties checked against them.

    Conventions of the embedding.
    - A JavaScript string is a [string]: a sequence of code units, here the
      code units below 256.
    - A JavaScript number that holds a count (a [length], a word count) is
      a [Z] or a [nat].
    - [undefined] / [null] results are [option] values, thrown exceptions
      are [None] or an error outcome.
    - Arrays are lists; [push] appends at the end. *)

From Stdlib Require Import String Ascii List ZArith Lia Bool Arith Permutation.
From Stdlib Require DecimalString.
Import ListNotations.

Open Scope string_scope.
Open Scope list_scope.

(** String concatenation, written apart from list concatenation. *)
Infix "+:+" := String.append (at level 60, right associativity).

(* ================================================================== *)
(** * Part I: the model                                                 *)
(* ================================================================== *)

(** ** JavaScript string primitives used by the sources *)

Module JS.

(** The class [\s] of regular expressions, which is also what [trim]
    removes: WhiteSpace and LineTerminator code units (tab, LF, VT, FF, CR,
    space, no-break space; the others lie above 255). *)
Definition isSpace (c : ascii) : bool :=
  let n := nat_of_ascii c in
  ((9 <=? n) && (n <=? 13) || (n =? 32) || (n =? 160))%nat.

(** LineTerminator: what [.] does not match and where [^] and [$] of a
    multi-line regular expression match (LF, CR). *)
Definition isLineTerminator (c : ascii) : bool :=
  let n := nat_of_ascii c in ((n =? 10) || (n =? 13))%nat.

(** [s.startsWith(p)] *)
Definition startsWith (s p : string) : bool := String.prefix p s.

(** [s.endsWith(p)]: some suffix of [s] is [p]. *)
Fixpoint endsWith (s p : string) : bool :=
  (s =? p) ||
  match s with
  | EmptyString => false
  | String _ s' => endsWith s' p
  end.

(** [s.includes(p)] *)
Fixpoint includes (s p : string) : bool :=
  startsWith s p ||
  match s with
  | EmptyString => false
  | String _ s' => includes s' p
  end.

(** [s.slice(n)] *)
Fixpoint drop (n : nat) (s : string) : string :=
  match n, s with
  | O, _ => s
  | S _, EmptyString => EmptyString
  | S n', String _ s' => drop n' s'
  end.

(** [s.slice(0, n)] *)
Fixpoint take (n : nat) (s : string) : string :=
  match n, s with
  | O, _ => EmptyString
  | S _, EmptyString => EmptyString
  | S n', String c s' => String c (take n' s')
  end.

(** [s.slice(0, -1)] *)
Fixpoint dropLast (s : string) : string :=
  match s with
  | EmptyString => EmptyString
  | String c s' =>
      match s' with
      | EmptyString => EmptyString
      | String _ _ => String c (dropLast s')
      end
  end.

(** [s.replace(p, r)] for a string pattern: the first occurrence only. *)
Fixpoint replaceFirst (s p r : string) : string :=
  if startsWith s p then r +:+ drop (String.length p) s
  else match s with
       | EmptyString => EmptyString
       | String c s' => String c (replaceFirst s' p r)
       end.

(** [s.replaceAll(p, r)] for a non-empty string pattern: the occurrences
    are found from left to right and do not overlap.  [skip] counts the
    code units of the occurrence under way that are still to be dropped. *)
Fixpoint replaceAllFrom (skip : nat) (s p r : string) : string :=
  match s with
  | EmptyString => EmptyString
  | String c s' =>
      match skip with
      | S k => replaceAllFrom k s' p r
      | O =>
          if startsWith s p
          then r +:+ replaceAllFrom (String.length p - 1) s' p r
          else String c (replaceAllFrom 0 s' p r)
      end
  end.

(** With the empty pattern [replaceAll] puts [r] before every code unit
    and at the end. *)
Fixpoint intersperse (s r : string) : string :=
  match s with
  | EmptyString => r
  | String c s' => r +:+ String c (intersperse s' r)
  end.

Definition replaceAll (s p r : string) : string :=
  match p with
  | EmptyString => intersperse s r
  | String _ _ => replaceAllFrom 0 s p r
  end.

Definition headIsSpace (s : string) : bool :=
  match s with
  | EmptyString => false
  | String c _ => isSpace c
  end.

(** [s.split(/\s+/)]: the pieces between maximal runs of white space; a run
    at either end leaves an empty piece there, and the empty string splits
    into one empty piece. *)
Fixpoint splitWs (s : string) : list string :=
  match s with
  | EmptyString => [EmptyString]
  | String c s' =>
      let rest := splitWs s' in
      if isSpace c then
        if headIsSpace s' then rest else EmptyString :: rest
      else
        match rest with
        | w :: ws => String c w :: ws
        | [] => [String c EmptyString]
        end
  end.

(** [arr.join(sep)] *)
Definition join (sep : string) (l : list string) : string :=
  String.concat sep l.

(** [s.replace(/\s+/g, " ")]: every maximal run of white space becomes one
    space. *)
Fixpoint collapseWs (s : string) : string :=
  match s with
  | EmptyString => EmptyString
  | String c s' =>
      if isSpace c then
        if headIsSpace s' then collapseWs s' else String " " (collapseWs s')
      else String c (collapseWs s')
  end.

Fixpoint trimStart (s : string) : string :=
  match s with
  | EmptyString => EmptyString
  | String c s' => if isSpace c then trimStart s' else s
  end.

Fixpoint trimEnd (s : string) : string :=
  match s with
  | EmptyString => EmptyString
  | String c s' =>
      match trimEnd s' with
      | EmptyString => if isSpace c then EmptyString else String c EmptyString
      | r => String c r
      end
  end.

(** [s.trim()] *)
Definition trim (s : string) : string := trimEnd (trimStart s).

(** The part of [s] before its first line terminator. *)
Fixpoint lineOf (s : string) : string :=
  match s with
  | EmptyString => EmptyString
  | String c s' => if isLineTerminator c then EmptyString else String c (lineOf s')
  end.

(** The part of [s] before the first code unit that [stop] accepts, and the
    rest from that code unit on. *)
Fixpoint breakAt (stop : ascii -> bool) (s : string) : string * string :=
  match s with
  | EmptyString => (EmptyString, EmptyString)
  | String c s' =>
      if stop c then (EmptyString, s)
      else let (a, b) := breakAt stop s' in (String c a, b)
  end.

(** Every code unit of [s] passes [f]. *)
Fixpoint all (f : ascii -> bool) (s : string) : bool :=
  match s with
  | EmptyString => true
  | String c s' => f c && all f s'
  end.

(** [c] is one of the code units of [set]. *)
Definition isOneOf (set : string) (c : ascii) : bool :=
  includes set (String c EmptyString).

(** The double quote, as a code unit. *)
Definition dquote : ascii := ascii_of_nat 34.

End JS.

(** ** The platform's [URL] class

    [new URL(input, base)], the [hash] setter and [toString()] come from
    the runtime (the WHATWG URL Standard), not from the repository.  The URL
    record and its serializer are written out after the standard; the
    parser is a parameter of the development ([UrlParser]).  [SimpleUrl]
    further down is an instance used to run the model on concrete URLs. *)

Module Url.

(** A URL's path: an opaque string ([mailto:a@b]) or a list of segments. *)
Inductive Path :=
| Opaque (p : string)
| Segments (l : list string).

(** The URL record of the standard. *)
Record URL := mkURL {
  scheme : string;
  username : string;
  password : string;
  host : option string;
  port : option N;
  path : Path;
  query : option string;
  fragment : option string
}.

Definition serializePath (p : Path) : string :=
  match p with
  | Opaque o => o
  | Segments l => String.concat "" (map (fun seg => "/" +:+ seg) l)
  end.

Definition decimal (n : N) : string :=
  DecimalString.NilEmpty.string_of_uint (N.to_uint n).

(** The authority part of the serialization: [//user:pass@host:port]. *)
Definition serializeAuthority (u : URL) : string :=
  match host u with
  | None => ""
  | Some h =>
      "//" +:+
      (if (username u =? "") && (password u =? "") then ""
       else username u +:+
            (if password u =? "" then "" else ":" +:+ password u) +:+ "@")
      +:+ h +:+
      match port u with
      | None => ""
      | Some p => ":" +:+ decimal p
      end
  end.

(** The URL serializer. *)
Definition serialize (u : URL) (excludeFragment : bool) : string :=
  scheme u +:+ ":" +:+ serializeAuthority u +:+
  (match host u, path u with
   | None, Segments (EmptyString :: _ :: _) => "/."
   | _, _ => ""
   end) +:+
  serializePath (path u) +:+
  (match query u with
   | None => ""
   | Some q => "?" +:+ q
   end) +:+
  (match fragment u with
   | Some f => if excludeFragment then "" else "#" +:+ f
   | None => ""
   end).

(** [u.toString()], the same as [u.href] *)
Definition toString (u : URL) : string := serialize u false.

(** [u.protocol] *)
Definition protocol (u : URL) : string := scheme u +:+ ":".

(** [u.host]: the host with its port *)
Definition hostOf (u : URL) : string :=
  match host u with
  | None => ""
  | Some h =>
      match port u with
      | None => h
      | Some p => h +:+ ":" +:+ decimal p
      end
  end.

Fixpoint stripTrailingSpaces (s : string) : string :=
  match s with
  | EmptyString => EmptyString
  | String c s' =>
      match stripTrailingSpaces s' with
      | EmptyString => if (c =? " ")%char then EmptyString else String c EmptyString
      | r => String c r
      end
  end.

(** [u.hash = ""]: the fragment becomes null; the standard then strips the
    trailing spaces of an opaque path that no query follows. *)
Definition clearHash (u : URL) : URL :=
  {| scheme := scheme u; username := username u; password := password u;
     host := host u; port := port u;
     path := match path u, query u with
             | Opaque o, None => Opaque (stripTrailingSpaces o)
             | p, _ => p
             end;
     query := query u;
     fragment := None |}.

(** [new URL(input)] and [new URL(input, base)]; [None] when the
    constructor throws a [TypeError]. *)
Class UrlParser := {
  parseURL : string -> option string -> option URL
}.

End Url.

(** ** An executable stand-in for the platform parser

    [SimpleUrl] parses what the URL Standard leaves as written: an absolute
    [http://] or [https://] URL with a lower-case host name made of
    letters, digits, dots and hyphens (no port, no credentials, not a
    number), whose path, query and fragment hold only code units that the
    standard neither escapes nor removes, and no [.] or [..] segment; and,
    against such a base, a reference that starts with one [/] or with [#].
    On these inputs it returns the record the standard prescribes.  Every
    other input is refused; the general theorems do not depend on it. *)

Module SimpleUrl.
Import JS Url.

Definition isLower (c : ascii) : bool :=
  let n := nat_of_ascii c in ((97 <=? n) && (n <=? 122))%nat.
Definition isDigit (c : ascii) : bool :=
  let n := nat_of_ascii c in ((48 <=? n) && (n <=? 57))%nat.
Definition isUpper (c : ascii) : bool :=
  let n := nat_of_ascii c in ((65 <=? n) && (n <=? 90))%nat.

Fixpoint splitOn (sep : ascii) (s : string) : list string :=
  match s with
  | EmptyString => [EmptyString]
  | String c s' =>
      let rest := splitOn sep s' in
      if (c =? sep)%char then EmptyString :: rest
      else match rest with
           | w :: ws => String c w :: ws
           | [] => [String c EmptyString]
           end
  end.

(** Code units that path, query and fragment keep as they are. *)
Definition isPlain (c : ascii) : bool :=
  isLower c || isUpper c || isDigit c || isOneOf "-._~=&+:@,;!$*()/" c.

Definition lastLabel (h : string) : string :=
  last (splitOn "." h) EmptyString.

Definition plainHost (h : string) : bool :=
  negb (h =? "")
  && all (fun c => isLower c || isDigit c || isOneOf ".-" c) h
  && negb (includes h "..") && negb (startsWith h ".")
  && negb (endsWith h ".") && negb (includes h "xn--")
  && match lastLabel h with
     | String c _ => negb (isDigit c)
     | EmptyString => false
     end.

Definition noDotSegment (segs : list string) : bool :=
  forallb (fun seg => negb ((seg =? ".") || (seg =? ".."))) segs.

(** Path, query and fragment of a reference that starts at the path. *)
Definition parseTail (sch : string) (h : string) (tail : string)
  : option URL :=
  let (p, r2) := breakAt (isOneOf "?#") tail in
  let (q, r3) :=
    if startsWith r2 "?"
    then let (q, r3) := breakAt (isOneOf "#") (drop 1 r2) in (Some q, r3)
    else (None, r2) in
  let f := if startsWith r3 "#" then Some (drop 1 r3) else None in
  let segs := match p with
              | EmptyString => [EmptyString]
              | String _ p' => splitOn "/" p'
              end in
  if all isPlain p && noDotSegment segs
     && all (fun c => isPlain c || (c =? "?")%char)
          (match q with Some q => q | None => EmptyString end)
     && all (fun c => isPlain c || isOneOf "?#" c)
          (match f with Some f => f | None => EmptyString end)
  then Some {| scheme := sch; username := ""; password := "";
               host := Some h; port := None; path := Segments segs;
               query := q; fragment := f |}
  else None.

Definition parseAbsolute (input : string) : option URL :=
  let parseFrom sch n :=
    let (h, tail) := breakAt (isOneOf "/?#") (drop n input) in
    if plainHost h then parseTail sch h tail else None in
  if startsWith input "https://" then parseFrom "https" 8
  else if startsWith input "http://" then parseFrom "http" 7
  else None.

Definition withFragment (u : URL) (f : option string) : URL :=
  {| scheme := scheme u; username := username u; password := password u;
     host := host u; port := port u; path := path u; query := query u;
     fragment := f |}.

Definition parse (input : string) (base : option string) : option URL :=
  match parseAbsolute input with
  | Some u => Some u
  | None =>
      match base with
      | None => None
      | Some b =>
          match parseAbsolute b with
          | None => None
          | Some bu =>
              match host bu with
              | None => None
              | Some h =>
                  if startsWith input "/" && negb (startsWith input "//")
                  then parseTail (scheme bu) h input
                  else if startsWith input "#"
                          && all (fun c => isPlain c || isOneOf "?#" c)
                               (drop 1 input)
                  then Some (withFragment bu (Some (drop 1 input)))
                  else None
              end
          end
      end
  end.

#[export] Instance simpleParser : UrlParser := {| parseURL := parse |}.

End SimpleUrl.

(** ** storage.ts: the archive on disk *)

Module Storage.
Import JS Url.

(** A directory entry.  [data] is what [readFile] returns, [None] when
    reading throws (the entry is not a readable file); [mtimeMs] is the
    entry's time stamp as [stat] reports it. *)
Record File := mkFile {
  name : string;
  data : option string;
  mtimeMs : Z
}.

(** The three directories under [HOME], each in the order [readdir] lists
    it; [None] while the directory does not exist. *)
Record FileSystem := mkFileSystem {
  articles : option (list File);
  summaries : option (list File);
  html : option (list File)
}.

(** The [type] of a stored item or of a summarization request. *)
Inductive Kind := Web | YouTube | SiteKind | SiteMerge.

Definition kindName (k : Kind) : string :=
  match k with
  | Web => "web"
  | YouTube => "youtube"
  | SiteKind => "site"
  | SiteMerge => "site-merge"
  end.

(** [interface Meta { title; url; type; words }] *)
Record Meta := mkMeta {
  title : string;
  url : string;
  type : Kind;
  words : Z
}.

(** *** Regular expressions of storage.ts and run.ts, as functions *)

(** [[a-zA-Z0-9_-]] *)
Definition isIdChar (c : ascii) : bool :=
  let n := nat_of_ascii c in
  ((48 <=? n) && (n <=? 57) || (65 <=? n) && (n <=? 90)
   || (97 <=? n) && (n <=? 122) || (n =? 95) || (n =? 45))%nat.

(** [([a-zA-Z0-9_-]{n})] at the start of [s] *)
Fixpoint takeId (n : nat) (s : string) : option string :=
  match n with
  | O => Some EmptyString
  | S n' =>
      match s with
      | EmptyString => None
      | String c s' =>
          if isIdChar c then option_map (String c) (takeId n' s') else None
      end
  end.

(** [.*v=([a-zA-Z0-9_-]{11})] at the start of [s]: [.*] is greedy and does
    not cross a line terminator, so the last [v=] of the line that an
    identifier follows is the one taken. *)
Fixpoint afterWatch (s : string) : option string :=
  match s with
  | EmptyString => None
  | String c s' =>
      match (if isLineTerminator c then None else afterWatch s') with
      | Some i => Some i
      | None => if startsWith s "v=" then takeId 11 (drop 2 s) else None
      end
  end.

(** The regular expression of [normalizeUrl], tried at the start of [s]. *)
Definition ytMatchHere (s : string) : option string :=
  if startsWith s "youtube.com/" then
    let r := drop 12 s in
    if startsWith r "watch?" then afterWatch (drop 6 r)
    else if startsWith r "shorts/" then takeId 11 (drop 7 r)
    else if startsWith r "live/" then takeId 11 (drop 5 r)
    else None
  else if startsWith s "youtu.be/" then takeId 11 (drop 9 s)
  else None.

(** [url.match(/(?:youtube\.com\/(?:watch\?.*v=|shorts\/|live\/)|youtu\.be\/)([a-zA-Z0-9_-]{11})/)]:
    the captured identifier of the leftmost match. *)
Fixpoint ytMatch (s : string) : option string :=
  match ytMatchHere s with
  | Some i => Some i
  | None =>
      match s with
      | EmptyString => None
      | String _ s' => ytMatch s'
      end
  end.

Fixpoint spanSpaces (s : string) : string * string :=
  match s with
  | EmptyString => (EmptyString, EmptyString)
  | String c s' =>
      if isSpace c
      then let (ws, rest) := spanSpaces s' in (String c ws, rest)
      else (EmptyString, s)
  end.

Fixpoint lastNonTerminator (ws : string) : option string :=
  match ws with
  | EmptyString => None
  | String c ws' =>
      match lastNonTerminator ws' with
      | Some r => Some r
      | None =>
          if isLineTerminator c then None else Some (String c EmptyString)
      end
  end.

(** [\s*(.+)$] after the key of a front-matter line.  [\s*] takes the whole
    run of white space, line breaks included, and [(.+)] the rest of the
    line that follows; when the text ends with the run, [\s*] gives back
    its last code unit that is not a line terminator. *)
Definition captureValue (r : string) : option string :=
  let (ws, rest) := spanSpaces r in
  match rest with
  | String _ _ => Some (lineOf rest)
  | EmptyString => lastNonTerminator ws
  end.

(** A multi-line regular expression [^key...] tried at every line start;
    [capture] reads what follows the key. *)
Fixpoint matchLine (key : string) (capture : string -> option string)
  (atLineStart : bool) (s : string) : option string :=
  match s with
  | EmptyString => None
  | String c s' =>
      match (if atLineStart && startsWith s key
             then capture (drop (String.length key) s) else None) with
      | Some cap => Some cap
      | None => matchLine key capture (isLineTerminator c) s'
      end
  end.

(** [text.match(/^url:\s*(.+)$/m)?.[1]] *)
Definition urlMatch (text : string) : option string :=
  matchLine "url:" captureValue true text.

(** [\s*"(.+)"$] after [title:]: the rest of the line after the opening
    quote must end with a quote and hold something before it. *)
Definition captureQuoted (r : string) : option string :=
  let (_, rest) := spanSpaces r in
  match rest with
  | String q rest' =>
      if (q =? dquote)%char then
        let line := lineOf rest' in
        if endsWith line (String dquote EmptyString)
           && (2 <=? String.length line)%nat
        then Some (dropLast line) else None
      else None
  | EmptyString => None
  end.

(** [summaryText.match(/^title:\s*"(.+)"$/m)?.[1]] *)
Definition titleMatch (text : string) : option string :=
  matchLine "title:" captureQuoted true text.

Fixpoint afterFirst (p s : string) : option string :=
  if startsWith s p then Some (drop (String.length p) s)
  else match s with
       | EmptyString => None
       | String _ s' => afterFirst p s'
       end.

Definition LF : ascii := ascii_of_nat 10.

Fixpoint dropNewlines (s : string) : string :=
  match s with
  | EmptyString => EmptyString
  | String c s' => if (c =? LF)%char then dropNewlines s' else s
  end.

(** [summaryText.replace(/^---[\s\S]*?---\n*/, "")]: a text that opens with
    three dashes loses everything up to the next three dashes and the line
    feeds after them. *)
Definition stripFrontmatter (text : string) : string :=
  if startsWith text "---" then
    match afterFirst "---" (drop 3 text) with
    | Some r => dropNewlines r
    | None => text
    end
  else text.

Section WithPlatform.
Context `{UrlParser}.

(** [function normalizeUrl(url)] *)
Definition normalizeUrl (url : string) : string :=
  match ytMatch url with
  | Some i => "yt:" +:+ i
  | None =>
      match parseURL url None with
      | Some u =>
          let u := clearHash u in
          let normalized := toString u in
          if endsWith normalized "/" then dropLast normalized else normalized
      | None => url
      end
  end.

(** The body of the loop of [findByUrl], over the [.md] entries still to
    visit.  A read that throws leaves through the [catch]. *)
Fixpoint findByUrlLoop (needle : string) (mds : list File) : option string :=
  match mds with
  | [] => None
  | file :: rest =>
      match data file with
      | None => None
      | Some text =>
          match urlMatch text with
          | Some cap =>
              let storedUrl := trim cap in
              if normalizeUrl storedUrl =? needle
              then Some (replaceFirst (name file) ".md" "")
              else findByUrlLoop needle rest
          | None => findByUrlLoop needle rest
          end
      end
  end.

(** [async function findByUrl(url)].  The function declares one parameter;
    [getCachedResult] calls it with two, and JavaScript drops the surplus
    argument, here [type]. *)
Definition findByUrl (fs : FileSystem) (url : string) (type : option Kind)
  : option string :=
  let needle := normalizeUrl url in
  match articles fs with
  | None => None
  | Some files =>
      let mds := filter (fun f => endsWith (name f) ".md") files in
      findByUrlLoop needle mds
  end.

End WithPlatform.

(** [async function ensureDirs()]: [mkdir] with [recursive] creates what is
    missing and leaves the rest. *)
Definition ensureDirs (fs : FileSystem) : FileSystem :=
  let ensure d := match d with None => Some [] | Some l => Some l end in
  {| articles := ensure (articles fs);
     summaries := ensure (summaries fs);
     html := ensure (html fs) |}.

Definition lookupFile (dir : option (list File)) (fileName : string)
  : option File :=
  match dir with
  | None => None
  | Some l => find (fun f => name f =? fileName) l
  end.

(** [async function readSummaryFile(slug)] *)
Definition readSummaryFile (fs : FileSystem) (slug : string) : option string :=
  match lookupFile (summaries fs) (slug +:+ ".md") with
  | Some f => data f
  | None => None
  end.

Section Paths.
(** [HOME] is [join(process.env.HOME, ".elsummariz00r")]. *)
Context (HOME : string).

Definition HTML_DIR : string := HOME +:+ "/html".

(** [async function resolveSourceUrl(url)] *)
Definition resolveSourceUrl (fs : FileSystem) (url : string) : option string :=
  let htmlPrefix := "file://" +:+ HTML_DIR +:+ "/" in
  if negb (startsWith url htmlPrefix) then None
  else
    let slug := replaceFirst (drop (String.length htmlPrefix) url) ".html" "" in
    if includes slug "/" || includes slug "\" then None
    else
      match lookupFile (articles fs) (slug +:+ ".md") with
      | Some f =>
          match data f with
          | Some text =>
              match urlMatch text with
              | Some cap => if trim cap =? "" then None else Some (trim cap)
              | None => None
              end
          | None => None
          end
      | None => None
      end.

End Paths.

(** *** Writing *)

Definition toLowerChar (c : ascii) : ascii :=
  let n := nat_of_ascii c in
  if ((65 <=? n) && (n <=? 90))%nat then ascii_of_nat (n + 32) else c.

Fixpoint mapChars (f : ascii -> ascii) (s : string) : string :=
  match s with
  | EmptyString => EmptyString
  | String c s' => String (f c) (mapChars f s')
  end.

Fixpoint filterChars (f : ascii -> bool) (s : string) : string :=
  match s with
  | EmptyString => EmptyString
  | String c s' => if f c then String c (filterChars f s') else filterChars f s'
  end.

(** [s.replace(/\s+/g, "-")] when [run] is [isSpace],
    [s.replace(/-+/g, "-")] when [run] tests for the hyphen. *)
Fixpoint collapseRuns (run : ascii -> bool) (s : string) : string :=
  match s with
  | EmptyString => EmptyString
  | String c s' =>
      if run c then
        match s' with
        | String d _ =>
            if run d then collapseRuns run s'
            else String "-" (collapseRuns run s')
        | EmptyString => String "-" EmptyString
        end
      else String c (collapseRuns run s')
  end.

Definition isHyphen (c : ascii) : bool := (c =? "-")%char.

Definition isSlugChar (c : ascii) : bool :=
  let n := nat_of_ascii c in
  ((97 <=? n) && (n <=? 122) || (48 <=? n) && (n <=? 57))%nat
  || isSpace c || isHyphen c.

Definition decimalZ (z : Z) : string :=
  DecimalString.NilEmpty.string_of_int (Z.to_int z).

Section Clock.
(** [new Date().toISOString()], one reading of the clock. *)
Context (now : string).
(** The time stamp the file system gives to what is written. *)
Context (nowMs : Z).

(** [function generateSlug(title)] *)
Definition generateSlug (title : string) : string :=
  let date := take 10 now in
  let sanitized := mapChars toLowerChar title in
  let sanitized := filterChars isSlugChar sanitized in
  let sanitized := collapseRuns isSpace sanitized in
  let sanitized := collapseRuns isHyphen sanitized in
  let sanitized := take 60 sanitized in
  let sanitized :=
    if endsWith sanitized "-" then dropLast sanitized else sanitized in
  date +:+ "_" +:+ sanitized.

Definition newline : string := String LF EmptyString.

(** [function frontmatter(meta)] *)
Definition frontmatter (meta : Meta) : string :=
  "---" +:+ newline +:+
  "title: " +:+ String dquote
     (replaceAll (title meta) (String dquote EmptyString)
        (String "\" (String dquote EmptyString)))
     +:+ String dquote newline +:+
  "url: " +:+ url meta +:+ newline +:+
  "date: " +:+ now +:+ newline +:+
  "type: " +:+ kindName (type meta) +:+ newline +:+
  "words: " +:+ decimalZ (words meta) +:+ newline +:+
  "---".

(** [Bun.write(path, text)] into one of the directories, [path] being
    [join(dir, fileName)]: an entry of that name is overwritten where it
    stands, a new entry is listed last (the place of a new entry in a
    listing is the file system's choice).  A directory is the list of its
    entries, so this is the write for a [fileName] that [join] leaves as
    it is, one with no separator in it; the names that [generateSlug]
    makes are of that kind.  The write is taken to succeed. *)
Definition writeFile (dir : option (list File)) (fileName text : string)
  : option (list File) :=
  let entry := {| name := fileName; data := Some text; mtimeMs := nowMs |} in
  match dir with
  | None => Some [entry]
  | Some l =>
      if existsb (fun f => name f =? fileName) l
      then Some (map (fun f => if name f =? fileName then entry else f) l)
      else Some (l ++ [entry])
  end.

(** [async function saveArticle(slug, content, meta)] *)
Definition saveArticle (slug content : string) (meta : Meta)
  (fs : FileSystem) : FileSystem :=
  {| articles := writeFile (articles fs) (slug +:+ ".md")
                   (frontmatter meta +:+ newline +:+ newline +:+ content);
     summaries := summaries fs;
     html := html fs |}.

(** [async function saveSummary(slug, summary, meta)] *)
Definition saveSummary (slug summary : string) (meta : Meta)
  (fs : FileSystem) : FileSystem :=
  {| articles := articles fs;
     summaries := writeFile (summaries fs) (slug +:+ ".md")
                    (frontmatter meta +:+ newline +:+ newline +:+ summary);
     html := html fs |}.

(** [async function saveHTML(slug, html)] *)
Definition saveHTML (slug page : string) (fs : FileSystem) : FileSystem :=
  {| articles := articles fs;
     summaries := summaries fs;
     html := writeFile (html fs) (slug +:+ ".html") page |}.

End Clock.

End Storage.

(** ** cdp.ts: browser tabs *)

Module Cdp.

(** [interface Tab { id; title; url }] *)
Record Tab := mkTab {
  id : string;
  title : string;
  url : string
}.

(** [tabs.find((t) => t.url === url || t.url.startsWith(url))] *)
Definition findTabByUrl (tabs : list Tab) (url : string) : option Tab :=
  find (fun t => (Cdp.url t =? url) || JS.startsWith (Cdp.url t) url) tabs.

End Cdp.

(** ** youtube.ts: caption tracks *)

Module Youtube.

(** [interface CaptionResult { title; transcript; segments; words }] *)
Record CaptionResult := mkCaptionResult {
  title : string;
  transcript : string;
  segments : Z;
  words : Z
}.

(** [/youtube\.com\/watch|youtu\.be\//.test(url)] *)
Definition isYouTube (url : string) : bool :=
  JS.includes url "youtube.com/watch" || JS.includes url "youtu.be/".

Definition videoIdHere (s : string) : option string :=
  if JS.startsWith s "youtube.com/watch?"
  then Storage.afterWatch (JS.drop 18 s)
  else if JS.startsWith s "youtu.be/" then Storage.takeId 11 (JS.drop 9 s)
  else None.

(** [function extractVideoId(url)] *)
Fixpoint extractVideoId (url : string) : option string :=
  match videoIdHere url with
  | Some i => Some i
  | None =>
      match url with
      | EmptyString => None
      | String _ s' => extractVideoId s'
      end
  end.

(** [interface CaptionTrack { languageCode; kind?; baseUrl }] *)
Record CaptionTrack := mkCaptionTrack {
  languageCode : string;
  kind : option string;
  baseUrl : string
}.

(** [a.kind === "asr" ? 1 : 0] *)
Definition autoFlag (a : CaptionTrack) : Z :=
  match kind a with
  | Some k => if k =? "asr" then 1 else 0
  | None => 0
  end.

(** [a.languageCode === "en" || a.languageCode.startsWith("en-") ? 0 : 1] *)
Definition enFlag (a : CaptionTrack) : Z :=
  if (languageCode a =? "en") || JS.startsWith (languageCode a) "en-"
  then 0 else 1.

(** The comparator handed to [sort]. *)
Definition compareTracks (a b : CaptionTrack) : Z :=
  let aAuto := autoFlag a in
  let bAuto := autoFlag b in
  if negb (aAuto =? bAuto)%Z then (aAuto - bAuto)%Z
  else
    let aEn := enFlag a in
    let bEn := enFlag b in
    (aEn - bEn)%Z.

(** [Array.prototype.sort(cmp)] is a stable sort (ECMAScript 2019): an
    element moves in front of another one only when the comparator is
    positive for the pair in their current order.  For a comparator that
    is a total preorder, as [compareTracks] is, the stable sorted array
    is unique, so the sorting algorithm of the engine does not matter;
    it is written here as insertion of each element into the sorted
    rest of the array. *)
Section Sort.
Context {A : Type} (cmp : A -> A -> Z).

Fixpoint insertSorted (x : A) (l : list A) : list A :=
  match l with
  | [] => [x]
  | y :: l' =>
      if (cmp x y <=? 0)%Z then x :: y :: l' else y :: insertSorted x l'
  end.

Definition sort (l : list A) : list A := fold_right insertSorted [] l.
End Sort.

(** [function selectBestTrack(tracks)]: [sorted[0]], [undefined] on an
    empty array. *)
Definition selectBestTrack (tracks : list CaptionTrack)
  : option CaptionTrack :=
  let sorted := sort compareTracks tracks in
  hd_error sorted.

(** The selection rule in the words of the specification: the first track,
    in list order, of the best class that is not empty, the classes being
    manual English, manual, auto-generated English, auto-generated. *)
Definition isAuto (t : CaptionTrack) : bool := (autoFlag t =? 1)%Z.
Definition isEnglish (t : CaptionTrack) : bool := (enFlag t =? 0)%Z.

Definition selectByPriority (tracks : list CaptionTrack)
  : option CaptionTrack :=
  match find (fun t => negb (isAuto t) && isEnglish t) tracks with
  | Some t => Some t
  | None =>
      match find (fun t => negb (isAuto t)) tracks with
      | Some t => Some t
      | None =>
          match find (fun t => isAuto t && isEnglish t) tracks with
          | Some t => Some t
          | None => find isAuto tracks
          end
      end
  end.

End Youtube.

(** ** site.ts: pages of a crawled site *)

Module Site.
Import JS Url.

(** [interface SitePage { url; title; content; words }] *)
Record SitePage := mkSitePage {
  url : string;
  title : string;
  content : string;
  words : Z
}.

(** [interface SiteResult { rootUrl; title; pages; totalWords }] *)
Record SiteResult := mkSiteResult {
  rootUrl : string;
  siteTitle : string;
  pages : list SitePage;
  totalWords : Z
}.

(** [content.split(/\s+/).length] *)
Definition countWords (content : string) : Z :=
  Z.of_nat (List.length (splitWs content)).

(** *** Link crawl *)

Definition isQuote (c : ascii) : bool :=
  (c =? dquote)%char || (c =? "'")%char.

(** The regular expression of [crawlLinks] at the start of [s]: [href=], a
    quote of either kind, one or more code units that are not quotes (the
    captured value), a quote of either kind. *)
Definition hrefHere (s : string) : option string :=
  if startsWith s "href=" then
    match drop 5 s with
    | String q r =>
        if isQuote q then
          let (v, rest) := breakAt isQuote r in
          match v, rest with
          | String _ _, String _ _ => Some v
          | _, _ => None
          end
        else None
    | EmptyString => None
    end
  else None.

(** The values found by the [regex.exec(html)] loop, in order.  A match ends
    after its closing quote and the search goes on from there; [skip]
    counts the code units of the match under way. *)
Fixpoint hrefsFrom (skip : nat) (s : string) : list string :=
  match s with
  | EmptyString => []
  | String _ s' =>
      match skip with
      | S k => hrefsFrom k s'
      | O =>
          match hrefHere s with
          | Some v => v :: hrefsFrom (String.length v + 6) s'
          | None => hrefsFrom 0 s'
          end
      end
  end.

Definition hrefs (html : string) : list string := hrefsFrom 0 html.

(** [Set.prototype.add] on a set kept in insertion order. *)
Definition setAdd (x : string) (set : list string) : list string :=
  if existsb (String.eqb x) set then set else set ++ [x].

(** [resolved.endsWith("/") ? resolved.slice(0, -1) : resolved] *)
Definition stripSlash (resolved : string) : string :=
  if endsWith resolved "/" then dropLast resolved else resolved.

Section WithPlatform.
Context `{UrlParser}.

(** [function getRootUrl(url)]; [None] when [new URL] throws. *)
Definition getRootUrl (url : string) : option string :=
  match parseURL url None with
  | Some u => Some (protocol u +:+ "//" +:+ hostOf u)
  | None => None
  end.

(** The body of the [while] loop of [crawlLinks] for one captured value. *)
Definition crawlStep (rootUrl : string) (urls : list string) (href : string)
  : list string :=
  match parseURL href (Some rootUrl) with
  | Some u =>
      let resolved := toString u in
      if startsWith resolved rootUrl && negb (includes resolved "#") then
        let clean := stripSlash resolved in
        setAdd (if clean =? "" then rootUrl else clean) urls
      else urls
  | None => urls
  end.

(** [crawlLinks] once the root page is fetched: [html] is its text. *)
Definition crawlLinksIn (rootUrl html : string) : list string :=
  fold_left (crawlStep rootUrl) (hrefs html) [rootUrl].

(** [async function crawlLinks(rootUrl)]; [fetchText] is the network,
    [None] when the request fails. *)
Definition crawlLinks (fetchText : string -> option string)
  (rootUrl : string) : option (list string) :=
  match fetchText rootUrl with
  | Some html => Some (crawlLinksIn rootUrl html)
  | None => None
  end.

End WithPlatform.

(** *** Boilerplate shared by the pages *)

Definition WINDOW : nat := 8.

(** The chunks of one page in the order the inner loop visits them:
    [words.slice(i, i + WINDOW).join(" ")] for [i] from [0] to
    [words.length - WINDOW]. *)
Definition windowsOf (words : list string) : list string :=
  if (List.length words <? WINDOW)%nat then []
  else map (fun i => join " " (firstn WINDOW (skipn i words)))
         (seq 0 (List.length words - WINDOW + 1)).

(** [Map<string, number>], in insertion order. *)
Definition Counts := list (string * nat).

Fixpoint mapGet (chunk : string) (m : Counts) : option nat :=
  match m with
  | [] => None
  | (k, v) :: m' => if k =? chunk then Some v else mapGet chunk m'
  end.

(** [Map.prototype.set]: a key already present keeps its place. *)
Fixpoint mapSet (chunk : string) (n : nat) (m : Counts) : Counts :=
  match m with
  | [] => [(chunk, n)]
  | (k, v) :: m' =>
      if k =? chunk then (k, n) :: m' else (k, v) :: mapSet chunk n m'
  end.

(** One iteration of the inner loop: [seen] and [chunkCounts]. *)
Definition countChunk (st : list string * Counts) (chunk : string)
  : list string * Counts :=
  let (seen, chunkCounts) := st in
  if existsb (String.eqb chunk) seen then st
  else (setAdd chunk seen,
        mapSet chunk
          (match mapGet chunk chunkCounts with Some n => n | None => 0 end + 1)
          chunkCounts).

(** One iteration of [for (const page of pages)]. *)
Definition countPage (chunkCounts : Counts) (page : SitePage) : Counts :=
  let words := splitWs (content page) in
  snd (fold_left countChunk (windowsOf words) ([], chunkCounts)).

(** [Math.floor(pages.length * 0.8)].  The product is a floating-point
    number; for every array length (below 2^32) its floor is the floor of
    four fifths of the length, which is what is written here. *)
Definition threshold (n : nat) : nat := (4 * n) / 5.

(** The set [commonChunks], in insertion order. *)
Definition commonChunks (pages : list SitePage) : list string :=
  let chunkCounts := fold_left countPage pages [] in
  map fst
    (filter (fun kv => (threshold (List.length pages) <=? snd kv)%nat)
       chunkCounts).

(** The callback of [pages.map] at the end of [stripCommonText]. *)
Definition stripPage (common : list string) (page : SitePage) : SitePage :=
  let content :=
    fold_left (fun content chunk => replaceAll content chunk "")
      common (content page) in
  let content := trim (collapseWs content) in
  {| url := url page; title := title page; content := content;
     words := countWords content |}.

(** [function stripCommonText(pages)] *)
Definition stripCommonText (pages : list SitePage) : list SitePage :=
  if (List.length pages <? 3)%nat then pages
  else
    let common := commonChunks pages in
    if (List.length common =? 0)%nat then pages
    else map (stripPage common) pages.

End Site.

(** ** run.ts: orchestration

    The functions of run.ts are asynchronous and talk to the browser, the
    network, the summarization service and the disk.  They are written in
    a state-and-exception monad over a [World]: the file system, and the
    list of the requests that left the process so far.  What the outside
    answers is a parameter ([Collaborators]). *)

Module Run.
Import JS Url Storage Cdp Youtube Site.

(** [const MAX_SITE_WORDS = 60_000] *)
Definition MAX_SITE_WORDS : Z := 60000.

(** [interface SummarizeResult]; [cached] is [false] where the source
    leaves the field out. *)
Record SummarizeResult := mkSummarizeResult {
  slug : string;
  title : string;
  summary : string;
  htmlPath : string;
  cached : bool
}.

(** The options of [runSummarize] and [runSummarizeSite]. *)
Record Options := mkOptions {
  url : option string;
  optTitle : option string;
  redo : bool
}.

(** A request to a collaborator. *)
Inductive Event :=
| ListTabs
| ExtractText (tabId : string)
| OpenUrl (target : string)
| FetchCaptions (videoId : string)
| FetchSite (target : string)
| Summarize (content title source : string) (type : Kind).

Record World := mkWorld {
  fs : FileSystem;
  events : list Event
}.

Inductive Outcome (A : Type) :=
| Returned (a : A)
| Thrown (message : string).
Arguments Returned {A} a.
Arguments Thrown {A} message.

Definition M (A : Type) : Type := World -> Outcome A * World.

Definition ret {A : Type} (a : A) : M A := fun w => (Returned a, w).

Definition bind {A B : Type} (m : M A) (k : A -> M B) : M B :=
  fun w =>
    match m w with
    | (Returned a, w') => k a w'
    | (Thrown e, w') => (Thrown e, w')
    end.

Definition throw {A : Type} (message : string) : M A :=
  fun w => (Thrown message, w).

(** A request: it is recorded, and the collaborator's answer comes back. *)
Definition call {A : Type} (e : Event) (answer : Outcome A) : M A :=
  fun w => (answer, {| fs := fs w; events := events w ++ [e] |}).

Definition readFs {A : Type} (f : FileSystem -> A) : M A :=
  fun w => (Returned (f (fs w)), w).

Definition updateFs (f : FileSystem -> FileSystem) : M unit :=
  fun w => (Returned tt, {| fs := f (fs w); events := events w |}).

Notation "x <- m ;; k" := (bind m (fun x => k))
  (at level 61, m at next level, right associativity).
Notation "m ;;; k" := (bind m (fun _ => k))
  (at level 61, right associativity).

(** A string used as a condition: [undefined] and the empty string are
    falsy. *)
Definition truthy (o : option string) : option string :=
  match o with
  | Some EmptyString => None
  | other => other
  end.

(** What the outside world answers. *)
Record Collaborators := mkCollaborators {
  (** [listTabs()] of cdp.ts *)
  tabs : Outcome (list Tab);
  (** [extractText(tabId)] of cdp.ts *)
  tabText : string -> Outcome string;
  (** [openUrl(url)] of cdp.ts *)
  opened : string -> Outcome Tab;
  (** [fetchCaptions(videoId)] of youtube.ts *)
  captions : string -> Outcome CaptionResult;
  (** [fetchSite(url)] of site.ts *)
  crawled : string -> Outcome SiteResult;
  (** [summarize(content, { title, url, type })] of summarize.ts *)
  oracle : string -> string -> string -> Kind -> Outcome string;
  (** [generateHTML] of html.ts, on title, url, type, date, words, pages
      and summary *)
  render : string -> string -> Kind -> string -> Z -> option Z -> string
           -> string;
  (** [new Date().toISOString()] and the time stamp of written files *)
  now : string;
  nowMs : Z
}.

(** [sum] of the words of a chunk: [chunk.reduce((sum, p) => sum + p.words, 0)] *)
Definition chunkWords (chunk : list SitePage) : Z :=
  fold_left (fun sum p => sum + Site.words p)%Z chunk 0%Z.

(** The three mutable locals of [chunkPages]. *)
Record ChunkState := mkChunkState {
  chunks : list (list SitePage);
  current : list SitePage;
  currentWords : Z
}.

(** One iteration of [for (const page of pages)]. *)
Definition chunkStep (maxWords : Z) (st : ChunkState) (page : SitePage)
  : ChunkState :=
  let st1 :=
    if ((currentWords st + Site.words page >? maxWords)%Z
        && (0 <? List.length (current st))%nat)%bool
    then {| chunks := chunks st ++ [current st];
            current := [];
            currentWords := 0 |}
    else st in
  {| chunks := chunks st1;
     current := current st1 ++ [page];
     currentWords := (currentWords st1 + Site.words page)%Z |}.

(** [function chunkPages(pages, maxWords)] *)
Definition chunkPages (pages : list SitePage) (maxWords : Z)
  : list (list SitePage) :=
  let st := fold_left (chunkStep maxWords) pages
              {| chunks := []; current := []; currentWords := 0 |} in
  if (0 <? List.length (current st))%nat
  then chunks st ++ [current st] else chunks st.

(** One page as a section of the stored content. *)
Definition pageSection (p : SitePage) : string :=
  "--- " +:+ Site.title p +:+ " (" +:+ Site.url p +:+ ") ---"
  +:+ newline +:+ Site.content p.

(** [pages.map(...).join("\n\n")] *)
Definition formatPages (pages : list SitePage) : string :=
  join (newline +:+ newline) (map pageSection pages).

Definition decimalNat (n : nat) : string :=
  DecimalString.NilEmpty.string_of_uint (Nat.to_uint n).

(** [chunkSummaries.map((s, i) => ...)]: the labels count from 1. *)
Fixpoint labelParts (i total : nat) (partials : list string) : list string :=
  match partials with
  | [] => []
  | s :: rest =>
      ("--- Part " +:+ decimalNat (i + 1) +:+ " of " +:+ decimalNat total
       +:+ " ---" +:+ newline +:+ s) :: labelParts (i + 1) total rest
  end.

(** The content handed to the merge call. *)
Definition mergeContent (total : nat) (partials : list string) : string :=
  join (newline +:+ newline) (labelParts 0 total partials).

(** The answers of a batch, or a failure.  [Promise.all] rejects with the
    rejection that comes first in time, which is one of the rejections of
    the batch; the first one in list order stands for it here. *)
Fixpoint allReturned {A : Type} (answers : list (Outcome A))
  : Outcome (list A) :=
  match answers with
  | [] => Returned []
  | Returned a :: rest =>
      match allReturned rest with
      | Returned l => Returned (a :: l)
      | Thrown e => Thrown e
      end
  | Thrown e :: _ => Thrown e
  end.

Section WithCollaborators.
Context `{UrlParser}.
(** [HOME] of storage.ts *)
Context (HOME : string).
Context (c : Collaborators).

(** [async function getCachedResult(url, type)] *)
Definition getCachedResult (target : string) (type : option Kind)
  : M (option SummarizeResult) :=
  found <- readFs (fun fs => findByUrl fs target type) ;;
  match truthy found with
  | None => ret None
  | Some slug =>
      summaryText <- readFs (fun fs => readSummaryFile fs slug) ;;
      match truthy summaryText with
      | None => ret None
      | Some summaryText =>
          let body := trim (stripFrontmatter summaryText) in
          ret (Some {| slug := slug;
                       title := match truthy (titleMatch summaryText) with
                                | Some t => t
                                | None => slug
                                end;
                       summary := body;
                       htmlPath := HTML_DIR HOME +:+ "/" +:+ slug +:+ ".html";
                       cached := true |})
      end
  end.

(** [async function getActiveTab()] of cdp.ts *)
Definition getActiveTab : M Tab :=
  tabs <- call ListTabs (tabs c) ;;
  match tabs with
  | [] => throw "No browser tabs found"
  | t :: _ => ret t
  end.

(** The end of [runSummarize] and of [runSummarizeSite]: the article, the
    summary and the page are written under one slug.  The three writes are
    taken to succeed, and the clock to stand still meanwhile: [now c] is
    the reading of [generateSlug], of both front matters and of the date
    on the page, [nowMs c] the time stamp of the three files. *)
Definition persist (title source : string) (type : Kind) (words : Z)
  (pages : option Z) (content summary : string) : M SummarizeResult :=
  let slug := generateSlug (now c) title in
  let meta := {| Storage.title := title; Storage.url := source;
                 Storage.type := type; Storage.words := words |} in
  updateFs (saveArticle (now c) (nowMs c) slug content meta) ;;;
  updateFs (saveSummary (now c) (nowMs c) slug summary meta) ;;;
  let page := render c title source type (take 10 (now c)) words pages
                summary in
  updateFs (saveHTML (nowMs c) slug page) ;;;
  ret {| slug := slug; title := title; summary := summary;
         htmlPath := HTML_DIR HOME +:+ "/" +:+ slug +:+ ".html";
         cached := false |}.

(** The extraction step of [runSummarize]: content, title and type. *)
Definition extract (opts : Options) (source : string)
  : M (string * string * Kind) :=
  if isYouTube source then
    match truthy (extractVideoId source) with
    | None => throw "Could not parse YouTube video ID"
    | Some videoId =>
        result <- call (FetchCaptions videoId) (captions c videoId) ;;
        ret (transcript result, Youtube.title result, YouTube)
    end
  else
    tabs <- call ListTabs (tabs c) ;;
    match findTabByUrl tabs source with
    | Some found =>
        content <- call (ExtractText (Cdp.id found)) (tabText c (Cdp.id found)) ;;
        ret (content,
             match truthy (optTitle opts) with
             | Some t => t
             | None => Cdp.title found
             end, Web)
    | None =>
        tab <- call (OpenUrl source) (opened c source) ;;
        content <- call (ExtractText (Cdp.id tab)) (tabText c (Cdp.id tab)) ;;
        ret (content,
             match truthy (optTitle opts) with
             | Some t => t
             | None => Cdp.title tab
             end, Web)
    end.

(** [export async function runSummarize(opts)] *)
Definition runSummarize (opts : Options) : M SummarizeResult :=
  updateFs ensureDirs ;;;
  targetUrl <-
    match truthy (url opts) with
    | Some target =>
        sourceUrl <- readFs (fun fs => resolveSourceUrl HOME fs target) ;;
        ret (match sourceUrl with
             | Some source => Some source
             | None => Some target
             end)
    | None => ret (url opts)
    end ;;
  targetUrl <-
    match truthy targetUrl with
    | Some target => ret target
    | None => active <- getActiveTab ;; ret (Cdp.url active)
    end ;;
  hit <- (if redo opts then ret None else getCachedResult targetUrl None) ;;
  match hit with
  | Some result => ret result
  | None =>
      extracted <- extract opts targetUrl ;;
      let '(content, title, type) := extracted in
      summary <- call (Summarize content title targetUrl type)
                   (oracle c content title targetUrl type) ;;
      persist title targetUrl type (countWords content) None content summary
  end.

(** The calls started by [Promise.all(chunks.map(...))]: every request
    leaves before an answer is awaited; the batch fails when one of them
    fails. *)
Definition summarizeChunks (site : SiteResult) (root : string)
  (chunks : list (list SitePage)) : M (list string) :=
  fun w =>
    (allReturned
       (map (fun chunk =>
               oracle c (formatPages chunk) (siteTitle site) root SiteKind)
          chunks),
     {| fs := fs w;
        events := events w ++
          map (fun chunk =>
                 Summarize (formatPages chunk) (siteTitle site) root SiteKind)
            chunks |}).

(** The summarization step of [runSummarizeSite]
    ([if (site.totalWords <= MAX_SITE_WORDS) ... else ...]). *)
Definition summarizeSite (site : SiteResult) (root content : string)
  : M string :=
  if (totalWords site <=? MAX_SITE_WORDS)%Z then
    call (Summarize content (siteTitle site) root SiteKind)
      (oracle c content (siteTitle site) root SiteKind)
  else
    let chunks := chunkPages (pages site) MAX_SITE_WORDS in
    chunkSummaries <- summarizeChunks site root chunks ;;
    let merged := mergeContent (List.length chunks) chunkSummaries in
    call (Summarize merged (siteTitle site) root SiteMerge)
      (oracle c merged (siteTitle site) root SiteMerge).

(** [export async function runSummarizeSite(opts)] *)
Definition runSummarizeSite (opts : Options) : M SummarizeResult :=
  updateFs ensureDirs ;;;
  targetUrl <-
    match truthy (url opts) with
    | Some target => ret target
    | None => active <- getActiveTab ;; ret (Cdp.url active)
    end ;;
  sourceUrl <- readFs (fun fs => resolveSourceUrl HOME fs targetUrl) ;;
  let targetUrl := match sourceUrl with
                   | Some source => source
                   | None => targetUrl
                   end in
  match getRootUrl targetUrl with
  | None => throw "Invalid URL"
  | Some root =>
      hit <- (if redo opts then ret None
              else getCachedResult root (Some SiteKind)) ;;
      match hit with
      | Some result => ret result
      | None =>
          site <- call (FetchSite targetUrl) (crawled c targetUrl) ;;
          let content := formatPages (pages site) in
          summary <- summarizeSite site root content ;;
          persist (siteTitle site) root SiteKind (totalWords site)
            (Some (Z.of_nat (List.length (pages site)))) content summary
      end
  end.

End WithCollaborators.

End Run.

(** ** html.ts: escaping *)

Module Html.
Import JS.

(** [function esc(s)]: five global replacements, the ampersand first. *)
Definition esc (s : string) : string :=
  let s := replaceAll s "&" "&amp;" in
  let s := replaceAll s "<" "&lt;" in
  let s := replaceAll s ">" "&gt;" in
  let s := replaceAll s (String dquote EmptyString) "&quot;" in
  replaceAll s "'" "&#39;".

End Html.

(** ** storage.ts and run.ts: the latest summary, and discussions *)

Module Archive.
Import JS Url Storage Run.

Section WithPlatform.
Context `{UrlParser}.
(** [stat(path)] of an entry of the summaries directory: its [mtimeMs],
    or nothing when the call rejects (an entry that is gone since the
    listing was read, a link that leads nowhere).  In a directory whose
    entries can all be examined it is [fun f => Some (mtimeMs f)]. *)
Context (stat : File -> option Z).
Context (HOME : string).

(** [await Promise.all(mds.map(async (f) => ({ name: f, mtime: (await
    stat(...)).mtimeMs })))]: the names with their times, in the order of
    [mds]; one [stat] that rejects rejects the whole. *)
Fixpoint withMtime (mds : list File) : option (list (string * Z)) :=
  match mds with
  | [] => Some []
  | f :: rest =>
      match stat f, withMtime rest with
      | Some mtime, Some stamped => Some ((name f, mtime) :: stamped)
      | _, _ => None
      end
  end.

(** The comparator of [getLatestSlug]: [(a, b) => b.mtime - a.mtime]. *)
Definition newerFirst (a b : string * Z) : Z := (snd b - snd a)%Z.

(** [async function getLatestSlug()].  A rejected [stat] is caught by the
    [catch] and gives [null]; [withMtime[0]] of an empty array would throw
    into the same [catch]. *)
Definition getLatestSlug (fs : FileSystem) : option string :=
  match summaries fs with
  | None => None
  | Some files =>
      let mds := filter (fun f => endsWith (name f) ".md") files in
      if (List.length mds =? 0)%nat then None
      else
        match withMtime mds with
        | None => None
        | Some stamped =>
            match Youtube.sort newerFirst stamped with
            | latest :: _ => Some (replaceFirst (fst latest) ".md" "")
            | [] => None
            end
        end
  end.


End WithPlatform.

End Archive.

(** ** site.ts: fetching a site

    The regular expressions of site.ts that carry the flag [i] compare
    letters without regard to case; on the code units below 256 that is
    the comparison of the lower-case forms of the ASCII letters. *)

Module SiteFetch.
Import JS Url Storage Site Run.

(** [s] starts with the lower-case text [p], case apart. *)
Fixpoint startsWithCI (s p : string) {struct p} : bool :=
  match p with
  | EmptyString => true
  | String a p' =>
      match s with
      | EmptyString => false
      | String b s' => (toLowerChar b =? a)%char && startsWithCI s' p'
      end
  end.

(** What follows the first occurrence of [p] in [s], case apart. *)
Fixpoint afterFirstCI (p s : string) : option string :=
  if startsWithCI s p then Some (drop (String.length p) s)
  else match s with
       | EmptyString => None
       | String _ s' => afterFirstCI p s'
       end.

Definition isGt (c : ascii) : bool := (c =? ">")%char.
Definition isLt (c : ascii) : bool := (c =? "<")%char.

(** [<tag[^>]*>[\s\S]*?<\/tag>] at the start of [s]: the opening tag runs
    to the first [>], the element to the first closing tag after it.  The
    result is what follows the element. *)
Definition elementHere (tag s : string) : option string :=
  if startsWithCI s ("<" +:+ tag) then
    match snd (breakAt isGt (drop (1 + String.length tag) s)) with
    | String _ inner => afterFirstCI ("</" +:+ tag +:+ ">") inner
    | EmptyString => None
    end
  else None.

(** [s.replace(/<tag[^>]*>[\s\S]*?<\/tag>/gi, "")]; [skip] counts the code
    units of the element under way that are still to be dropped. *)
Fixpoint removeElementsFrom (tag : string) (skip : nat) (s : string)
  : string :=
  match s with
  | EmptyString => EmptyString
  | String c s' =>
      match skip with
      | S k => removeElementsFrom tag k s'
      | O =>
          match elementHere tag s with
          | Some rest =>
              removeElementsFrom tag
                (String.length s - String.length rest - 1) s'
          | None => String c (removeElementsFrom tag 0 s')
          end
      end
  end.

Definition removeElements (tag s : string) : string :=
  removeElementsFrom tag 0 s.

(** [<[^>]+>] at the start of [s]: the length of the tag. *)
Definition tagHere (s : string) : option nat :=
  match s with
  | String c r =>
      if isLt c then
        match breakAt isGt r with
        | (String _ _ as v, String _ _) => Some (String.length v + 2)
        | _ => None
        end
      else None
  | EmptyString => None
  end.

(** [s.replace(/<[^>]+>/g, " ")] *)
Fixpoint replaceTagsFrom (skip : nat) (s : string) : string :=
  match s with
  | EmptyString => EmptyString
  | String c s' =>
      match skip with
      | S k => replaceTagsFrom k s'
      | O =>
          match tagHere s with
          | Some n => String " " (replaceTagsFrom (n - 1) s')
          | None => String c (replaceTagsFrom 0 s')
          end
      end
  end.

(** [function htmlToText(html)] *)
Definition htmlToText (html : string) : string :=
  let s := removeElements "script" html in
  let s := removeElements "style" s in
  let s := removeElements "nav" s in
  let s := removeElements "header" s in
  let s := removeElements "footer" s in
  let s := replaceTagsFrom 0 s in
  let s := replaceAll s "&amp;" "&" in
  let s := replaceAll s "&lt;" "<" in
  let s := replaceAll s "&gt;" ">" in
  let s := replaceAll s "&quot;" (String dquote EmptyString) in
  let s := replaceAll s "&#39;" "'" in
  let s := replaceAll s "&nbsp;" " " in
  trim (collapseWs s).

(** [<tag[^>]*>([^<]+)<\/tag>] at the start of [s]: the captured text. *)
Definition tagTextHere (tag s : string) : option string :=
  if startsWithCI s ("<" +:+ tag) then
    match snd (breakAt isGt (drop (1 + String.length tag) s)) with
    | String _ inner =>
        match breakAt isLt inner with
        | (String _ _ as v, rest) =>
            if startsWithCI rest ("</" +:+ tag +:+ ">") then Some v else None
        | (EmptyString, _) => None
        end
    | EmptyString => None
    end
  else None.

(** The capture of the leftmost match. *)
Fixpoint firstTagText (tag s : string) : option string :=
  match tagTextHere tag s with
  | Some v => Some v
  | None =>
      match s with
      | EmptyString => None
      | String _ s' => firstTagText tag s'
      end
  end.

(** [function extractTitle(html)] *)
Definition extractTitle (html : string) : string :=
  match firstTagText "title" html with
  | Some v => trim v
  | None =>
      match firstTagText "h1" html with
      | Some v => trim v
      | None => "Untitled"
      end
  end.

(** [<loc>([^<]+)<\/loc>] at the start of [s] *)
Definition locHere (s : string) : option string :=
  if startsWith s "<loc>" then
    match breakAt isLt (drop 5 s) with
    | (String _ _ as v, rest) =>
        if startsWith rest "</loc>" then Some v else None
    | (EmptyString, _) => None
    end
  else None.

(** The [regex.exec(xml)] loop of [fetchSitemap]: the trimmed captures. *)
Fixpoint locsFrom (skip : nat) (s : string) : list string :=
  match s with
  | EmptyString => []
  | String _ s' =>
      match skip with
      | S k => locsFrom k s'
      | O =>
          match locHere s with
          | Some v => trim v :: locsFrom (String.length v + 10) s'
          | None => locsFrom 0 s'
          end
      end
  end.

(** The answers of a batch, or none when one is missing. *)
Fixpoint allSome {A : Type} (l : list (option A)) : option (list A) :=
  match l with
  | [] => Some []
  | Some a :: rest => option_map (cons a) (allSome rest)
  | None :: _ => None
  end.

Section WithNetwork.
Context `{UrlParser}.
(** [fetch(url)]: [None] when the request throws, else [resp.ok] and the
    text of the body. *)
Context (get : string -> option (bool * string)).

(** [async function fetchSitemap(rootUrl)] *)
Definition fetchSitemap (rootUrl : string) : option (list string) :=
  match get (rootUrl +:+ "/sitemap.xml") with
  | None => None
  | Some (ok, xml) =>
      if negb ok then None
      else if negb (includes xml "<urlset") then None
      else
        let urls := locsFrom 0 xml in
        if (0 <? List.length urls)%nat then Some urls else None
  end.

(** [async function fetchPage(url)]; [None] when the request throws. *)
Definition fetchPage (url : string) : option SitePage :=
  match get url with
  | None => None
  | Some (_, html) =>
      let content := htmlToText html in
      Some {| Site.url := url; Site.title := extractTitle html;
              Site.content := content; Site.words := countWords content |}
  end.

(** [export async function fetchSite(url)].  The messages of the errors
    that the platform throws (a failed request, a URL that does not parse)
    are the platform's; they are written [fetch failed] and
    [Invalid URL] here. *)
Definition fetchSite (url : string) : Outcome SiteResult :=
  match getRootUrl url with
  | None => Thrown "Invalid URL"
  | Some rootUrl =>
      let found :=
        match fetchSitemap rootUrl with
        | Some urls => Some urls
        | None => crawlLinks (fun u => option_map snd (get u)) rootUrl
        end in
      match found with
      | None => Thrown "fetch failed"
      | Some pageUrls =>
          if (List.length pageUrls =? 0)%nat
          then Thrown "No pages found on site"
          else
            match allSome (map fetchPage pageUrls) with
            | None => Thrown "fetch failed"
            | Some pages =>
                let cleaned := stripCommonText pages in
                let meaningful :=
                  filter (fun p => (20 <? Site.words p)%Z) cleaned in
                let rootPage :=
                  find (fun p => (Site.url p =? rootUrl)
                                 || (Site.url p =? rootUrl +:+ "/")) pages in
                let totalWords :=
                  fold_left (fun sum p => (sum + Site.words p)%Z)
                    meaningful 0%Z in
                match truthy (option_map Site.title rootPage) with
                | Some title =>
                    Returned {| rootUrl := rootUrl; siteTitle := title;
                                pages := meaningful;
                                totalWords := totalWords |}
                | None =>
                    match parseURL rootUrl None with
                    | Some u =>
                        Returned {| rootUrl := rootUrl;
                                    siteTitle := match host u with
                                                 | Some h => h
                                                 | None => ""
                                                 end;
                                    pages := meaningful;
                                    totalWords := totalWords |}
                    | None => Thrown "Invalid URL"
                    end
                end
            end
      end
  end.

End WithNetwork.

End SiteFetch.

(** ** index.ts: wrapping the lines of a summary *)

Module Cli.
Import JS.

(** The code unit [\x1b]. *)
Definition ESC : ascii := ascii_of_nat 27.

(** The class [[0-9;]] *)
Definition isSgrChar (c : ascii) : bool :=
  let n := nat_of_ascii c in ((48 <=? n) && (n <=? 57) || (n =? 59))%nat.

(** [\x1b\[[0-9;]*m] at the start of [s]: the length of the match. *)
Definition sgrHere (s : string) : option nat :=
  match s with
  | String a (String b r) =>
      if ((a =? ESC) && (b =? "["))%char then
        match breakAt (fun c => negb (isSgrChar c)) r with
        | (codes, String m _) =>
            if (m =? "m")%char then Some (String.length codes + 3) else None
        | (_, EmptyString) => None
        end
      else None
  | _ => None
  end.

(** [s.replace(/\x1b\[[0-9;]*m/g, "")]; [skip] counts the code units of
    the match under way that are still to be dropped. *)
Fixpoint stripSgrFrom (skip : nat) (s : string) : string :=
  match s with
  | EmptyString => EmptyString
  | String c s' =>
      match skip with
      | S k => stripSgrFrom k s'
      | O =>
          match sgrHere s with
          | Some n => stripSgrFrom (n - 1) s'
          | None => String c (stripSgrFrom 0 s')
          end
      end
  end.

(** [function visibleLength(s)] *)
Definition visibleLength (s : string) : nat :=
  String.length (stripSgrFrom 0 s).

(** [s.split(" ")] *)
Fixpoint splitSpaces (s : string) : list string :=
  match s with
  | EmptyString => [EmptyString]
  | String c s' =>
      if (c =? " ")%char then EmptyString :: splitSpaces s'
      else match splitSpaces s' with
           | w :: ws => String c w :: ws
           | [] => [String c EmptyString]
           end
  end.

(** The two mutable locals of [wrapLine]. *)
Record WrapState := mkWrapState {
  lines : list string;
  current : string
}.

(** One iteration of [for (const word of words)]; the empty string is
    falsy. *)
Definition wrapStep (maxWidth : Z) (st : WrapState) (word : string)
  : WrapState :=
  let test := if current st =? "" then word
              else current st +:+ " " +:+ word in
  if (maxWidth <? Z.of_nat (visibleLength test))%Z
     && negb (current st =? "")
  then {| lines := lines st ++ [current st]; current := word |}
  else {| lines := lines st; current := test |}.

(** [function wrapLine(line, maxWidth)] *)
Definition wrapLine (line : string) (maxWidth : Z) : list string :=
  if (Z.of_nat (visibleLength line) <=? maxWidth)%Z || (trim line =? "")
  then [line]
  else
    let st := fold_left (wrapStep maxWidth) (splitSpaces line)
                {| lines := []; current := "" |} in
    if current st =? "" then lines st else lines st ++ [current st].

End Cli.

(* ================================================================== *)
(** * Part II: properties                                               *)
(* ================================================================== *)

(** ** Strings and lists *)

Module JSFacts.
Import JS.

Lemma startsWith_iff (s p : string) :
  startsWith s p = true <-> exists rest, s = p +:+ rest.
Proof.
  unfold startsWith. revert s.
  induction p as [|a p IH]; intros s; simpl.
  - split; [intros _; exists s; reflexivity | destruct s; reflexivity].
  - destruct s as [|b s].
    + split; [discriminate | intros [r Hr]; discriminate].
    + simpl. destruct (ascii_dec a b) as [->|Hne].
      * rewrite IH. split; intros [r Hr]; exists r.
        -- subst; reflexivity.
        -- injection Hr as Hr; exact Hr.
      * split; [discriminate|]. intros [r Hr]. injection Hr as Hab _.
        congruence.
Qed.

Lemma append_assoc (a b c : string) : (a +:+ b) +:+ c = a +:+ b +:+ c.
Proof. induction a as [|x a IH]; simpl; [reflexivity | rewrite IH; reflexivity]. Qed.

Lemma append_empty_r (a : string) : a +:+ "" = a.
Proof. induction a as [|x a IH]; simpl; [reflexivity | rewrite IH; reflexivity]. Qed.

(** The last code unit of a string. *)
Fixpoint lastChar (s : string) : option ascii :=
  match s with
  | EmptyString => None
  | String c s' =>
      match lastChar s' with
      | Some d => Some d
      | None => Some c
      end
  end.

Lemma lastChar_none (s : string) : lastChar s = None <-> s = "".
Proof.
  destruct s as [|c s]; simpl; [tauto|].
  destruct (lastChar s); split; discriminate.
Qed.


Lemma endsWith_lastChar (s : string) (c : ascii) :
  endsWith s (String c "") = true <-> lastChar s = Some c.
Proof.
  induction s as [|a s IH].
  - simpl. split; discriminate.
  - cbn [endsWith lastChar]. rewrite orb_true_iff, IH, String.eqb_eq.
    destruct (lastChar s) as [d|] eqn:E.
    + split; [|auto]. intros [[= -> ->]|Hd]; [discriminate|assumption].
    + apply lastChar_none in E. subst s. split.
      * intros [[= ->]|]; [reflexivity|discriminate].
      * intros [= ->]. left. reflexivity.
Qed.


Lemma snoc_lastChar (s : string) (c : ascii) :
  lastChar s = Some c -> s = dropLast s +:+ String c "".
Proof.
  induction s as [|a s IH]; [discriminate|].
  cbn [lastChar]. destruct (lastChar s) as [d|] eqn:E.
  - intros [= ->]. destruct s as [|b s]; [discriminate|].
    cbn [dropLast append]. f_equal. apply IH. reflexivity.
  - apply lastChar_none in E. subst s. intros [= ->]. reflexivity.
Qed.


Lemma all_app (f : ascii -> bool) (a b : string) :
  all f (a +:+ b) = all f a && all f b.
Proof.
  induction a as [|c a IH]; simpl; [reflexivity|].
  rewrite IH, andb_assoc. reflexivity.
Qed.

(** A string is cut at its first code unit that [stop] accepts. *)
Lemma breakAt_app (stop : ascii -> bool) (a r : string) :
  all (fun c => negb (stop c)) a = true ->
  match r with
  | EmptyString => True
  | String c _ => stop c = true
  end ->
  breakAt stop (a +:+ r) = (a, r).
Proof.
  intros Ha Hr. induction a as [|c a IH]; simpl in *.
  - destruct r as [|c r]; [reflexivity|]. simpl. rewrite Hr. reflexivity.
  - apply andb_true_iff in Ha as [Hc Ha].
    apply negb_true_iff in Hc. rewrite Hc, (IH Ha). reflexivity.
Qed.

(** *** Deleting a pattern *)

(** The code unit [c] does not occur in [s]. *)
Definition lacks (c : ascii) (s : string) : bool :=
  all (fun d => negb (d =? c)%char) s.

Lemma startsWith_app (a b : string) : startsWith (a +:+ b) a = true.
Proof. apply startsWith_iff. exists b. reflexivity. Qed.

Lemma startsWith_lacks (c : ascii) (p s : string) :
  lacks c s = true -> startsWith s (String c p) = false.
Proof.
  destruct s as [|d s]; [reflexivity|].
  unfold lacks. cbn [all]. rewrite andb_true_iff. intros [Hd _].
  apply negb_true_iff, Ascii.eqb_neq in Hd.
  unfold startsWith. cbn [prefix].
  destruct (ascii_dec c d) as [->|]; [contradiction|reflexivity].
Qed.

Lemma replaceAllFrom_prefix (c : ascii) (p r pre rest : string) :
  lacks c pre = true ->
  replaceAllFrom 0 (pre +:+ rest) (String c p) r
  = pre +:+ replaceAllFrom 0 rest (String c p) r.
Proof.
  induction pre as [|d pre IH]; intros Hl; [reflexivity|].
  cbn [append replaceAllFrom].
  assert (Hs : startsWith (String d (pre +:+ rest)) (String c p) = false).
  { unfold lacks in Hl. cbn [all] in Hl. apply andb_true_iff in Hl as [Hd _].
    apply negb_true_iff, Ascii.eqb_neq in Hd.
    unfold startsWith. cbn [prefix].
    destruct (ascii_dec c d) as [->|]; [contradiction|reflexivity]. }
  rewrite Hs. f_equal. apply IH.
  unfold lacks in *. cbn [all] in Hl. apply andb_true_iff in Hl as [_ Hl].
  exact Hl.
Qed.

Lemma replaceAllFrom_lacks (c : ascii) (p r s : string) :
  lacks c s = true -> replaceAllFrom 0 s (String c p) r = s.
Proof.
  intros Hl. rewrite <- (append_empty_r s) at 1.
  rewrite (replaceAllFrom_prefix c p r s "" Hl). simpl.
  apply append_empty_r.
Qed.

Lemma replaceAllFrom_skip (x s p r : string) :
  replaceAllFrom (String.length x) (x +:+ s) p r = replaceAllFrom 0 s p r.
Proof.
  induction x as [|d x IH]; simpl.
  - destruct s; reflexivity.
  - exact IH.
Qed.

(** A pattern that occurs once, between texts that lack its first code
    unit, is deleted and nothing else is. *)
Lemma replaceAll_once (c : ascii) (p pre post : string) :
  lacks c pre = true -> lacks c post = true ->
  replaceAll (pre +:+ String c p +:+ post) (String c p) "" = pre +:+ post.
Proof.
  intros Hpre Hpost. unfold replaceAll.
  rewrite (replaceAllFrom_prefix c p "" pre _ Hpre). f_equal.
  cbn [append replaceAllFrom].
  change (String c (p +:+ post)) with (String c p +:+ post).
  rewrite startsWith_app.
  replace (String.length (String c p) - 1) with (String.length p)
    by (simpl; lia).
  cbn [append]. rewrite replaceAllFrom_skip.
  apply replaceAllFrom_lacks, Hpost.
Qed.

Lemma all_replaceAllFrom (f : ascii -> bool) (k : nat) (s p : string) :
  all f s = true -> all f (replaceAllFrom k s p "") = true.
Proof.
  revert k. induction s as [|d s IH]; intros k Hs; [reflexivity|].
  cbn [all] in Hs. apply andb_true_iff in Hs as [Hd Hs].
  cbn [replaceAllFrom]. destruct k as [|k]; [|apply IH, Hs].
  destruct (startsWith (String d s) p).
  - cbn [append]. apply IH, Hs.
  - cbn [all]. rewrite Hd. apply IH, Hs.
Qed.

Lemma all_replaceAll (f : ascii -> bool) (s p : string) :
  all f s = true -> all f (replaceAll s p "") = true.
Proof.
  unfold replaceAll. destruct p as [|c p].
  - induction s as [|d s IH]; [reflexivity|].
    cbn [all intersperse append]. rewrite andb_true_iff.
    intros [Hd Hs]. rewrite Hd. apply IH, Hs.
  - apply all_replaceAllFrom.
Qed.

Lemma all_collapseWs (f : ascii -> bool) (s : string) :
  f " "%char = true -> all f s = true -> all f (collapseWs s) = true.
Proof.
  intros Hsp. induction s as [|d s IH]; [reflexivity|].
  cbn [all collapseWs]. rewrite andb_true_iff. intros [Hd Hs].
  destruct (isSpace d).
  - destruct (headIsSpace s); [apply IH, Hs|].
    cbn [all]. rewrite Hsp. apply IH, Hs.
  - cbn [all]. rewrite Hd. apply IH, Hs.
Qed.

Lemma all_trim (f : ascii -> bool) (s : string) :
  all f s = true -> all f (trim s) = true.
Proof.
  unfold trim. intros Hs.
  assert (Hstart : all f (trimStart s) = true).
  { induction s as [|d s IH]; [reflexivity|].
    cbn [trimStart]. destruct (isSpace d); [|assumption].
    cbn [all] in Hs. apply andb_true_iff in Hs as [_ Hs]. apply IH, Hs. }
  clear Hs. induction (trimStart s) as [|d t IH]; [reflexivity|].
  cbn [all] in Hstart. apply andb_true_iff in Hstart as [Hd Ht].
  cbn [trimEnd]. specialize (IH Ht).
  destruct (trimEnd t) as [|e t'].
  - destruct (isSpace d); [reflexivity|]. cbn [all]. rewrite Hd. reflexivity.
  - cbn [all] in *. rewrite Hd. exact IH.
Qed.

Lemma includes_lacks (c : ascii) (p s : string) :
  lacks c s = true -> includes s (String c p) = false.
Proof.
  induction s as [|d s IH]; intros Hl; [reflexivity|].
  cbn [includes]. rewrite (startsWith_lacks c p _ Hl).
  unfold lacks in *. cbn [all] in Hl. apply andb_true_iff in Hl as [_ Hl].
  apply IH, Hl.
Qed.

(** [Array.prototype.find]: the first element that passes the test. *)
Lemma find_first {A : Type} (f : A -> bool) (l : list A) :
  match find f l with
  | Some x =>
      exists before after,
        l = before ++ x :: after /\ f x = true
        /\ Forall (fun y => f y = false) before
  | None => Forall (fun y => f y = false) l
  end.
Proof.
  induction l as [|a l IH]; simpl.
  - constructor.
  - destruct (f a) eqn:Ha.
    + exists [], l. auto.
    + destruct (find f l) as [x|].
      * destruct IH as (b & c & -> & Hx & Hb).
        exists (a :: b), c. auto.
      * constructor; assumption.
Qed.

End JSFacts.

(** ** storage.ts *)

Module StorageFacts.
Import JS Url Storage JSFacts.

(** An archive with two articles for one URL: the listing order has the
    older one first. *)
Definition olderArticle : File :=
  {| name := "2024-01-01_post.md";
     data := Some "---
title: Post
url: https://a.com/post
date: 2024-01-01T10:00:00.000Z
type: web
words: 3
---

first run";
     mtimeMs := 1704103200000 |}.

Definition newerArticle : File :=
  {| name := "2024-06-01_post.md";
     data := Some "---
title: Post
url: https://a.com/post/
date: 2024-06-01T10:00:00.000Z
type: web
words: 3
---

forced second run";
     mtimeMs := 1717236000000 |}.

Definition twoRuns : FileSystem :=
  {| articles := Some [olderArticle; newerArticle];
     summaries := Some [];
     html := Some [] |}.

(** *** Front matter *)

(** What [frontmatter] writes between its two lines of dashes. *)
Definition frontmatterHeader (stamp : string) (meta : Meta) : string :=
  newline +:+
  "title: " +:+ String dquote
     (replaceAll (title meta) (String dquote EmptyString)
        (String "\" (String dquote EmptyString)))
     +:+ String dquote newline +:+
  "url: " +:+ url meta +:+ newline +:+
  "date: " +:+ stamp +:+ newline +:+
  "type: " +:+ kindName (type meta) +:+ newline +:+
  "words: " +:+ decimalZ (words meta) +:+ newline.

Lemma frontmatter_split (stamp : string) (meta : Meta) :
  frontmatter stamp meta = "---" +:+ frontmatterHeader stamp meta +:+ "---".
Proof.
  unfold frontmatter, frontmatterHeader.
  repeat (progress (rewrite ?append_assoc; cbn [append])). reflexivity.
Qed.

Lemma prefix_empty (s : string) : String.prefix "" s = true.
Proof. destruct s; reflexivity. Qed.

Lemma startsWith_dashes (c : ascii) (h rest : string) :
  startsWith (String c (h +:+ String "-" (String "-" (String "-" rest)))) "---"
  = startsWith (String c (h +:+ "--")) "---".
Proof.
  unfold startsWith.
  destruct h as [|d [|e h]]; cbn [append prefix];
    repeat (destruct (ascii_dec _ _); try reflexivity; try contradiction);
    rewrite ?prefix_empty; reflexivity.
Qed.

(** Where the header holds no three dashes of its own, the closing line is
    the first [---] after the opening one. *)
Lemma afterFirst_dashes (h rest : string) :
  includes (h +:+ "--") "---" = false ->
  afterFirst "---" (h +:+ String "-" (String "-" (String "-" rest)))
  = Some rest.
Proof.
  induction h as [|c h IH]; intros Hi.
  - cbn [append afterFirst]. unfold startsWith. cbn [prefix].
    destruct (ascii_dec "-" "-"); [|contradiction].
    rewrite prefix_empty. reflexivity.
  - cbn [append includes] in Hi. apply orb_false_iff in Hi as [Hs Hi].
    cbn [append afterFirst]. rewrite startsWith_dashes, Hs. apply IH, Hi.
Qed.

Lemma trimStart_dropNewlines (s : string) :
  trimStart (dropNewlines s) = trimStart s.
Proof.
  induction s as [|c s IH]; [reflexivity|].
  cbn [dropNewlines]. destruct (c =? LF)%char eqn:E; [|reflexivity].
  apply Ascii.eqb_eq in E. subst c. rewrite IH. reflexivity.
Qed.

(** Reading back a summary file that [saveSummary] wrote gives the summary
    with its white space trimmed. *)
Lemma stripFrontmatter_saved (stamp : string) (meta : Meta) (summary : string) :
  includes (frontmatterHeader stamp meta +:+ "--") "---" = false ->
  trim (stripFrontmatter
          (frontmatter stamp meta +:+ newline +:+ newline +:+ summary))
  = trim summary.
Proof.
  intros Hi. rewrite frontmatter_split, !append_assoc.
  unfold stripFrontmatter. rewrite startsWith_app.
  cbn [append drop].
  rewrite (afterFirst_dashes _ _ Hi).
  unfold trim. rewrite trimStart_dropNewlines. reflexivity.
Qed.

(** *** Canonical keys *)







Lemma all_impl (f g : ascii -> bool) (s : string) :
  (forall c, f c = true -> g c = true) -> all f s = true -> all g s = true.
Proof.
  intros Hfg. induction s as [|c s IH]; simpl; [reflexivity|].
  rewrite !andb_true_iff. intros [Hc Hs]. auto.
Qed.

Lemma startsWith_char (c a : ascii) (s : string) :
  startsWith (String c s) (String a "") = (a =? c)%char.
Proof.
  unfold startsWith. cbn [prefix].
  destruct (ascii_dec a c) as [->|Hne].
  - rewrite Ascii.eqb_refl. destruct s; reflexivity.
  - symmetry. apply Ascii.eqb_neq. exact Hne.
Qed.





















Section WithPlatform.
Context `{UrlParser}.



End WithPlatform.

Section WithPlatform.
Context `{UrlParser}.

(** The canonical key stored in an article file, when it has one. *)
Definition storedKey (f : File) : option string :=
  match data f with
  | Some text =>
      match urlMatch text with
      | Some cap => Some (normalizeUrl (trim cap))
      | None => None
      end
  | None => None
  end.

Lemma findByUrlLoop_first needle before f after :
  storedKey f = Some needle ->
  Forall (fun g => data g <> None /\ storedKey g <> Some needle) before ->
  findByUrlLoop needle (before ++ f :: after)
  = Some (replaceFirst (name f) ".md" "").
Proof.
  intros Hf Hb. induction before as [|g before IH]; simpl.
  - unfold storedKey in Hf. destruct (data f) as [text|]; [|discriminate].
    destruct (urlMatch text) as [cap|]; [|discriminate].
    injection Hf as ->. rewrite String.eqb_refl. reflexivity.
  - pose proof (Forall_inv Hb) as [Hd Hk]. apply Forall_inv_tail in Hb.
    unfold storedKey in Hk. destruct (data g) as [text|]; [|contradiction].
    destruct (urlMatch text) as [cap|]; [|apply IH, Hb].
    destruct (normalizeUrl (trim cap) =? needle) eqn:E; [|apply IH, Hb].
    apply String.eqb_eq in E. congruence.
Qed.

(** The lookup returns the first listed article stored for the key, when
    what is listed before it can be read. *)
Lemma findByUrl_listed (fs : FileSystem) (target : string)
  (type : option Kind) (before after : list File) (f : File) :
  articles fs = Some (before ++ f :: after) ->
  endsWith (name f) ".md" = true ->
  storedKey f = Some (normalizeUrl target) ->
  Forall (fun g => endsWith (name g) ".md" = true ->
                   data g <> None
                   /\ storedKey g <> Some (normalizeUrl target)) before ->
  findByUrl fs target type = Some (replaceFirst (name f) ".md" "").
Proof.
  intros Ha Hmd Hf Hb. unfold findByUrl. rewrite Ha.
  rewrite filter_app. simpl. rewrite Hmd.
  apply findByUrlLoop_first; [assumption|].
  clear Ha. induction before as [|g before IH]; simpl; [constructor|].
  pose proof (Forall_inv Hb) as Hg. apply Forall_inv_tail in Hb.
  simpl in Hg.
  destruct (endsWith (name g) ".md") eqn:E.
  - constructor; [apply Hg; reflexivity | apply IH, Hb].
  - apply IH, Hb.
Qed.

(** An entry that cannot be read ends the loop: what is listed after it
    is not looked at. *)
Lemma findByUrlLoop_stops needle (before rest : list File) :
  Forall (fun g => endsWith (name g) ".md" = true ->
                   storedKey g <> Some needle) before ->
  Exists (fun g => endsWith (name g) ".md" = true /\ data g = None) before ->
  findByUrlLoop needle
    (filter (fun f => endsWith (name f) ".md") (before ++ rest))
  = None.
Proof.
  intros Hb He. induction before as [|g before IH]; [inversion He|].
  pose proof (Forall_inv Hb) as Hg. apply Forall_inv_tail in Hb.
  cbn [app filter].
  destruct (endsWith (name g) ".md") eqn:Emd.
  - cbn [findByUrlLoop]. specialize (Hg Emd). unfold storedKey in Hg.
    destruct (data g) as [text|] eqn:Ed; [|reflexivity].
    assert (He' : Exists (fun g => endsWith (name g) ".md" = true
                                   /\ data g = None) before).
    { inversion He as [? ? [_ Hd]|]; subst; [congruence|assumption]. }
    destruct (urlMatch text) as [cap|]; [|apply IH; assumption].
    destruct (normalizeUrl (trim cap) =? needle) eqn:E;
      [|apply IH; assumption].
    apply String.eqb_eq in E. congruence.
  - apply IH; [assumption|].
    inversion He as [? ? [Hmd _]|]; subst; [congruence|assumption].
Qed.

(** C7, amended: when several stored articles have the canonical key of
    the lookup, the time stamps of the entries play no part.  Where every
    [.md] entry that the directory lists before the first of these
    articles can be read, [findByUrl] returns the slug of that first
    listed article; where one of them cannot be read, [findByUrl] returns
    nothing. *)
Theorem findByUrl_first_listed (fs : FileSystem) (target : string)
  (type : option Kind) (before after : list File) (f : File) :
  articles fs = Some (before ++ f :: after) ->
  endsWith (name f) ".md" = true ->
  storedKey f = Some (normalizeUrl target) ->
  Forall (fun g => endsWith (name g) ".md" = true ->
                   storedKey g <> Some (normalizeUrl target)) before ->
  (Forall (fun g => endsWith (name g) ".md" = true -> data g <> None)
     before ->
   findByUrl fs target type = Some (replaceFirst (name f) ".md" ""))
  /\ (Exists (fun g => endsWith (name g) ".md" = true /\ data g = None)
        before ->
      findByUrl fs target type = None).
Proof.
  intros Ha Hmd Hf Hb. split.
  - intros Hr. apply (findByUrl_listed fs target type before after f);
      try assumption.
    clear Ha. induction before as [|g before IH]; [constructor|].
    pose proof (Forall_inv Hb) as Hg. apply Forall_inv_tail in Hb.
    pose proof (Forall_inv Hr) as Hd. apply Forall_inv_tail in Hr.
    constructor; [|apply IH; assumption].
    intros E. split; [apply Hd, E | apply Hg, E].
  - intros He. unfold findByUrl. rewrite Ha.
    apply findByUrlLoop_stops; assumption.
Qed.

End WithPlatform.

Import SimpleUrl.



(** Fragment and trailing slash on concrete URLs; [http] and [https] are
    kept apart. *)
Example normalizeUrl_run :
  normalizeUrl "https://a.com/x#top" = "https://a.com/x"
  /\ normalizeUrl "https://a.com/x/" = "https://a.com/x"
  /\ normalizeUrl "https://a.com" = normalizeUrl "https://a.com/"
  /\ normalizeUrl "http://a.com/x" = "http://a.com/x"
  /\ normalizeUrl "https://youtu.be/abcdefghijk?t=3"
     = normalizeUrl "https://www.youtube.com/watch?v=abcdefghijk".
Proof. vm_compute. repeat split. Qed.

(** An entry of the articles directory that cannot be read as a file: a
    directory that a user named [notes.md]. *)
Definition notesFolder : File :=
  {| name := "notes.md"; data := None; mtimeMs := 1690000000000 |}.

(** An article stored for another page. *)
Definition otherArticle : File :=
  {| name := "2023-12-24_about.md";
     data := Some "---
title: About
url: https://a.com/about
date: 2023-12-24T10:00:00.000Z
type: web
words: 3
---

about us";
     mtimeMs := 1703412000000 |}.

Definition twoRunsAfterOther : FileSystem :=
  {| articles := Some [otherArticle; olderArticle; newerArticle];
     summaries := Some [];
     html := Some [] |}.

Definition twoRunsAfterFolder : FileSystem :=
  {| articles := Some [notesFolder; olderArticle; newerArticle];
     summaries := Some [];
     html := Some [] |}.

(** C7, as stated, fails: of two articles stored for one URL, the lookup
    returns the older one, which the directory lists first; and it returns
    none of the two when an entry that cannot be read is listed before
    them. *)
Lemma findByUrl_returns_older_duplicate :
  findByUrl twoRuns "https://a.com/post" None = Some "2024-01-01_post"
  /\ storedKey olderArticle = storedKey newerArticle
  /\ (mtimeMs olderArticle <? mtimeMs newerArticle)%Z = true
  /\ findByUrl twoRunsAfterFolder "https://a.com/post" None = None.
Proof. vm_compute. repeat split. Qed.

Lemma findByUrl_first_listed_witness :
  findByUrl twoRunsAfterOther "https://a.com/post" (Some Web)
  = Some (replaceFirst (name olderArticle) ".md" "")
  /\ findByUrl twoRunsAfterFolder "https://a.com/post" (Some Web) = None.
Proof.
  split.
  - apply (findByUrl_first_listed twoRunsAfterOther "https://a.com/post"
             (Some Web) [otherArticle] [newerArticle] olderArticle).
    + reflexivity.
    + reflexivity.
    + reflexivity.
    + constructor; [|constructor]. intros _ E. vm_compute in E.
      discriminate E.
    + constructor; [|constructor]. intros _. discriminate.
  - apply (findByUrl_first_listed twoRunsAfterFolder "https://a.com/post"
             (Some Web) [notesFolder] [newerArticle] olderArticle).
    + reflexivity.
    + reflexivity.
    + reflexivity.
    + constructor; [|constructor]. intros _ E. vm_compute in E.
      discriminate E.
    + constructor. split; reflexivity.
Defined.

End StorageFacts.

(** ** cdp.ts *)

Module CdpFacts.
Import Cdp JSFacts.

(** The test of [findTabByUrl] as a proposition: the tab's URL is the
    requested one, or starts with it. *)
Definition tabMatches (url : string) (t : Tab) : Prop :=
  Cdp.url t = url \/ exists rest, Cdp.url t = url +:+ rest.

Lemma tabMatches_iff (url : string) (t : Tab) :
  ((Cdp.url t =? url) || JS.startsWith (Cdp.url t) url)%bool = true
  <-> tabMatches url t.
Proof.
  unfold tabMatches.
  rewrite orb_true_iff, String.eqb_eq, startsWith_iff. tauto.
Qed.

(** C8, as stated, fails: a tab whose URL is a proper prefix of the
    requested URL (the request carries an extra query) is not matched. *)
Lemma findTabByUrl_request_longer_no_match :
  JS.startsWith "https://a.com/x?q=1" "https://a.com/x" = true
  /\ findTabByUrl
       [ {| id := "1"; title := "Docs"; url := "https://a.com/x" |} ]
       "https://a.com/x?q=1" = None.
Proof. split; reflexivity. Qed.

(** C8, amended: [findTabByUrl] returns the first tab, in list order,
    whose URL equals the requested URL or has the requested URL as a
    prefix, and no tab when there is none. *)
Theorem findTabByUrl_first_match (tabs : list Tab) (url : string) :
  match findTabByUrl tabs url with
  | Some t =>
      exists before after,
        tabs = before ++ t :: after /\ tabMatches url t
        /\ Forall (fun t' => ~ tabMatches url t') before
  | None => Forall (fun t' => ~ tabMatches url t') tabs
  end.
Proof.
  unfold findTabByUrl.
  pose proof (find_first
    (fun t => (Cdp.url t =? url) || JS.startsWith (Cdp.url t) url)%bool tabs)
    as H.
  assert (Hneg : forall l,
    Forall (fun y : Tab =>
      ((Cdp.url y =? url) || JS.startsWith (Cdp.url y) url)%bool = false) l ->
    Forall (fun t' => ~ tabMatches url t') l).
  { intros l. apply Forall_impl. intros t Ht Hm.
    apply tabMatches_iff in Hm. congruence. }
  destruct (find _ tabs) as [t|].
  - destruct H as (b & a & -> & Ht & Hb).
    exists b, a. split; [reflexivity|]. split; [apply tabMatches_iff, Ht|].
    apply Hneg, Hb.
  - apply Hneg, H.
Qed.

End CdpFacts.

(** ** youtube.ts *)

Module YoutubeFacts.
Import Youtube JSFacts.

(** The priority class of a track: 0 manual English, 1 manual,
    2 auto-generated English, 3 auto-generated. *)
Definition rank (t : CaptionTrack) : Z := (2 * autoFlag t + enFlag t)%Z.

Lemma autoFlag_01 (t : CaptionTrack) : autoFlag t = 0%Z \/ autoFlag t = 1%Z.
Proof.
  unfold autoFlag. destruct (kind t) as [k|]; [destruct (k =? "asr")|]; auto.
Qed.

Lemma enFlag_01 (t : CaptionTrack) : enFlag t = 0%Z \/ enFlag t = 1%Z.
Proof. unfold enFlag. destruct (_ || _)%bool; auto. Qed.

Ltac flag t :=
  let E := fresh "E" in
  destruct (autoFlag_01 t) as [E|E]; try rewrite E in *; clear E;
  destruct (enFlag_01 t) as [E|E]; try rewrite E in *; clear E.

(** Case analysis on the flags of two tracks. *)
Ltac flags t z :=
  unfold rank, isAuto, isEnglish in *; flag t; flag z;
  simpl in *; try discriminate; try lia.

(** The comparator orders two tracks as their classes are ordered. *)
Lemma compareTracks_rank (a b : CaptionTrack) :
  (compareTracks a b <=? 0)%Z = (rank a <=? rank b)%Z.
Proof.
  unfold compareTracks, rank.
  destruct (autoFlag_01 a) as [Ha|Ha], (autoFlag_01 b) as [Hb|Hb],
           (enFlag_01 a) as [Ea|Ea], (enFlag_01 b) as [Eb|Eb];
    rewrite Ha, Hb, Ea, Eb; reflexivity.
Qed.

(** [t] is the first track of [l] whose class is the best one of [l]. *)
Definition firstBest (l : list CaptionTrack) (t : CaptionTrack) : Prop :=
  exists before after,
    l = before ++ t :: after
    /\ Forall (fun z => (rank t < rank z)%Z) before
    /\ Forall (fun z => (rank t <= rank z)%Z) after.

Lemma firstBest_unique l t t' : firstBest l t -> firstBest l t' -> t = t'.
Proof.
  intros (b & a & Hl & Hb & Ha) (b' & a' & Hl' & Hb' & Ha').
  subst l. revert b' Hl' Hb'.
  induction b as [|x b IH]; intros [|x' b'] Hl' Hb'; simpl in *.
  - congruence.
  - injection Hl' as E1 E2. subst x' a.
    apply Forall_inv in Hb'.
    rewrite Forall_forall in Ha.
    specialize (Ha t' (in_elt _ _ _)). lia.
  - injection Hl' as E1 E2. subst x a'.
    apply Forall_inv in Hb.
    rewrite Forall_forall in Ha'.
    specialize (Ha' t (in_elt _ _ _)). lia.
  - injection Hl' as E1 Hl'. subst x'.
    apply IH with (b' := b'); [eapply Forall_inv_tail; eassumption | assumption |].
    eapply Forall_inv_tail; eassumption.
Qed.

Lemma sort_head_cons {A : Type} (cmp : A -> A -> Z) (x : A) (l : list A) :
  hd_error (sort cmp (x :: l)) =
  match hd_error (sort cmp l) with
  | None => Some x
  | Some y => if (cmp x y <=? 0)%Z then Some x else Some y
  end.
Proof.
  unfold sort. simpl. destruct (fold_right _ _ l) as [|y l']; simpl.
  - reflexivity.
  - destruct (cmp x y <=? 0)%Z; reflexivity.
Qed.

Lemma sort_head_firstBest (l : list CaptionTrack) :
  match hd_error (sort compareTracks l) with
  | Some t => firstBest l t
  | None => l = []
  end.
Proof.
  induction l as [|x l IH].
  - reflexivity.
  - rewrite sort_head_cons.
    destruct (hd_error (sort compareTracks l)) as [y|].
    + destruct IH as (b & a & -> & Hb & Ha).
      rewrite compareTracks_rank.
      destruct (rank x <=? rank y)%Z eqn:Hxy.
      * apply Z.leb_le in Hxy. exists [], (b ++ y :: a).
        split; [reflexivity|]. split; [constructor|].
        apply Forall_app. split.
        -- eapply Forall_impl; [|exact Hb]. simpl. intros; lia.
        -- constructor; [assumption|].
           eapply Forall_impl; [|exact Ha]. simpl. intros; lia.
      * apply Z.leb_gt in Hxy. exists (x :: b), a.
        split; [reflexivity|]. split; [|assumption].
        constructor; assumption.
    + subst l. exists [], []. repeat split; constructor.
Qed.

Lemma selectByPriority_firstBest (l : list CaptionTrack) :
  match selectByPriority l with
  | Some t => firstBest l t
  | None => l = []
  end.
Proof.
  unfold selectByPriority.
  pose proof (find_first (fun t => negb (isAuto t) && isEnglish t)%bool l) as H0.
  destruct (find _ l) as [t|].
  { destruct H0 as (b & a & -> & Ht & Hb). exists b, a.
    split; [reflexivity|]. split.
    - eapply Forall_impl; [|exact Hb]. simpl. intros z Hz. flags t z.
    - apply Forall_forall. intros z _. flags t z. }
  pose proof (find_first (fun t => negb (isAuto t)) l) as H1.
  destruct (find _ l) as [t|].
  { destruct H1 as (b & a & -> & Ht & Hb).
    apply Forall_app in H0 as [H0b H0a].
    pose proof (Forall_inv H0a) as H0t. apply Forall_inv_tail in H0a.
    exists b, a. split; [reflexivity|]. split.
    - eapply Forall_impl; [|exact Hb]. simpl. intros z Hz. flags t z.
    - eapply Forall_impl; [|exact H0a]. simpl. intros z Hz. flags t z. }
  pose proof (find_first (fun t => isAuto t && isEnglish t)%bool l) as H2.
  destruct (find _ l) as [t|].
  { destruct H2 as (b & a & -> & Ht & Hb).
    apply Forall_app in H1 as [H1b H1a]. apply Forall_inv_tail in H1a.
    exists b, a. split; [reflexivity|]. split.
    - rewrite Forall_forall in *. intros z Hz.
      specialize (Hb z Hz). specialize (H1b z Hz). flags t z.
    - eapply Forall_impl; [|exact H1a]. simpl. intros z Hz. flags t z. }
  pose proof (find_first isAuto l) as H3.
  destruct (find _ l) as [t|].
  { destruct H3 as (b & a & -> & Ht & Hb).
    apply Forall_app in H1 as [H1b H1a]. apply Forall_inv_tail in H1a.
    apply Forall_app in H2 as [H2b H2a].
    pose proof (Forall_inv H2a) as H2t. apply Forall_inv_tail in H2a.
    exists b, a. split; [reflexivity|]. split.
    - rewrite Forall_forall in *. intros z Hz.
      specialize (Hb z Hz). specialize (H1b z Hz). flags t z.
    - rewrite Forall_forall in *. intros z Hz.
      specialize (H1a z Hz). specialize (H2a z Hz). flags t z. }
  destruct l as [|z l]; [reflexivity|].
  apply Forall_inv in H1, H3. flags z z.
Qed.

Lemma selectBestTrack_refines (tracks : list CaptionTrack) :
  selectBestTrack tracks = selectByPriority tracks.
Proof.
  unfold selectBestTrack.
  pose proof (sort_head_firstBest tracks) as Hs.
  pose proof (selectByPriority_firstBest tracks) as Hp.
  destruct (hd_error _) as [t|], (selectByPriority tracks) as [t'|].
  - f_equal. eapply firstBest_unique; eassumption.
  - subst tracks. destruct Hs as ([|? ?] & ? & ? & _); discriminate.
  - subst tracks. destruct Hp as ([|? ?] & ? & ? & _); discriminate.
  - reflexivity.
Qed.

(** C5. [selectBestTrack] is the priority rule of the specification: it
    returns the first track, in list order, of the best non-empty class
    among manual English, manual, auto-generated English, auto-generated;
    on a non-empty list it returns one track of the list; and the tracks
    (en, manual), (en, auto), (fr, manual), in any order, give the manual
    English track. *)
Theorem selectBestTrack_priority :
  (forall tracks, selectBestTrack tracks = selectByPriority tracks)
  /\ (forall tracks, tracks <> [] ->
        exists t, selectBestTrack tracks = Some t /\ In t tracks)
  /\ (forall u1 u2 u3 tracks,
        let manualEn := {| languageCode := "en"; kind := None; baseUrl := u1 |} in
        let autoEn := {| languageCode := "en"; kind := Some "asr"; baseUrl := u2 |} in
        let manualFr := {| languageCode := "fr"; kind := None; baseUrl := u3 |} in
        Permutation tracks [manualEn; autoEn; manualFr] ->
        selectBestTrack tracks = Some manualEn).
Proof.
  split; [exact selectBestTrack_refines|]. split.
  - intros tracks Hne. unfold selectBestTrack.
    pose proof (sort_head_firstBest tracks) as Hs.
    destruct (hd_error _) as [t|]; [|contradiction].
    exists t. split; [reflexivity|].
    destruct Hs as (b & a & -> & _). apply in_elt.
  - intros u1 u2 u3 tracks manualEn autoEn manualFr Hperm.
    rewrite selectBestTrack_refines. unfold selectByPriority.
    pose proof (find_first (fun t => negb (isAuto t) && isEnglish t)%bool tracks)
      as H0.
    destruct (find _ tracks) as [t|].
    + destruct H0 as (b & a & -> & Ht & _).
      assert (Hin : In t [manualEn; autoEn; manualFr])
        by (eapply Permutation_in; [exact Hperm | apply in_elt]).
      simpl in Hin. destruct Hin as [<-|[<-|[<-|[]]]];
        [reflexivity | discriminate Ht | discriminate Ht].
    + assert (Hin : In manualEn tracks).
      { eapply Permutation_in; [apply Permutation_sym, Hperm | left; reflexivity]. }
      rewrite Forall_forall in H0. specialize (H0 _ Hin). discriminate H0.
Qed.

End YoutubeFacts.

(** ** site.ts *)

Module SiteFacts.
Import JS Url Site JSFacts.

Lemma setAdd_In (x y : string) (set : list string) :
  In x (setAdd y set) <-> x = y \/ In x set.
Proof.
  unfold setAdd. destruct (existsb (String.eqb y) set) eqn:E.
  - split; [auto|]. intros [->|Hin]; [|assumption].
    apply existsb_exists in E as (z & Hz & Heq).
    apply String.eqb_eq in Heq. subst z. assumption.
  - rewrite in_app_iff. simpl. split.
    + intros [Hin|[<-|[]]]; auto.
    + intros [->|Hin]; auto.
Qed.


(** *** Counting the pages of a chunk *)

(** [c] is one of the windows of the page. *)
Definition hasWindow (c : string) (p : SitePage) : bool :=
  existsb (String.eqb c) (windowsOf (splitWs (content p))).

(** The number of pages that have [c] among their windows. *)
Definition pageCount (c : string) (pages : list SitePage) : nat :=
  List.length (filter (hasWindow c) pages).

(** [chunkCounts.get(chunk) || 0] *)
Definition getCount (c : string) (m : Counts) : nat :=
  match mapGet c m with
  | Some n => n
  | None => 0
  end.

Lemma mapGet_mapSet (c k : string) (n : nat) (m : Counts) :
  mapGet c (mapSet k n m) = if k =? c then Some n else mapGet c m.
Proof.
  induction m as [|[k' v] m IH]; simpl.
  - destruct (k =? c); reflexivity.
  - destruct (k' =? k) eqn:E; simpl.
    + apply String.eqb_eq in E. subst k'.
      destruct (k =? c); reflexivity.
    + rewrite IH. destruct (k' =? c) eqn:E'; [|reflexivity].
      apply String.eqb_eq in E'. subst k'.
      rewrite String.eqb_sym, E. reflexivity.
Qed.

Lemma mapSet_keys (k c : string) (n : nat) (m : Counts) :
  In c (map fst (mapSet k n m)) <-> c = k \/ In c (map fst m).
Proof.
  induction m as [|[k' v] m IH]; simpl.
  - intuition.
  - destruct (k' =? k) eqn:E; simpl.
    + apply String.eqb_eq in E. subst k'. intuition.
    + rewrite IH. intuition.
Qed.

Lemma mapSet_NoDup (k : string) (n : nat) (m : Counts) :
  NoDup (map fst m) -> NoDup (map fst (mapSet k n m)).
Proof.
  induction m as [|[k' v] m IH]; simpl; intros Hnd.
  - repeat constructor. intros [].
  - inversion Hnd as [|? ? Hnin Hnd']; subst.
    destruct (k' =? k) eqn:E; simpl.
    + constructor; assumption.
    + constructor; [|apply IH, Hnd'].
      rewrite mapSet_keys. intros [->|Hin]; [|contradiction].
      rewrite String.eqb_refl in E. discriminate.
Qed.

Lemma mapGet_In (c : string) (n : nat) (m : Counts) :
  NoDup (map fst m) -> (In (c, n) m <-> mapGet c m = Some n).
Proof.
  induction m as [|[k v] m IH]; simpl; intros Hnd.
  - split; [intros []|discriminate].
  - inversion Hnd as [|? ? Hnin Hnd']; subst.
    destruct (k =? c) eqn:E.
    + apply String.eqb_eq in E. subst k. split.
      * intros [[= ->]|Hin]; [reflexivity|].
        exfalso. apply Hnin. apply in_map_iff. exists (c, n). auto.
      * intros [= ->]. left. reflexivity.
    + rewrite <- (IH Hnd'). split; [|auto].
      intros [[= -> ->]|Hin]; [|assumption].
      rewrite String.eqb_refl in E. discriminate.
Qed.

Definition member (c : string) (l : list string) : bool :=
  existsb (String.eqb c) l.

Lemma member_setAdd (c w : string) (seen : list string) :
  member c (setAdd w seen) = (c =? w) || member c seen.
Proof.
  unfold setAdd, member. destruct (existsb (String.eqb w) seen) eqn:E.
  - destruct (c =? w) eqn:Ec; [|reflexivity].
    apply String.eqb_eq in Ec. subst c. rewrite E. reflexivity.
  - rewrite existsb_app. simpl. rewrite orb_false_r. apply orb_comm.
Qed.

(** The inner loop adds one to the count of every chunk of the page that
    the page has not shown before. *)
Lemma countChunks_count (c : string) (ws seen : list string) (m : Counts) :
  getCount c (snd (fold_left countChunk ws (seen, m)))
  = getCount c m + Nat.b2n (member c ws && negb (member c seen)).
Proof.
  revert seen m. induction ws as [|w ws IH]; intros seen m.
  - simpl. lia.
  - cbn [fold_left]. unfold countChunk at 2.
    fold (member w seen). destruct (member w seen) eqn:Ew.
    + rewrite IH. cbn [member existsb]. fold (member c ws).
      destruct (c =? w) eqn:Ec; [|reflexivity].
      apply String.eqb_eq in Ec. subst c. rewrite Ew.
      rewrite !andb_false_r. reflexivity.
    + rewrite IH, member_setAdd. fold (getCount w m).
      unfold getCount at 1. rewrite mapGet_mapSet.
      cbn [member existsb]. fold (member c ws).
      rewrite (String.eqb_sym w c).
      destruct (c =? w) eqn:Ec.
      * apply String.eqb_eq in Ec. subst c. rewrite Ew. simpl.
        rewrite andb_false_r. simpl. lia.
      * simpl. reflexivity.
Qed.

Lemma countChunks_NoDup (ws seen : list string) (m : Counts) :
  NoDup (map fst m) ->
  NoDup (map fst (snd (fold_left countChunk ws (seen, m)))).
Proof.
  revert seen m. induction ws as [|w ws IH]; intros seen m Hnd.
  - assumption.
  - cbn [fold_left]. unfold countChunk at 2.
    destruct (existsb (String.eqb w) seen); apply IH;
      [assumption | apply mapSet_NoDup, Hnd].
Qed.

Lemma countPage_count (c : string) (m : Counts) (p : SitePage) :
  getCount c (countPage m p) = getCount c m + Nat.b2n (hasWindow c p).
Proof.
  unfold countPage. rewrite countChunks_count. simpl.
  rewrite andb_true_r. reflexivity.
Qed.

Lemma countPages_count (c : string) (pages : list SitePage) (m : Counts) :
  getCount c (fold_left countPage pages m) = getCount c m + pageCount c pages.
Proof.
  revert m. induction pages as [|p pages IH]; intros m; simpl.
  - unfold pageCount. simpl. lia.
  - rewrite IH, countPage_count. unfold pageCount. simpl.
    destruct (hasWindow c p); simpl; lia.
Qed.

Lemma countPages_NoDup (pages : list SitePage) (m : Counts) :
  NoDup (map fst m) -> NoDup (map fst (fold_left countPage pages m)).
Proof.
  revert m. induction pages as [|p pages IH]; intros m Hnd; simpl.
  - assumption.
  - apply IH. unfold countPage. apply countChunks_NoDup, Hnd.
Qed.

Lemma threshold_positive (n : nat) : 3 <= n -> 2 <= threshold n.
Proof.
  intros Hn. unfold threshold. apply Nat.div_le_lower_bound; lia.
Qed.

(** The chunks that [stripCommonText] removes are the windows found in at
    least [threshold] pages, each page counted once. *)
Lemma commonChunks_iff (pages : list SitePage) (c : string) :
  3 <= List.length pages ->
  (In c (commonChunks pages)
   <-> threshold (List.length pages) <= pageCount c pages).
Proof.
  intros Hn. pose proof (threshold_positive _ Hn) as Ht.
  unfold commonChunks.
  set (m := fold_left countPage pages []).
  assert (Hnd : NoDup (map fst m)) by (apply countPages_NoDup; constructor).
  assert (Hc : getCount c m = pageCount c pages)
    by (unfold m; rewrite countPages_count; reflexivity).
  rewrite <- Hc, in_map_iff. split.
  - intros ([k n] & Hk & Hin). simpl in Hk. subst k.
    apply filter_In in Hin as [Hin Hle]. simpl in Hle.
    apply Nat.leb_le in Hle. apply (mapGet_In _ _ _ Hnd) in Hin.
    unfold getCount. rewrite Hin. exact Hle.
  - intros Hle. unfold getCount in Hle.
    destruct (mapGet c m) as [n|] eqn:E; [|lia].
    exists (c, n). split; [reflexivity|].
    apply filter_In. split; [apply (mapGet_In _ _ _ Hnd), E|].
    simpl. apply Nat.leb_le, Hle.
Qed.

(** *** What [replaceAll] deletes *)

Lemma append_length (a b : string) :
  String.length (a +:+ b) = String.length a + String.length b.
Proof.
  induction a as [|c a IH]; simpl; [reflexivity | rewrite IH; reflexivity].
Qed.

Lemma startsWith_length (s p : string) :
  startsWith s p = true -> String.length p <= String.length s.
Proof.
  intros Hs. apply startsWith_iff in Hs as [rest ->].
  rewrite append_length. lia.
Qed.

Lemma includes_length (s p : string) :
  includes s p = true -> String.length p <= String.length s.
Proof.
  induction s as [|c s IH]; cbn [includes]; intros Hi.
  - rewrite orb_false_r in Hi. apply startsWith_length, Hi.
  - apply orb_true_iff in Hi as [Hi|Hi].
    + apply startsWith_length, Hi.
    + specialize (IH Hi). simpl. lia.
Qed.

(** Whether a text starts with [p] is decided by its first code units. *)
Lemma startsWith_long (a b p : string) :
  String.length p <= String.length a ->
  startsWith (a +:+ b) p = startsWith a p.
Proof.
  unfold startsWith. revert a.
  induction p as [|c p IH]; intros a Hl.
  - rewrite !StorageFacts.prefix_empty. reflexivity.
  - destruct a as [|d a]; [simpl in Hl; lia|].
    cbn [append prefix]. destruct (ascii_dec c d); [|reflexivity].
    apply IH. simpl in Hl. lia.
Qed.

(** A pattern without its last code unit, and that code unit. *)
Lemma pattern_snoc (p : string) :
  p <> "" -> exists l, p = dropLast p +:+ String l "".
Proof.
  intros Hp. destruct (lastChar p) as [l|] eqn:E.
  - exists l. apply snoc_lastChar, E.
  - apply lastChar_none in E. contradiction.
Qed.

Lemma length_pattern (p : string) :
  p <> "" -> String.length p = String.length (dropLast p) + 1.
Proof.
  intros Hp. destruct (pattern_snoc p Hp) as [l E].
  rewrite E at 1. rewrite append_length. reflexivity.
Qed.

(** Whether [p] occurs at the start of a text that holds [p] further on
    is decided before the last code unit of that occurrence. *)
Lemma startsWith_window (c : ascii) (x p rest : string) :
  p <> "" ->
  startsWith (String c (x +:+ p +:+ rest)) p
  = startsWith (String c (x +:+ dropLast p)) p.
Proof.
  intros Hp. destruct (pattern_snoc p Hp) as [l El].
  transitivity
    (startsWith (String c (x +:+ dropLast p) +:+ (String l "" +:+ rest)) p).
  - replace (x +:+ p +:+ rest)
      with ((x +:+ dropLast p) +:+ (String l "" +:+ rest)); [reflexivity|].
    rewrite append_assoc. f_equal. rewrite <- append_assoc. f_equal.
    symmetry. exact El.
  - apply startsWith_long. rewrite (length_pattern p Hp).
    cbn [String.length]. rewrite append_length. lia.
Qed.

(** [cut p s xs]: [xs] are the pieces of [s] around the occurrences of [p]
    that a search from left to right finds, each search going on after the
    occurrence found before.  The first piece [x] ends where [p] occurs
    first: [p] does not occur in [x] followed by [p] without its last code
    unit. *)
Inductive cut (p : string) : string -> list string -> Prop :=
| cut_last (s : string) :
    includes s p = false -> cut p s [s]
| cut_next (x rest : string) (xs : list string) :
    includes (x +:+ dropLast p) p = false ->
    cut p rest xs ->
    cut p (x +:+ p +:+ rest) (x :: xs).

Lemma replaceAllFrom_absent (s p r : string) :
  includes s p = false -> replaceAllFrom 0 s p r = s.
Proof.
  induction s as [|c s IH]; [reflexivity|].
  cbn [includes]. intros Hi. apply orb_false_iff in Hi as [Hs Hi].
  cbn [replaceAllFrom]. rewrite Hs, (IH Hi). reflexivity.
Qed.

Lemma replaceAllFrom_upto (x p rest r : string) :
  p <> "" ->
  includes (x +:+ dropLast p) p = false ->
  replaceAllFrom 0 (x +:+ p +:+ rest) p r
  = x +:+ replaceAllFrom 0 (p +:+ rest) p r.
Proof.
  intros Hp. induction x as [|c x IH]; intros Hi; [reflexivity|].
  cbn [append includes] in Hi. apply orb_false_iff in Hi as [Hs Hi].
  cbn [append replaceAllFrom].
  rewrite (startsWith_window c x p rest Hp), Hs, (IH Hi). reflexivity.
Qed.

Lemma replaceAllFrom_here (p rest : string) :
  p <> "" ->
  replaceAllFrom 0 (p +:+ rest) p "" = replaceAllFrom 0 rest p "".
Proof.
  intros Hp. destruct p as [|c p]; [contradiction|].
  cbn [append replaceAllFrom]. 
  change (String c (p +:+ rest)) with (String c p +:+ rest).
  rewrite startsWith_app. cbn [append String.length].
  replace (S (String.length p) - 1) with (String.length p) by lia.
  apply replaceAllFrom_skip.
Qed.

(** [replaceAll] with the empty replacement leaves the pieces. *)
Lemma replaceAll_cut (p s : string) (xs : list string) :
  p <> "" -> cut p s xs -> replaceAll s p "" = String.concat "" xs.
Proof.
  intros Hp Hc. unfold replaceAll. destruct p as [|c p]; [contradiction|].
  induction Hc as [s Hi|x rest xs Hi Hc IH].
  - apply replaceAllFrom_absent, Hi.
  - rewrite (replaceAllFrom_upto x _ rest "" Hp Hi),
      (replaceAllFrom_here _ rest Hp), IH.
    cbn [String.concat]. destruct xs as [|y xs]; [inversion Hc|].
    reflexivity.
Qed.

(** The first occurrence of a pattern that occurs. *)
Lemma includes_first (p s : string) :
  p <> "" -> includes s p = true ->
  exists x rest,
    s = x +:+ p +:+ rest /\ includes (x +:+ dropLast p) p = false.
Proof.
  intros Hp. induction s as [|c s IH]; cbn [includes]; intros Hi.
  - rewrite orb_false_r in Hi. apply startsWith_length in Hi.
    destruct p; [contradiction|]. simpl in Hi. lia.
  - destruct (startsWith (String c s) p) eqn:Hs.
    + apply startsWith_iff in Hs as [rest Hs]. exists "", rest.
      split; [exact Hs|]. cbn [append].
      destruct (includes (dropLast p) p) eqn:E; [|reflexivity].
      apply includes_length in E. rewrite (length_pattern p Hp) in E. lia.
    + cbn [orb] in Hi. destruct (IH Hi) as (x & rest & -> & Hx).
      exists (String c x), rest. split; [reflexivity|].
      cbn [append includes]. rewrite Hx, orb_false_r.
      rewrite <- (startsWith_window c x p rest Hp). exact Hs.
Qed.

(** Every text has its pieces. *)
Lemma cut_exists (p : string) :
  p <> "" -> forall s, exists xs, cut p s xs.
Proof.
  intros Hp s.
  assert (H : forall n s, String.length s <= n -> exists xs, cut p s xs).
  { clear s. induction n as [|n IH]; intros s Hn.
    - destruct (includes s p) eqn:Hi; [|exists [s]; constructor; exact Hi].
      apply includes_length in Hi. destruct p; [contradiction|].
      simpl in Hi. lia.
    - destruct (includes s p) eqn:Hi; [|exists [s]; constructor; exact Hi].
      destruct (includes_first p s Hp Hi) as (x & rest & -> & Hx).
      destruct (IH rest) as [xs Hxs].
      { rewrite !append_length in Hn. rewrite (length_pattern p Hp) in Hn.
        lia. }
      exists (x :: xs). constructor; assumption. }
  apply (H (String.length s)). apply le_n.
Qed.

(** The pieces are determined by the text. *)
Lemma cut_first_unique (p x rest x' rest' : string) :
  p <> "" ->
  x +:+ p +:+ rest = x' +:+ p +:+ rest' ->
  includes (x +:+ dropLast p) p = false ->
  includes (x' +:+ dropLast p) p = false ->
  x = x'.
Proof.
  intros Hp. revert x'.
  induction x as [|c x IH]; intros [|c' x'] E Hx Hx'.
  - reflexivity.
  - exfalso. cbn [append] in E, Hx'. cbn [includes] in Hx'.
    apply orb_false_iff in Hx' as [Hs _].
    rewrite <- (startsWith_window c' x' p rest' Hp) in Hs.
    rewrite <- E, startsWith_app in Hs. discriminate.
  - exfalso. cbn [append] in E, Hx. cbn [includes] in Hx.
    apply orb_false_iff in Hx as [Hs _].
    rewrite <- (startsWith_window c x p rest Hp) in Hs.
    rewrite E, startsWith_app in Hs. discriminate.
  - cbn [append] in E. injection E as -> E.
    cbn [append includes] in Hx, Hx'.
    apply orb_false_iff in Hx as [_ Hx].
    apply orb_false_iff in Hx' as [_ Hx'].
    rewrite (IH x' E Hx Hx'). reflexivity.
Qed.

Lemma includes_app_pattern (x p rest : string) :
  includes (x +:+ p +:+ rest) p = true.
Proof.
  induction x as [|c x IH]; cbn [append includes].
  - destruct (p +:+ rest) eqn:E.
    + destruct p; [reflexivity|discriminate].
    + cbn [includes]. rewrite <- E, startsWith_app. reflexivity.
  - rewrite IH. apply orb_true_r.
Qed.

Lemma append_inj_r (x a b : string) : x +:+ a = x +:+ b -> a = b.
Proof.
  induction x as [|c x IH]; cbn [append]; intros E; [exact E|].
  injection E as E. apply IH, E.
Qed.

Lemma cut_unique (p s : string) (xs ys : list string) :
  p <> "" -> cut p s xs -> cut p s ys -> xs = ys.
Proof.
  intros Hp Hx. revert ys.
  induction Hx as [s Hi|x rest xs Hi Hx IH]; intros ys Hy.
  - inversion Hy as [? _|x' rest' ys' _ _ E]; subst; [reflexivity|].
    rewrite includes_app_pattern in Hi. discriminate.
  - inversion Hy as [? Hn|x' rest' ys' Hi' Hy' E]; subst.
    + rewrite includes_app_pattern in Hn. discriminate.
    + pose proof (cut_first_unique p x' rest' x rest Hp E Hi' Hi) as ->.
      apply append_inj_r, append_inj_r in E. subst rest'.
      rewrite (IH ys' Hy'). reflexivity.
Qed.

(** [deleted ps s s']: [s'] is what is left of [s] when the occurrences of
    each pattern of [ps] are cut out in turn, each from what the patterns
    before it left. *)
Inductive deleted : list string -> string -> string -> Prop :=
| deleted_nil (s : string) : deleted [] s s
| deleted_cons (p : string) (ps : list string) (s : string)
    (xs : list string) (s' : string) :
    cut p s xs -> deleted ps (String.concat "" xs) s' ->
    deleted (p :: ps) s s'.

Lemma fold_deleted (ps : list string) (s : string) :
  Forall (fun p => p <> "") ps ->
  deleted ps s
    (fold_left (fun content chunk => replaceAll content chunk "") ps s).
Proof.
  intros Hps. revert s. induction ps as [|p ps IH]; intros s.
  - constructor.
  - inversion Hps as [|? ? Hp Hps']; subst. cbn [fold_left].
    destruct (cut_exists p Hp s) as [xs Hxs].
    rewrite (replaceAll_cut p s xs Hp Hxs).
    apply (deleted_cons p ps s xs); [exact Hxs|]. apply IH, Hps'.
Qed.

(** A window is not empty: it holds seven spaces. *)
Lemma windowsOf_nonempty (words : list string) (c : string) :
  In c (windowsOf words) -> c <> "".
Proof.
  unfold windowsOf, WINDOW.
  destruct (List.length words <? 8)%nat eqn:E; [intros []|].
  apply Nat.ltb_ge in E. intros Hin.
  apply in_map_iff in Hin as (i & <- & Hi). apply in_seq in Hi.
  assert (Hl : List.length (firstn 8 (skipn i words)) = 8).
  { rewrite length_firstn, length_skipn. lia. }
  destruct (firstn 8 (skipn i words)) as [|a [|b l]];
    try (simpl in Hl; lia).
  unfold join. cbn [String.concat]. intros Habs.
  apply (f_equal String.length) in Habs.
  rewrite append_length in Habs. simpl in Habs. lia.
Qed.

Lemma commonChunks_nonempty (pages : list SitePage) :
  3 <= List.length pages ->
  Forall (fun c => c <> "") (commonChunks pages).
Proof.
  intros Hn. apply Forall_forall. intros c Hc.
  apply (commonChunks_iff pages c Hn) in Hc.
  pose proof (threshold_positive _ Hn) as Ht.
  unfold pageCount in Hc.
  destruct (filter (hasWindow c) pages) as [|p l] eqn:E;
    [simpl in Hc; lia|].
  assert (Hp : In p (filter (hasWindow c) pages)) by (rewrite E; left; auto).
  apply filter_In in Hp as [_ Hw]. unfold hasWindow in Hw.
  apply existsb_exists in Hw as (c' & Hin & Heq).
  apply String.eqb_eq in Heq. subst c'.
  apply (windowsOf_nonempty _ _ Hin).
Qed.

(** *** Trimming and searching *)

(** [p] ends with a code unit that is not white space. *)
Fixpoint endsInk (p : string) : bool :=
  match p with
  | EmptyString => false
  | String c EmptyString => negb (isSpace c)
  | String _ p' => endsInk p'
  end.

Lemma includes_trimStart (s p : string) :
  headIsSpace p = false -> p <> "" ->
  includes (trimStart s) p = includes s p.
Proof.
  intros Hp Hne. destruct p as [|d p]; [contradiction|]. cbn in Hp.
  induction s as [|c s IH]; [reflexivity|].
  cbn [trimStart]. destruct (isSpace c) eqn:Hc; [|reflexivity].
  rewrite IH. cbn [includes]. unfold startsWith. cbn [prefix].
  destruct (ascii_dec d c) as [->|_]; [congruence|reflexivity].
Qed.

Lemma trimEnd_cons (c : ascii) (s : string) :
  trimEnd (String c s) = ""
  \/ trimEnd (String c s) = String c (trimEnd s).
Proof.
  cbn [trimEnd]. destruct (trimEnd s); [|right; reflexivity].
  destruct (isSpace c); [left|right]; reflexivity.
Qed.

Lemma trimEnd_empty (c : ascii) (s : string) :
  trimEnd (String c s) = "" -> isSpace c = true /\ trimEnd s = "".
Proof.
  cbn [trimEnd]. destruct (trimEnd s); [|discriminate].
  destruct (isSpace c); [auto|discriminate].
Qed.

Lemma startsWith_trimEnd (s p : string) :
  endsInk p = true -> startsWith (trimEnd s) p = startsWith s p.
Proof.
  revert p. induction s as [|c s IH]; intros p Hp; [reflexivity|].
  destruct p as [|d p]; [discriminate|].
  destruct (trimEnd_cons c s) as [E|E]; rewrite E.
  - apply trimEnd_empty in E as [Hc Hs].
    unfold startsWith. cbn [prefix].
    destruct (ascii_dec d c) as [->|_]; [|reflexivity].
    destruct p as [|e p].
    + cbn in Hp. rewrite Hc in Hp. discriminate.
    + specialize (IH (String e p) Hp). rewrite Hs in IH.
      unfold startsWith in IH. cbn [prefix] in IH. exact IH.
  - unfold startsWith. cbn [prefix].
    destruct (ascii_dec d c) as [_|_]; [|reflexivity].
    destruct p as [|e p]; [destruct (trimEnd s), s; reflexivity|].
    apply (IH (String e p) Hp).
Qed.

Lemma includes_trimEnd (s p : string) :
  endsInk p = true -> includes (trimEnd s) p = includes s p.
Proof.
  intros Hp. destruct p as [|d p]; [discriminate|].
  induction s as [|c s IH]; [reflexivity|].
  pose proof (startsWith_trimEnd (String c s) _ Hp) as Hst.
  destruct (trimEnd_cons c s) as [E|E]; rewrite E in *.
  - cbn [includes]. rewrite <- Hst, <- IH.
    apply trimEnd_empty in E as [_ ->]. cbn [includes]. reflexivity.
  - cbn [includes]. rewrite Hst, IH. reflexivity.
Qed.

(** Trimming neither hides nor makes an occurrence of a text that has
    ink at both ends. *)
Lemma includes_trim (s p : string) :
  headIsSpace p = false -> endsInk p = true ->
  includes (trim s) p = includes s p.
Proof.
  intros Hh Ht. unfold trim.
  rewrite (includes_trimEnd _ p Ht). apply includes_trimStart; [exact Hh|].
  intros ->. discriminate.
Qed.

(** *** The footer phrase *)

Definition phrase : string :=
  "Copyright 2024 All Rights Reserved Privacy Policy Terms".

(** C6, amended: given at least three pages, the chunks that
    [stripCommonText] removes are the 8-word windows found in at least
    four fifths of the pages, rounded down, each page counted once.  When
    there is one, every page keeps its URL and title, and its text is what
    is left when the occurrences of each such chunk are cut out in turn
    (the occurrences that a search from left to right finds in what the
    chunks before it left), with white space collapsed and trimmed.
    Cutting and collapsing can join the text around an occurrence into the
    chunk again.  When the footer phrase is the only such chunk, the text
    of every page is its pieces around the occurrences of the phrase,
    joined, collapsed and trimmed; the phrase is absent from it exactly
    when the pieces, joined and collapsed, do not spell it again, and that
    is so whenever no piece holds a capital C. *)
Theorem stripCommonText_removes (pages : list SitePage) :
  3 <= List.length pages ->
  (forall c, In c (commonChunks pages)
             <-> threshold (List.length pages) <= pageCount c pages)
  /\ (commonChunks pages <> [] ->
      Forall2
        (fun p p' =>
           url p' = url p /\ title p' = title p
           /\ exists s',
                deleted (commonChunks pages) (content p) s'
                /\ content p' = trim (collapseWs s'))
        pages (stripCommonText pages))
  /\ (commonChunks pages = [phrase] ->
      Forall2
        (fun p p' =>
           exists xs,
             cut phrase (content p) xs
             /\ content p' = trim (collapseWs (String.concat "" xs))
             /\ includes (content p') phrase
                = includes (collapseWs (String.concat "" xs)) phrase
             /\ (Forall (fun x => lacks "C" x = true) xs ->
                 includes (content p') phrase = false))
        pages (stripCommonText pages)).
Proof.
  intros Hn.
  assert (Hlt : (List.length pages <? 3)%nat = false) by (apply Nat.ltb_ge, Hn).
  assert (Hmap : forall (P : SitePage -> SitePage -> Prop) common,
            (forall p, P p (stripPage common p)) ->
            Forall2 P pages (map (stripPage common) pages)).
  { intros P common HP. clear Hn Hlt.
    induction pages as [|p l IH]; constructor; auto. }
  split; [|split].
  - intros c. apply commonChunks_iff, Hn.
  - intros Hne. unfold stripCommonText. rewrite Hlt.
    pose proof (commonChunks_nonempty pages Hn) as Hch.
    destruct (commonChunks pages) as [|c0 cs] eqn:Ec; [contradiction|].
    cbn [List.length Nat.eqb]. rewrite <- Ec in *.
    clear Ec. apply Hmap. intros p. unfold stripPage. cbn [url title content].
    split; [reflexivity|]. split; [reflexivity|].
    eexists. split; [apply fold_deleted, Hch|reflexivity].
  - intros Hc. unfold stripCommonText. rewrite Hlt, Hc.
    cbn [List.length Nat.eqb]. apply Hmap. intros p.
    assert (Hp : phrase <> "") by discriminate.
    destruct (cut_exists phrase Hp (content p)) as [xs Hxs].
    exists xs. unfold stripPage. cbn [content fold_left].
    rewrite (replaceAll_cut phrase _ xs Hp Hxs).
    split; [exact Hxs|]. split; [reflexivity|].
    split; [apply includes_trim; reflexivity|].
    intros Hno. unfold phrase. apply includes_lacks.
    unfold lacks in *. apply all_trim, all_collapseWs; [reflexivity|].
    clear Hxs. induction xs as [|x xs IH]; [reflexivity|].
    inversion Hno as [|? ? Hx Hxs']; subst.
    cbn [String.concat]. destruct xs as [|y xs]; [exact Hx|].
    cbn [append]. rewrite all_app, Hx. apply IH, Hxs'.
Qed.

Definition pageOf (address text : string) : SitePage :=
  {| url := address; title := "Docs"; content := text;
     words := countWords text |}.

(** Three pages with the footer phrase after a body of their own; the
    first one holds the phrase twice. *)
Definition footerPages : list SitePage :=
  [ pageOf "https://a.com/install"
      ("installing the tool takes one command and no configuration at all "
       +:+ phrase +:+ " and on wide screens, in the side bar, " +:+ phrase);
    pageOf "https://a.com/faq"
      ("Frequently asked questions about billing and refunds for teams "
       +:+ phrase);
    pageOf "https://a.com/releases"
      ("Release notes for every version since the first public beta "
       +:+ phrase) ].

(** The same site when its first page quotes the footer around the
    footer itself. *)
Definition quotingPages : list SitePage :=
  [ pageOf "https://a.com/about"
      ("Quoting the footer of this site: Copyright 2024 All Rights "
       +:+ phrase +:+
       " Reserved Privacy Policy Terms is what every page of the site ends with");
    pageOf "https://a.com/install"
      ("Installing the tool takes one command and no configuration at all "
       +:+ phrase);
    pageOf "https://a.com/faq"
      ("Frequently asked questions about billing and refunds for teams "
       +:+ phrase) ].

(** C6, as stated, fails: each of three pages holds the phrase and a body
    of its own, the phrase is the chunk removed, and the first page holds
    the phrase after the removal: the white space collapse joins the words
    around the deleted occurrence into the phrase. *)
Lemma stripCommonText_phrase_rejoined :
  commonChunks quotingPages = [phrase]
  /\ map (fun p => includes (content p) phrase) quotingPages
     = [true; true; true]
  /\ map (fun p => includes (content p) phrase) (stripCommonText quotingPages)
     = [true; false; false]
  /\ map content (stripCommonText quotingPages)
     = [ "Quoting the footer of this site: Copyright 2024 All Rights Reserved Privacy Policy Terms is what every page of the site ends with";
         "Installing the tool takes one command and no configuration at all";
         "Frequently asked questions about billing and refunds for teams" ].
Proof. vm_compute. repeat split. Qed.

(** The pieces of the first page of [footerPages]. *)
Definition installPieces : list string :=
  [ "installing the tool takes one command and no configuration at all ";
    " and on wide screens, in the side bar, "; "" ].

Lemma stripCommonText_removes_witness :
  3 <= List.length footerPages
  /\ Forall2
       (fun p p' =>
          exists xs,
            cut phrase (content p) xs
            /\ content p' = trim (collapseWs (String.concat "" xs))
            /\ includes (content p') phrase
               = includes (collapseWs (String.concat "" xs)) phrase
            /\ (Forall (fun x => lacks "C" x = true) xs ->
                includes (content p') phrase = false))
       footerPages (stripCommonText footerPages).
Proof.
  split; [apply le_n|].
  apply (proj2 (proj2 (stripCommonText_removes footerPages (le_n 3)))).
  vm_compute. reflexivity.
Defined.

(** Both occurrences are gone from the first page, and the capital letters
    of the other pages stay. *)
Example stripCommonText_run :
  commonChunks footerPages = [phrase]
  /\ cut phrase (content (pageOf "" (String.concat phrase installPieces)))
       installPieces
  /\ map content (stripCommonText footerPages)
     = [ "installing the tool takes one command and no configuration at all and on wide screens, in the side bar,";
         "Frequently asked questions about billing and refunds for teams";
         "Release notes for every version since the first public beta" ].
Proof.
  split; [vm_compute; reflexivity|]. split; [|vm_compute; reflexivity].
  cbn [pageOf content installPieces String.concat].
  apply cut_next; [vm_compute; reflexivity|].
  apply cut_next; [vm_compute; reflexivity|].
  apply cut_last. reflexivity.
Qed.

(** Fewer than three pages are returned as they are. *)
Lemma stripCommonText_few_pages (pages : list SitePage) :
  List.length pages < 3 -> stripCommonText pages = pages.
Proof.
  intros Hn. unfold stripCommonText.
  apply Nat.ltb_lt in Hn. rewrite Hn. reflexivity.
Qed.

Section WithPlatform.
Context `{UrlParser}.

(** What [crawlLinks] adds for a resolved link that passes its tests: the
    link without one trailing slash. *)
Definition discovered (rootUrl resolved : string) : string :=
  if stripSlash resolved =? "" then rootUrl else stripSlash resolved.

(** The link [href] makes [crawlLinks] add [x]. *)
Definition contributes (rootUrl href x : string) : Prop :=
  exists u,
    parseURL href (Some rootUrl) = Some u
    /\ startsWith (toString u) rootUrl = true
    /\ includes (toString u) "#" = false
    /\ x = discovered rootUrl (toString u).

Lemma crawlStep_In (rootUrl href x : string) (urls : list string) :
  In x (crawlStep rootUrl urls href)
  <-> In x urls \/ contributes rootUrl href x.
Proof.
  unfold crawlStep, contributes.
  destruct (parseURL href (Some rootUrl)) as [u|].
  - destruct (startsWith (toString u) rootUrl) eqn:Hs;
      destruct (includes (toString u) "#") eqn:Hi; simpl.
    + split; [auto|]. intros [Hin|(u' & [= <-] & _ & Hf & _)];
        [assumption|congruence].
    + rewrite setAdd_In. unfold discovered. split.
      * intros [->|Hin]; [right; exists u; auto | auto].
      * intros [Hin|(u' & [= <-] & _ & _ & ->)]; auto.
    + split; [auto|]. intros [Hin|(u' & [= <-] & Hf & _)];
        [assumption|congruence].
    + split; [auto|]. intros [Hin|(u' & [= <-] & Hf & _)];
        [assumption|congruence].
  - split; [auto|]. intros [Hin|(u' & Hf & _)]; [assumption|discriminate].
Qed.

Lemma crawlFold_In (rootUrl x : string) (links urls : list string) :
  In x (fold_left (crawlStep rootUrl) links urls)
  <-> In x urls \/ exists href, In href links /\ contributes rootUrl href x.
Proof.
  revert urls. induction links as [|href links IH]; intros urls; simpl.
  - split; [auto|]. intros [Hin|(href & [] & _)]. assumption.
  - rewrite IH, crawlStep_In. split.
    + intros [[Hin|Hc]|(h & Hh & Hc)]; eauto.
    + intros [Hin|(h & [<-|Hh] & Hc)]; eauto.
Qed.




(** *** Links that the prefix test refuses *)










End WithPlatform.

Import SimpleUrl.


(** The origin test of [crawlLinks] is [resolved.startsWith(rootUrl)], a
    test on the text: for the root [https://a.com], a link to the host
    [a.com.evil.org] passes it and is put in the discovery set, though the
    root URL of that link is another one. *)
Example crawlLinks_prefix_admits_other_host :
  getRootUrl "https://a.com.evil.org/x" = Some "https://a.com.evil.org"
  /\ getRootUrl "https://a.com/docs" = Some "https://a.com"
  /\ crawlLinksIn "https://a.com"
       "<a href='/docs'>a</a> <a href='https://a.com.evil.org/x'>b</a>"
     = ["https://a.com"; "https://a.com/docs"; "https://a.com.evil.org/x"].
Proof. vm_compute. repeat split. Qed.

(** A page with four links: to a page, to the same page with a trailing
    slash, to a section of it, and to another site. *)
Example crawlLinks_run :
  crawlLinksIn "https://a.com"
    "<a href='/docs'>a</a> <a href='https://a.com/docs/'>b</a>
     <a href='/docs#install'>c</a> <a href='https://b.org/x'>d</a>"
  = ["https://a.com"; "https://a.com/docs"].
Proof. vm_compute. reflexivity. Qed.

End SiteFacts.

(** ** run.ts *)

Module RunFacts.
Import JS Url Storage Cdp Youtube Site Run.

Lemma chunkWords_snoc (l : list SitePage) (p : SitePage) :
  chunkWords (l ++ [p]) = (chunkWords l + words p)%Z.
Proof.
  unfold chunkWords at 1. rewrite fold_left_app. simpl.
  fold (chunkWords l). reflexivity.
Qed.

(** What a finished chunk must satisfy. *)
Definition goodChunk (maxWords : Z) (c : list SitePage) : Prop :=
  c <> [] /\ ((chunkWords c > maxWords)%Z -> List.length c = 1%nat).

(** Loop invariant of [chunkPages] after the pages [done] were read. *)
Record chunkInv (maxWords : Z) (done : list SitePage) (st : ChunkState)
  : Prop := {
  inv_concat : concat (chunks st) ++ current st = done;
  inv_words : currentWords st = chunkWords (current st);
  inv_closed : Forall (goodChunk maxWords) (chunks st);
  inv_open : current st = [] \/ goodChunk maxWords (current st)
}.

Lemma chunkInv_init maxWords :
  chunkInv maxWords []
    {| chunks := []; current := []; currentWords := 0 |}.
Proof. split; simpl; auto. Qed.

Lemma chunkInv_step maxWords done st page :
  chunkInv maxWords done st ->
  chunkInv maxWords (done ++ [page]) (chunkStep maxWords st page).
Proof.
  intros [Hc Hw Hcl Hop]. unfold chunkStep.
  destruct (currentWords st + words page >? maxWords)%Z eqn:Hgt;
    destruct (0 <? List.length (current st))%nat eqn:Hlen; simpl.
  - (* the open chunk is closed, the page opens a new one *)
    apply Nat.ltb_lt in Hlen.
    assert (Hne : current st <> []) by (destruct (current st); simpl in *; [lia|discriminate]).
    split; simpl.
    + rewrite concat_app. simpl. rewrite app_nil_r, <- Hc. reflexivity.
    + unfold chunkWords. simpl. reflexivity.
    + apply Forall_app. split; [assumption|].
      constructor; [|constructor]. destruct Hop; [contradiction|assumption].
    + right. split; [discriminate|reflexivity].
  - (* empty open chunk: the page goes in whatever its size *)
    apply Nat.ltb_ge in Hlen.
    assert (He : current st = []) by (destruct (current st); simpl in *; [reflexivity|lia]).
    split; simpl.
    + rewrite He in *. rewrite app_nil_r in Hc. rewrite <- Hc. reflexivity.
    + rewrite chunkWords_snoc, Hw. reflexivity.
    + assumption.
    + right. rewrite He. split; [discriminate|reflexivity].
  - (* the page fits *)
    rewrite Z.gtb_ltb in Hgt. apply Z.ltb_ge in Hgt.
    split; simpl.
    + rewrite app_assoc, Hc. reflexivity.
    + rewrite chunkWords_snoc, Hw. reflexivity.
    + assumption.
    + right. split.
      * destruct (current st); discriminate.
      * rewrite chunkWords_snoc, <- Hw. lia.
  - rewrite Z.gtb_ltb in Hgt. apply Z.ltb_ge in Hgt.
    split; simpl.
    + rewrite app_assoc, Hc. reflexivity.
    + rewrite chunkWords_snoc, Hw. reflexivity.
    + assumption.
    + right. split.
      * destruct (current st); discriminate.
      * rewrite chunkWords_snoc, <- Hw. lia.
Qed.

Lemma chunkInv_fold maxWords pages done st :
  chunkInv maxWords done st ->
  chunkInv maxWords (done ++ pages) (fold_left (chunkStep maxWords) pages st).
Proof.
  revert done st. induction pages as [|p pages IH]; intros done st H; simpl.
  - rewrite app_nil_r. assumption.
  - replace (done ++ p :: pages) with ((done ++ [p]) ++ pages)
      by (rewrite <- app_assoc; reflexivity).
    apply IH, chunkInv_step, H.
Qed.

(** C1. [chunkPages] partitions the page list in order: the chunks
    concatenated give back the pages, no chunk is empty, and a chunk
    whose word total exceeds the budget holds exactly one page.  Holds
    for every budget, in particular every positive one. *)
Theorem chunkPages_partition (pages : list SitePage) (maxWords : Z) :
  concat (chunkPages pages maxWords) = pages
  /\ Forall (fun c => c <> []) (chunkPages pages maxWords)
  /\ Forall (fun c => (chunkWords c > maxWords)%Z -> List.length c = 1%nat)
       (chunkPages pages maxWords).
Proof.
  unfold chunkPages.
  pose proof (chunkInv_fold maxWords pages [] _ (chunkInv_init maxWords))
    as [Hc Hw Hcl Hop].
  simpl in Hc.
  set (st := fold_left _ _ _) in *.
  assert (Hg : Forall (goodChunk maxWords)
                 (if (0 <? List.length (current st))%nat
                  then chunks st ++ [current st] else chunks st)).
  { destruct (0 <? List.length (current st))%nat eqn:Hlen; [|assumption].
    apply Forall_app. split; [assumption|]. constructor; [|constructor].
    destruct Hop as [He|Hg]; [|assumption].
    rewrite He in Hlen. discriminate. }
  split; [|split].
  - destruct (0 <? List.length (current st))%nat eqn:Hlen.
    + rewrite concat_app. simpl. rewrite app_nil_r. assumption.
    + apply Nat.ltb_ge in Hlen.
      destruct (current st); simpl in *; [|lia].
      rewrite app_nil_r in Hc. assumption.
  - eapply Forall_impl; [|exact Hg]. intros c [H _]. exact H.
  - eapply Forall_impl; [|exact Hg]. intros c [_ H]. exact H.
Qed.

(** *** The cache *)

Section WithPlatform.
Context `{UrlParser}.
Context (HOME : string).

(** What a cache hit returns for the slug and the text of its summary
    file. *)
Definition cachedResult (slug text : string) : SummarizeResult :=
  {| slug := slug;
     title := match truthy (titleMatch text) with
              | Some t => t
              | None => slug
              end;
     summary := trim (stripFrontmatter text);
     htmlPath := HTML_DIR HOME +:+ "/" +:+ slug +:+ ".html";
     cached := true |}.

Lemma truthy_some (s : string) : s <> "" -> truthy (Some s) = Some s.
Proof. destruct s; [contradiction|reflexivity]. Qed.

Lemma getCachedResult_hit (target : string) (type : option Kind)
  (w : World) (slug text : string) :
  findByUrl (fs w) target None = Some slug -> slug <> "" ->
  readSummaryFile (fs w) slug = Some text -> text <> "" ->
  getCachedResult HOME target type w
  = (Returned (Some (cachedResult slug text)), w).
Proof.
  intros Hf Hs Hr Ht. unfold getCachedResult, bind, readFs.
  change (findByUrl (fs w) target type) with (findByUrl (fs w) target None).
  rewrite Hf, (truthy_some _ Hs), Hr, (truthy_some _ Ht). reflexivity.
Qed.

Lemma resolveSourceUrl_truthy (fs : FileSystem) (target source : string) :
  resolveSourceUrl HOME fs target = Some source -> source <> "".
Proof.
  unfold resolveSourceUrl.
  destruct (negb _); [discriminate|].
  destruct (_ || _)%bool; [discriminate|].
  destruct (lookupFile _ _) as [f|]; [|discriminate].
  destruct (data f) as [text|]; [|discriminate].
  destruct (urlMatch text) as [cap|]; [|discriminate].
  destruct (trim cap =? "") eqn:E; [discriminate|].
  intros [= <-]. apply String.eqb_neq, E.
Qed.

(** The URL that [runSummarize] looks up for a given one: the source
    recorded for it when it points at a page of the archive. *)
Definition lookedUp (fs : FileSystem) (target : string) : string :=
  match resolveSourceUrl HOME fs target with
  | Some source => source
  | None => target
  end.

(** The cache path of [runSummarize]: the result is read from the summary
    file, the world is left as it was but for the directories. *)
Lemma runSummarize_cached (c : Collaborators) (opts : Options)
  (w : World) (target slug text : string) :
  redo opts = false ->
  truthy (url opts) = Some target ->
  findByUrl (ensureDirs (fs w)) (lookedUp (ensureDirs (fs w)) target) None
    = Some slug ->
  slug <> "" ->
  readSummaryFile (ensureDirs (fs w)) slug = Some text ->
  text <> "" ->
  runSummarize HOME c opts w
  = (Returned (cachedResult slug text),
     {| fs := ensureDirs (fs w); events := events w |}).
Proof.
  intros Hredo Hurl Hfind Hslug Hread Htext.
  unfold runSummarize. unfold bind at 1. unfold updateFs at 1.
  unfold bind at 1. rewrite Hurl.
  unfold bind at 1, readFs at 1. cbn [fs events ret].
  unfold lookedUp in Hfind.
  assert (Htarget : target <> "").
  { destruct (url opts) as [[|]|]; simpl in Hurl; try discriminate.
    injection Hurl as <-. discriminate. }
  assert (Hsrc : truthy (Some (lookedUp (ensureDirs (fs w)) target))
                 = Some (lookedUp (ensureDirs (fs w)) target)).
  { apply truthy_some. unfold lookedUp.
    destruct (resolveSourceUrl HOME _ target) eqn:E;
      [eapply resolveSourceUrl_truthy; eassumption | assumption]. }
  unfold lookedUp in Hsrc.
  destruct (resolveSourceUrl HOME (ensureDirs (fs w)) target) as [source|];
    unfold bind at 1; rewrite Hsrc; cbn [ret]; rewrite Hredo;
    unfold bind at 1;
    rewrite (getCachedResult_hit _ None
               {| fs := ensureDirs (fs w); events := events w |} slug text
               Hfind Hslug Hread Htext);
    reflexivity.
Qed.

(** [ensureDirs] changes nothing that a lookup reads. *)
Lemma lookupFile_ensure (dir : option (list File)) (fileName : string) :
  lookupFile (match dir with None => Some [] | Some l => Some l end) fileName
  = lookupFile dir fileName.
Proof. destruct dir; reflexivity. Qed.

Lemma findByUrl_ensureDirs (fs0 : FileSystem) (target : string)
  (type : option Kind) :
  findByUrl (ensureDirs fs0) target type = findByUrl fs0 target type.
Proof.
  unfold findByUrl, ensureDirs. cbn [articles].
  destruct (articles fs0); reflexivity.
Qed.

Lemma readSummaryFile_ensureDirs (fs0 : FileSystem) (slug : string) :
  readSummaryFile (ensureDirs fs0) slug = readSummaryFile fs0 slug.
Proof.
  unfold readSummaryFile, ensureDirs. cbn [summaries].
  rewrite lookupFile_ensure. reflexivity.
Qed.

Lemma lookedUp_ensureDirs (fs0 : FileSystem) (target : string) :
  lookedUp (ensureDirs fs0) target = lookedUp fs0 target.
Proof.
  unfold lookedUp, resolveSourceUrl, ensureDirs. cbn [articles].
  rewrite lookupFile_ensure. reflexivity.
Qed.

(** C3, amended: without [redo], let the URL looked up be the URL given,
    or the source recorded for it when it is the address of a page of the
    archive.  When the first article that the articles directory lists for
    the canonical key of that URL (the [.md] entries listed before it
    being readable) has a slug and a summary file that are not empty,
    [runSummarize] returns, marked as cached, the text of that summary
    file without its front matter (what lies between the opening three
    dashes and the next three dashes, and the line feeds after them) and
    without the white space at its ends.  For a summary file as
    [saveSummary] wrote it, with no three dashes in title and URL, that
    is the stored summary, trimmed.  No request is made to the browser,
    the network or the summarization service, and the outcome is the same
    for all collaborators. *)
Theorem runSummarize_cache_hit (opts : Options) (w : World)
  (target : string) (before after : list File) (f : File) (text : string) :
  redo opts = false ->
  truthy (url opts) = Some target ->
  articles (fs w) = Some (before ++ f :: after) ->
  endsWith (name f) ".md" = true ->
  StorageFacts.storedKey f = Some (normalizeUrl (lookedUp (fs w) target)) ->
  Forall (fun g => endsWith (name g) ".md" = true ->
                   data g <> None
                   /\ StorageFacts.storedKey g
                      <> Some (normalizeUrl (lookedUp (fs w) target)))
    before ->
  replaceFirst (name f) ".md" "" <> "" ->
  readSummaryFile (fs w) (replaceFirst (name f) ".md" "") = Some text ->
  text <> "" ->
  exists result,
    (forall c', runSummarize HOME c' opts w
                = (Returned result,
                   {| fs := ensureDirs (fs w); events := events w |}))
    /\ Run.slug result = replaceFirst (name f) ".md" ""
    /\ cached result = true
    /\ summary result = trim (stripFrontmatter text)
    /\ (forall stamp meta stored,
          text = frontmatter stamp meta +:+ newline +:+ newline +:+ stored ->
          includes (StorageFacts.frontmatterHeader stamp meta +:+ "--") "---"
          = false ->
          summary result = trim stored).
Proof.
  intros Hredo Hurl Ha Hmd Hkey Hbefore Hslug Hread Htext.
  exists (cachedResult (replaceFirst (name f) ".md" "") text).
  split; [|split; [|split; [|split]]].
  - intros c'. apply runSummarize_cached with (target := target);
      try assumption.
    + rewrite findByUrl_ensureDirs, lookedUp_ensureDirs.
      apply (StorageFacts.findByUrl_listed (fs w) _ None before after f);
        assumption.
    + rewrite readSummaryFile_ensureDirs. exact Hread.
  - reflexivity.
  - reflexivity.
  - reflexivity.
  - intros stamp meta stored -> Hdash.
    apply StorageFacts.stripFrontmatter_saved, Hdash.
Qed.

(** C10. The lookup does not use its second argument, so the cache check
    of [runSummarizeSite], which asks for type [site], is the check without
    a type: without [redo], whenever the lookup of the root URL finds a
    slug with a non-empty summary file, that summary is returned as
    cached, whatever type the article was stored with, and no request
    leaves the process. *)
Theorem findByUrl_ignores_type :
  (forall fs target type,
     findByUrl fs target type = findByUrl fs target None)
  /\ (forall root type w,
        getCachedResult HOME root type w = getCachedResult HOME root None w)
  /\ (forall (c : Collaborators) opts w target root slug text,
        redo opts = false ->
        truthy (url opts) = Some target ->
        getRootUrl (lookedUp (ensureDirs (fs w)) target) = Some root ->
        findByUrl (ensureDirs (fs w)) root None = Some slug ->
        slug <> "" ->
        readSummaryFile (ensureDirs (fs w)) slug = Some text ->
        text <> "" ->
        runSummarizeSite HOME c opts w
        = (Returned (cachedResult slug text),
           {| fs := ensureDirs (fs w); events := events w |})).
Proof.
  split; [reflexivity|]. split; [reflexivity|].
  intros c opts w target root slug text Hredo Hurl Hroot Hfind Hslug Hread Htext.
  unfold runSummarizeSite. unfold bind at 1. unfold updateFs at 1.
  unfold bind at 1. rewrite Hurl. cbn [ret].
  unfold bind at 1, readFs at 1. cbn [fs events].
  unfold lookedUp in Hroot.
  destruct (resolveSourceUrl HOME (ensureDirs (fs w)) target) as [source|];
    rewrite Hroot, Hredo; unfold bind at 1;
    rewrite (getCachedResult_hit _ (Some SiteKind)
               {| fs := ensureDirs (fs w); events := events w |} slug text
               Hfind Hslug Hread Htext);
    reflexivity.
Qed.

End WithPlatform.

(** *** Single pass or map-reduce *)

Lemma allReturned_length {A : Type} (answers : list (Outcome A)) (l : list A) :
  allReturned answers = Returned l -> List.length l = List.length answers.
Proof.
  revert l. induction answers as [|[a|e] answers IH]; intros l; simpl.
  - intros [= <-]. reflexivity.
  - destruct (allReturned answers) as [l'|e]; [|discriminate].
    intros [= <-]. simpl. f_equal. apply IH. reflexivity.
  - discriminate.
Qed.

Lemma labelParts_length (i total : nat) (partials : list string) :
  List.length (labelParts i total partials) = List.length partials.
Proof.
  revert i. induction partials as [|s rest IH]; intros i; simpl;
    [reflexivity | f_equal; apply IH].
Qed.

(** The label that [labelParts] puts before the part at place [i]. *)
Lemma labelParts_nth (i total : nat) (partials : list string) (n : nat)
  (s : string) :
  nth_error partials n = Some s ->
  nth_error (labelParts i total partials) n
  = Some ("--- Part " +:+ decimalNat (i + n + 1) +:+ " of "
          +:+ decimalNat total +:+ " ---" +:+ newline +:+ s).
Proof.
  revert i n. induction partials as [|t rest IH]; intros i [|n] Hn;
    try discriminate.
  - injection Hn as ->. cbn [labelParts nth_error].
    rewrite Nat.add_0_r. reflexivity.
  - cbn [labelParts nth_error]. cbn [nth_error] in Hn.
    rewrite (IH (i + 1) n Hn).
    replace (i + 1 + n + 1) with (i + S n + 1) by lia. reflexivity.
Qed.

(** The answers of a batch that returned, one by one; the error of a batch
    that failed is the error of one of its requests. *)
Lemma allReturned_each {A B : Type} (ask : A -> Outcome B) (l : list A) :
  match allReturned (map ask l) with
  | Returned answers => Forall2 (fun a b => ask a = Returned b) l answers
  | Thrown e => exists a, In a l /\ ask a = Thrown e
  end.
Proof.
  induction l as [|a l IH]; cbn [map allReturned]; [constructor|].
  destruct (ask a) as [b|e] eqn:Ea.
  - destruct (allReturned (map ask l)) as [answers|e].
    + constructor; assumption.
    + destruct IH as (a' & Hin & Ha'). exists a'. split; [right|]; assumption.
  - exists a. split; [left; reflexivity|assumption].
Qed.

(** C4. [summarizeSite] makes one request, for the whole content, exactly
    when the total is at most 60000 words.  Above that it makes one
    request per chunk of [chunkPages], in order, and, once they have all
    returned, one merge request.  The content of the merge request is the
    parts joined by an empty line, one part per chunk: part [i] is the
    line [--- Part i of N ---], [N] the number of chunks, and under it the
    answer to the request for chunk [i].  When a chunk request fails
    there is no merge, and the error is that of a chunk request. *)
Theorem summarizeSite_paths (c : Collaborators) (site : SiteResult)
  (root content : string) (w : World) :
  let ask text type := oracle c text (siteTitle site) root type in
  let asked text type := Summarize text (siteTitle site) root type in
  let chunks := chunkPages (pages site) MAX_SITE_WORDS in
  let requests := map (fun chunk => asked (formatPages chunk) SiteKind) chunks in
  ((totalWords site <= 60000)%Z
   /\ summarizeSite c site root content w
      = (ask content SiteKind,
         {| fs := fs w; events := events w ++ [asked content SiteKind] |}))
  \/
  ((totalWords site > 60000)%Z
   /\ ((exists partials parts,
          Forall2 (fun chunk s => ask (formatPages chunk) SiteKind = Returned s)
            chunks partials
          /\ List.length parts = List.length chunks
          /\ (forall i s,
                nth_error partials i = Some s ->
                nth_error parts i
                = Some ("--- Part " +:+ decimalNat (i + 1) +:+ " of "
                        +:+ decimalNat (List.length chunks) +:+ " ---"
                        +:+ newline +:+ s))
          /\ summarizeSite c site root content w
             = (ask (join (newline +:+ newline) parts) SiteMerge,
                {| fs := fs w;
                   events := events w ++ requests ++
                     [asked (join (newline +:+ newline) parts) SiteMerge] |}))
       \/ (exists e chunk,
             In chunk chunks
             /\ ask (formatPages chunk) SiteKind = Thrown e
             /\ summarizeSite c site root content w
                = (Thrown e,
                   {| fs := fs w; events := events w ++ requests |})))).
Proof.
  intros ask asked chunks requests. unfold summarizeSite.
  fold chunks. unfold MAX_SITE_WORDS.
  destruct (totalWords site <=? 60000)%Z eqn:E.
  - left. apply Z.leb_le in E. split; [assumption|reflexivity].
  - right. apply Z.leb_gt in E. split; [lia|].
    unfold bind, summarizeChunks.
    pose proof (allReturned_each
                  (fun chunk => ask (formatPages chunk) SiteKind) chunks)
      as Heach.
    fold ask.
    destruct (allReturned _) as [partials|e] eqn:Hall.
    + left. exists partials, (labelParts 0 (List.length chunks) partials).
      split; [exact Heach|].
      pose proof (allReturned_length _ _ Hall) as Hlen.
      rewrite length_map in Hlen.
      split; [rewrite labelParts_length; assumption|].
      split; [intros i s Hi; apply (labelParts_nth 0 _ _ i s Hi)|].
      unfold call, mergeContent. cbn [fs events]. rewrite <- app_assoc.
      reflexivity.
    + right. destruct Heach as (chunk & Hin & Hc). exists e, chunk.
      repeat split; assumption.
Qed.

(** *** Concrete runs *)

Import SimpleUrl.

Definition home : string := "/home/u/.elsummariz00r".

(** Collaborators that cannot be reached: every request fails. *)
Definition offline : Collaborators :=
  {| tabs := Thrown "offline";
     tabText := fun _ => Thrown "offline";
     opened := fun _ => Thrown "offline";
     captions := fun _ => Thrown "offline";
     crawled := fun _ => Thrown "offline";
     oracle := fun _ _ _ _ => Thrown "offline";
     render := fun _ _ _ _ _ _ _ => "";
     now := "2024-01-01T10:00:00.000Z";
     nowMs := 1704103200000 |}.

Definition noFiles : FileSystem :=
  {| articles := None; summaries := None; html := None |}.

Definition postMeta : Meta :=
  {| Storage.title := "Post"; Storage.url := "https://a.com/post";
     Storage.type := Web; Storage.words := 2 |}.

(** The summary as the summarization service returned it on the first
    run: it ends with a line feed. *)
Definition firstSummary : string := "TL;DR: hello." +:+ newline.

(** The archive after that first run. *)
Definition afterFirstRun : FileSystem :=
  saveSummary (now offline) (nowMs offline) "2024-01-01_post" firstSummary
    postMeta
    (saveArticle (now offline) (nowMs offline) "2024-01-01_post"
       "hello world" postMeta (ensureDirs noFiles)).

Definition askPost : Options :=
  {| url := Some "https://a.com/post/#top"; optTitle := None; redo := false |}.

(** A browser with the page open, and a service that answers. *)
Definition atDesk : Collaborators :=
  {| tabs := Returned [ {| Cdp.id := "1"; Cdp.title := "Post";
                           Cdp.url := "https://a.com/post/#top" |} ];
     tabText := fun _ => Returned "hello again";
     opened := fun _ => Thrown "not needed";
     captions := fun _ => Thrown "not needed";
     crawled := fun _ => Thrown "not needed";
     oracle := fun _ _ _ _ => Returned "A new summary.";
     render := fun _ _ _ _ _ _ _ => "";
     now := "2024-02-02T10:00:00.000Z";
     nowMs := 1706868000000 |}.

(** What a run returned and what it asked for. *)
Definition reportOf (run : Outcome SummarizeResult * World)
  : option (bool * string * string * list Event) :=
  match run with
  | (Returned r, w') => Some (cached r, Run.slug r, summary r, events w')
  | (Thrown _, _) => None
  end.

(** The requests of a run that extracts the page and summarizes it. *)
Definition freshRequests : list Event :=
  [ ListTabs; ExtractText "1";
    Summarize "hello again" "Post" "https://a.com/post/#top" Web ].

(** The archive of the first run with a directory named [notes.md] listed
    first among the articles. *)
Definition afterFolder : FileSystem :=
  {| articles := option_map (cons StorageFacts.notesFolder)
                   (articles afterFirstRun);
     summaries := summaries afterFirstRun;
     html := html afterFirstRun |}.

(** The archive of the first run with an older article for the same URL
    whose summary file is missing. *)
Definition afterLostSummary : FileSystem :=
  saveSummary (now offline) (nowMs offline) "2024-01-01_post" firstSummary
    postMeta
    (saveArticle (now offline) (nowMs offline) "2024-01-01_post"
       "hello world" postMeta
       (saveArticle "2023-12-01T10:00:00.000Z" 1701424800000
          "2023-12-01_post" "hello" postMeta (ensureDirs noFiles))).

(** The archive of the first run with the summary file emptied. *)
Definition afterEmptied : FileSystem :=
  {| articles := articles afterFirstRun;
     summaries := Some [ {| name := "2024-01-01_post.md"; data := Some "";
                            mtimeMs := 1704103200000 |} ];
     html := html afterFirstRun |}.

(** An article and a summary whose file name is the extension alone. *)
Definition afterNameless : FileSystem :=
  saveSummary (now offline) (nowMs offline) "" firstSummary postMeta
    (saveArticle (now offline) (nowMs offline) "" "hello world" postMeta
       (ensureDirs noFiles)).

(** A title with three dashes in it. *)
Definition dashMeta : Meta :=
  {| Storage.title := "Before --- after"; Storage.url := "https://a.com/post";
     Storage.type := Web; Storage.words := 2 |}.

Definition afterDashes : FileSystem :=
  saveSummary (now offline) (nowMs offline) "2024-01-01_before-after"
    "TL;DR: dashes." dashMeta
    (saveArticle (now offline) (nowMs offline) "2024-01-01_before-after"
       "hello world" dashMeta (ensureDirs noFiles)).

(** The address of the page of the first run, and an article stored for
    that address itself. *)
Definition pageAddress : string :=
  "file:///home/u/.elsummariz00r/html/2024-01-01_post.html".

Definition pageMeta : Meta :=
  {| Storage.title := "Page"; Storage.url := pageAddress;
     Storage.type := Web; Storage.words := 2 |}.

Definition afterPage : FileSystem :=
  saveSummary (now offline) (nowMs offline) "2024-01-02_page"
    "About the page." pageMeta
    (saveArticle (now offline) (nowMs offline) "2024-01-02_page"
       "hello world" pageMeta afterFirstRun).

Definition askPage : Options :=
  {| url := Some pageAddress; optTitle := None; redo := false |}.

(** C3, as stated, fails, each time with an article stored for the key of
    the URL and its summary file in the archive.  The text returned from
    the cache is not the stored summary unchanged: it is trimmed, and for a
    title with three dashes it holds a piece of the front matter.  There is
    no answer from the cache, and the page is extracted and summarized,
    when a directory entry that is not a file is listed before the article,
    when an older article for the URL has lost its summary file, when the
    summary file is empty, and when the slug is empty.  And for the address
    of a page of the archive the summary returned is that of the source of
    the page, not that of the article stored for the address. *)
Lemma runSummarize_cached_summary_trimmed :
  reportOf (runSummarize home offline askPost
              {| fs := afterFirstRun; events := [] |})
  = Some (true, "2024-01-01_post", "TL;DR: hello.", [])
  /\ ("TL;DR: hello." =? firstSummary) = false
  /\ option_map
       (fun r => (fst (fst (fst r)),
                  includes (snd (fst r)) "url: https://a.com/post", snd r))
       (reportOf (runSummarize home offline askPost
                    {| fs := afterDashes; events := [] |}))
     = Some (true, true, [])
  /\ reportOf (runSummarize home atDesk askPost
                 {| fs := afterFolder; events := [] |})
     = Some (false, "2024-02-02_post", "A new summary.", freshRequests)
  /\ reportOf (runSummarize home atDesk askPost
                 {| fs := afterLostSummary; events := [] |})
     = Some (false, "2024-02-02_post", "A new summary.", freshRequests)
  /\ reportOf (runSummarize home atDesk askPost
                 {| fs := afterEmptied; events := [] |})
     = Some (false, "2024-02-02_post", "A new summary.", freshRequests)
  /\ reportOf (runSummarize home atDesk askPost
                 {| fs := afterNameless; events := [] |})
     = Some (false, "2024-02-02_post", "A new summary.", freshRequests)
  /\ findByUrl afterPage pageAddress None = Some "2024-01-02_page"
  /\ reportOf (runSummarize home offline askPage
                 {| fs := afterPage; events := [] |})
     = Some (true, "2024-01-01_post", "TL;DR: hello.", []).
Proof. vm_compute. repeat split. Qed.

(** The archive of the first run with an article for another page listed
    first. *)
Definition afterOther : FileSystem :=
  {| articles := option_map (cons StorageFacts.otherArticle)
                   (articles afterFirstRun);
     summaries := summaries afterFirstRun;
     html := html afterFirstRun |}.

Lemma runSummarize_cache_hit_witness :
  exists result,
    (forall c', runSummarize home c' askPost
                  {| fs := afterOther; events := [] |}
                = (Returned result,
                   {| fs := ensureDirs afterOther; events := [] |}))
    /\ Run.slug result = "2024-01-01_post"
    /\ cached result = true
    /\ summary result
       = trim (stripFrontmatter
                 (frontmatter (now offline) postMeta +:+ newline +:+ newline
                  +:+ firstSummary))
    /\ (forall stamp meta stored,
          frontmatter (now offline) postMeta +:+ newline +:+ newline
          +:+ firstSummary
          = frontmatter stamp meta +:+ newline +:+ newline +:+ stored ->
          includes (StorageFacts.frontmatterHeader stamp meta +:+ "--") "---"
          = false ->
          summary result = trim stored).
Proof.
  apply (runSummarize_cache_hit home askPost
           {| fs := afterOther; events := [] |}
           "https://a.com/post/#top" [StorageFacts.otherArticle] []
           {| name := "2024-01-01_post.md";
              data := Some (frontmatter (now offline) postMeta +:+ newline
                            +:+ newline +:+ "hello world");
              mtimeMs := nowMs offline |}
           (frontmatter (now offline) postMeta +:+ newline +:+ newline
            +:+ firstSummary)).
  - reflexivity.
  - reflexivity.
  - reflexivity.
  - reflexivity.
  - vm_compute. reflexivity.
  - constructor; [|constructor]. intros _. split; [discriminate|].
    intros E. vm_compute in E. discriminate E.
  - discriminate.
  - vm_compute. reflexivity.
  - discriminate.
Defined.

(** An archive that holds the summary of one web page, the front page of
    a site. *)
Definition frontPageMeta : Meta :=
  {| Storage.title := "Front page"; Storage.url := "https://a.com/";
     Storage.type := Web; Storage.words := 2 |}.

Definition webArchive : FileSystem :=
  saveSummary (now offline) (nowMs offline) "2024-01-01_front-page"
    "About the front page." frontPageMeta
    (saveArticle (now offline) (nowMs offline) "2024-01-01_front-page"
       "hello world" frontPageMeta (ensureDirs noFiles)).

Definition frontPageSummaryText : string :=
  frontmatter (now offline) frontPageMeta +:+ newline +:+ newline
  +:+ "About the front page.".

(** The site summary of [https://a.com] is answered with the stored
    summary of the web page. *)
Lemma findByUrl_ignores_type_witness :
  runSummarizeSite home offline
    {| url := Some "https://a.com/docs/intro"; optTitle := None;
       redo := false |}
    {| fs := webArchive; events := [] |}
  = (Returned (cachedResult home "2024-01-01_front-page" frontPageSummaryText),
     {| fs := ensureDirs webArchive; events := [] |}).
Proof.
  apply (proj2 (proj2 (findByUrl_ignores_type home)) offline
           {| url := Some "https://a.com/docs/intro"; optTitle := None;
              redo := false |}
           {| fs := webArchive; events := [] |}
           "https://a.com/docs/intro" "https://a.com"
           "2024-01-01_front-page" frontPageSummaryText).
  - reflexivity.
  - reflexivity.
  - vm_compute. reflexivity.
  - vm_compute. reflexivity.
  - discriminate.
  - vm_compute. reflexivity.
  - discriminate.
Defined.

(** A site of 61000 words in two pages, and a service that answers every
    request with the request's type. *)
Definition bigSite : SiteResult :=
  {| rootUrl := "https://a.com"; siteTitle := "A";
     pages := [ {| Site.url := "https://a.com/a"; Site.title := "a";
                   Site.content := "alpha"; Site.words := 30500 |};
                {| Site.url := "https://a.com/b"; Site.title := "b";
                   Site.content := "beta"; Site.words := 30500 |} ];
     totalWords := 61000 |}.

Definition answering : Collaborators :=
  {| tabs := Thrown "offline";
     tabText := fun _ => Thrown "offline";
     opened := fun _ => Thrown "offline";
     captions := fun _ => Thrown "offline";
     crawled := fun _ => Returned bigSite;
     oracle := fun _ _ _ type => Returned (kindName type);
     render := fun _ _ _ _ _ _ _ => "";
     now := "2024-01-01T10:00:00.000Z";
     nowMs := 1704103200000 |}.

(** Scenario C: 61000 words go through two chunk requests and one merge
    request with two parts. *)
Example summarizeSite_61000_words :
  map (fun e => match e with
                | Summarize _ _ _ type => kindName type
                | _ => "other"
                end)
    (events (snd (summarizeSite answering bigSite "https://a.com"
                    (formatPages (pages bigSite))
                    {| fs := noFiles; events := [] |})))
  = ["site"; "site"; "site-merge"]
  /\ List.length (chunkPages (pages bigSite) MAX_SITE_WORDS) = 2%nat
  /\ mergeContent 2 ["site"; "site"]
     = "--- Part 1 of 2 ---" +:+ newline +:+ "site" +:+ newline +:+ newline
       +:+ "--- Part 2 of 2 ---" +:+ newline +:+ "site".
Proof. vm_compute. repeat split. Qed.

End RunFacts.

(** ** html.ts *)

Module HtmlFacts.
Import JS JSFacts Html.

(** [s] with every code unit replaced by a string. *)
Fixpoint flatMap (f : ascii -> string) (s : string) : string :=
  match s with
  | EmptyString => EmptyString
  | String c s' => f c +:+ flatMap f s'
  end.

Lemma flatMap_app (f : ascii -> string) (a b : string) :
  flatMap f (a +:+ b) = flatMap f a +:+ flatMap f b.
Proof.
  induction a as [|c a IH]; simpl; [reflexivity|].
  rewrite IH, append_assoc. reflexivity.
Qed.

Lemma flatMap_flatMap (f g : ascii -> string) (s : string) :
  flatMap g (flatMap f s) = flatMap (fun c => flatMap g (f c)) s.
Proof.
  induction s as [|c s IH]; simpl; [reflexivity|].
  rewrite flatMap_app, IH. reflexivity.
Qed.

Lemma flatMap_ext (f g : ascii -> string) (s : string) :
  (forall c, f c = g c) -> flatMap f s = flatMap g s.
Proof.
  intros E. induction s as [|c s IH]; simpl; [reflexivity|].
  rewrite E, IH. reflexivity.
Qed.

(** A global replacement of one code unit rewrites the code units one by
    one. *)
Lemma replaceAll_char (c : ascii) (r s : string) :
  replaceAll s (String c "") r
  = flatMap (fun d => if (d =? c)%char then r else String d "") s.
Proof.
  unfold replaceAll. induction s as [|d s IH]; [reflexivity|].
  cbn [replaceAllFrom flatMap String.length Nat.sub].
  rewrite StorageFacts.startsWith_char, Ascii.eqb_sym.
  destruct (d =? c)%char; rewrite IH; reflexivity.
Qed.

(** What [esc] writes for one code unit. *)
Definition escChar (c : ascii) : string :=
  if (c =? "&")%char then "&amp;"
  else if (c =? "<")%char then "&lt;"
  else if (c =? ">")%char then "&gt;"
  else if (c =? dquote)%char then "&quot;"
  else if (c =? "'")%char then "&#39;"
  else String c "".

Lemma esc_flatMap (s : string) : esc s = flatMap escChar s.
Proof.
  unfold esc. rewrite !replaceAll_char, !flatMap_flatMap.
  apply flatMap_ext.
  intros [[] [] [] [] [] [] [] []]; vm_compute; reflexivity.
Qed.

(** The code units that open or close a tag or an attribute value. *)
Definition isMarkup (c : ascii) : bool :=
  (c =? "<")%char || (c =? ">")%char || (c =? dquote)%char || (c =? "'")%char.

Lemma escChar_cases (c : ascii) :
  (c = "&"%char \/ c = "<"%char \/ c = ">"%char \/ c = dquote \/ c = "'"%char)
  \/ (escChar c = String c "" /\ c <> "&"%char).
Proof.
  destruct c as [[] [] [] [] [] [] [] []];
    try (right; split; [reflexivity | discriminate]);
    left; vm_compute; auto.
Qed.

Lemma escChar_safe (c : ascii) :
  all (fun d => negb (isMarkup d)) (escChar c) = true.
Proof. destruct c as [[] [] [] [] [] [] [] []]; vm_compute; reflexivity. Qed.

(** X1. The text that [esc] returns holds no [<], no [>] and no quote of
    either kind, whatever the input is: it can be placed in an element or
    in a quoted attribute value without closing it. *)
Theorem esc_no_markup (s : string) :
  all (fun c => negb (isMarkup c)) (esc s) = true.
Proof.
  rewrite esc_flatMap. induction s as [|c s IH]; [reflexivity|].
  cbn [flatMap]. rewrite all_app, escChar_safe, IH. reflexivity.
Qed.

Lemma flatMap_escChar_injective (s1 s2 : string) :
  flatMap escChar s1 = flatMap escChar s2 -> s1 = s2.
Proof.
  revert s2. induction s1 as [|c1 s1 IH]; intros [|c2 s2]; cbn [flatMap].
  - reflexivity.
  - destruct (escChar_cases c2) as [[->|[->|[->|[->| ->]]]]|[-> _]];
      discriminate.
  - destruct (escChar_cases c1) as [[->|[->|[->|[->| ->]]]]|[-> _]];
      discriminate.
  - destruct (escChar_cases c1) as [[->|[->|[->|[->| ->]]]]|[E1 N1]];
      destruct (escChar_cases c2) as [[->|[->|[->|[->| ->]]]]|[E2 N2]];
      try rewrite E1; try rewrite E2; cbn [escChar append];
      try discriminate;
      try (intros E; injection E as E; f_equal; apply IH, E);
      try (intros E; injection E as E0 E; subst; f_equal; apply IH, E);
      try (intros E; injection E as E0 _; congruence).
Qed.

(** X2. [esc] loses nothing: two texts with one escaped form are one
    text. *)
Theorem esc_injective (s1 s2 : string) : esc s1 = esc s2 <-> s1 = s2.
Proof.
  split; [|intros ->; reflexivity].
  rewrite !esc_flatMap. apply flatMap_escChar_injective.
Qed.

End HtmlFacts.

(** ** storage.ts: slugs, files written and read back *)

Module ArchiveFacts.
Import JS Url Storage Archive JSFacts.

(** *** Slugs *)

(** The code units of the sanitized part of a slug: [[a-z0-9-]]. *)
Definition isSlugOut (c : ascii) : bool :=
  let n := nat_of_ascii c in
  ((97 <=? n) && (n <=? 122) || (48 <=? n) && (n <=? 57))%nat || isHyphen c.

(** No two hyphens in a row. *)
Fixpoint noDoubleHyphen (s : string) : bool :=
  match s with
  | EmptyString => true
  | String c s' =>
      negb (isHyphen c && match s' with
                          | String d _ => isHyphen d
                          | EmptyString => false
                          end)
      && noDoubleHyphen s'
  end.

Definition headIsHyphen (s : string) : bool :=
  match s with
  | String c _ => isHyphen c
  | EmptyString => false
  end.

Lemma all_filterChars (f : ascii -> bool) (s : string) :
  all f (filterChars f s) = true.
Proof.
  induction s as [|c s IH]; [reflexivity|].
  cbn [filterChars]. destruct (f c) eqn:E; [|exact IH].
  cbn [all]. rewrite E. exact IH.
Qed.

Lemma all_collapseRuns (run P Q : ascii -> bool) (s : string) :
  Q "-"%char = true ->
  (forall c, P c = true -> run c = false -> Q c = true) ->
  all P s = true -> all Q (collapseRuns run s) = true.
Proof.
  intros Hh Hc. induction s as [|c s IH]; [reflexivity|].
  cbn [all collapseRuns]. rewrite andb_true_iff. intros [Hp Hs].
  specialize (IH Hs). destruct (run c) eqn:Er.
  - destruct s as [|d s]; [cbn [all]; rewrite Hh; reflexivity|].
    destruct (run d); [exact IH|]. cbn [all]. rewrite Hh. exact IH.
  - cbn [all]. rewrite (Hc c Hp Er). exact IH.
Qed.

Lemma isSlugChar_out (c : ascii) :
  isSlugChar c = true -> isSpace c = false -> isSlugOut c = true.
Proof. destruct c as [[] [] [] [] [] [] [] []]; vm_compute; congruence. Qed.

Lemma headIsHyphen_collapse (s : string) :
  headIsHyphen (collapseRuns isHyphen s) = headIsHyphen s.
Proof.
  induction s as [|c s IH]; [reflexivity|].
  cbn [collapseRuns]. destruct (isHyphen c) eqn:E.
  - destruct s as [|d s]; [cbn [headIsHyphen]; rewrite E; reflexivity|].
    destruct (isHyphen d) eqn:Ed.
    + rewrite IH. cbn [headIsHyphen]. rewrite E, Ed. reflexivity.
    + cbn [headIsHyphen]. rewrite E. reflexivity.
  - cbn [headIsHyphen]. reflexivity.
Qed.

Lemma noDoubleHyphen_cons (c : ascii) (s : string) :
  noDoubleHyphen (String c s)
  = negb (isHyphen c && headIsHyphen s) && noDoubleHyphen s.
Proof. destruct s; reflexivity. Qed.

Lemma noDoubleHyphen_collapse (s : string) :
  noDoubleHyphen (collapseRuns isHyphen s) = true.
Proof.
  induction s as [|c s IH]; [reflexivity|].
  cbn [collapseRuns]. destruct (isHyphen c) eqn:E.
  - destruct s as [|d s]; [reflexivity|].
    destruct (isHyphen d) eqn:Ed; [exact IH|].
    rewrite noDoubleHyphen_cons, headIsHyphen_collapse, IH.
    cbn [headIsHyphen]. rewrite Ed, andb_false_r. reflexivity.
  - rewrite noDoubleHyphen_cons, E, IH. reflexivity.
Qed.

Lemma all_take (f : ascii -> bool) (n : nat) (s : string) :
  all f s = true -> all f (take n s) = true.
Proof.
  revert s. induction n as [|n IH]; intros [|c s]; try reflexivity.
  cbn [all take]. rewrite !andb_true_iff. intros [Hc Hs]. auto.
Qed.

Lemma length_take (n : nat) (s : string) : String.length (take n s) <= n.
Proof.
  revert s. induction n as [|n IH]; intros [|c s]; simpl; try lia.
  specialize (IH s). lia.
Qed.

Lemma headIsHyphen_take (n : nat) (s : string) :
  headIsHyphen (take n s) = true -> headIsHyphen s = true.
Proof. destruct n, s; simpl; congruence. Qed.

Lemma noDoubleHyphen_take (n : nat) (s : string) :
  noDoubleHyphen s = true -> noDoubleHyphen (take n s) = true.
Proof.
  revert s. induction n as [|n IH]; intros [|c s]; try reflexivity.
  cbn [take]. rewrite !noDoubleHyphen_cons, !andb_true_iff.
  intros [Hc Hs]. split; [|apply IH, Hs].
  destruct (isHyphen c); [|reflexivity]. simpl in *.
  destruct (headIsHyphen (take n s)) eqn:E; [|reflexivity].
  apply headIsHyphen_take in E. rewrite E in Hc. discriminate.
Qed.

Lemma all_dropLast (f : ascii -> bool) (s : string) :
  all f s = true -> all f (dropLast s) = true.
Proof.
  induction s as [|c s IH]; [reflexivity|].
  cbn [all dropLast]. rewrite andb_true_iff. intros [Hc Hs].
  destruct s as [|d s]; [reflexivity|].
  cbn [all] in *. rewrite Hc. apply IH, Hs.
Qed.

Lemma length_dropLast (s : string) :
  String.length (dropLast s) <= String.length s.
Proof.
  induction s as [|c s IH]; [reflexivity|].
  cbn [dropLast]. destruct s as [|d s]; simpl in *; lia.
Qed.

Lemma lastChar_dropLast (s : string) :
  noDoubleHyphen s = true -> lastChar s = Some "-"%char ->
  lastChar (dropLast s) <> Some "-"%char.
Proof.
  induction s as [|c s IH]; [discriminate|].
  rewrite noDoubleHyphen_cons, andb_true_iff. intros [Hc Hs] Hl.
  destruct s as [|d s]; [discriminate|].
  destruct s as [|e s].
  - cbn in Hl. injection Hl as ->. cbn [dropLast lastChar].
    intros [= ->]. discriminate.
  - change (dropLast (String c (String d (String e s))))
      with (String c (dropLast (String d (String e s)))).
    assert (Hl' : lastChar (String d (String e s)) = Some "-"%char).
    { cbn [lastChar] in Hl |- *. destruct (lastChar s); exact Hl. }
    specialize (IH Hs Hl').
    cbn [lastChar]. 
    destruct (lastChar (dropLast (String d (String e s)))) as [x|] eqn:E.
    + exact IH.
    + apply lastChar_none in E. discriminate.
Qed.

Lemma noDoubleHyphen_dropLast (s : string) :
  noDoubleHyphen s = true -> noDoubleHyphen (dropLast s) = true.
Proof.
  induction s as [|c s IH]; [reflexivity|].
  rewrite noDoubleHyphen_cons, andb_true_iff. intros [Hc Hs].
  destruct s as [|d s]; [reflexivity|].
  change (dropLast (String c (String d s)))
    with (String c (dropLast (String d s))).
  rewrite noDoubleHyphen_cons, (IH Hs), andb_true_r.
  destruct (isHyphen c); [|reflexivity]. simpl in Hc |- *.
  destruct s as [|e s]; [reflexivity|].
  cbn [dropLast headIsHyphen]. rewrite negb_true_iff in Hc.
  rewrite Hc. reflexivity.
Qed.

Lemma noDoubleHyphen_includes (s : string) :
  noDoubleHyphen s = true -> includes s "--" = false.
Proof.
  induction s as [|c s IH]; [reflexivity|].
  rewrite noDoubleHyphen_cons, andb_true_iff. intros [Hc Hs].
  cbn [includes]. rewrite (IH Hs), orb_false_r.
  unfold startsWith. cbn [prefix].
  destruct (ascii_dec "-" c) as [<-|]; [|reflexivity].
  destruct s as [|d s]; [reflexivity|]. cbn [prefix].
  destruct (ascii_dec "-" d) as [<-|]; [discriminate|reflexivity].
Qed.

(** The sanitized part of the slug of a title. *)
Definition slugBody (title : string) : string :=
  let raw :=
    take 60
      (collapseRuns isHyphen
         (collapseRuns isSpace
            (filterChars isSlugChar (mapChars toLowerChar title)))) in
  if endsWith raw "-" then dropLast raw else raw.

Lemma generateSlug_body (now title : string) :
  generateSlug now title = take 10 now +:+ "_" +:+ slugBody title.
Proof. reflexivity. Qed.

Lemma slugBody_chars (title : string) : all isSlugOut (slugBody title) = true.
Proof.
  unfold slugBody.
  set (raw := take 60 _).
  assert (Hraw : all isSlugOut raw = true).
  { unfold raw. apply all_take.
    apply (all_collapseRuns isHyphen isSlugOut isSlugOut);
      [reflexivity | auto |].
    apply (all_collapseRuns isSpace isSlugChar isSlugOut);
      [reflexivity | apply isSlugChar_out | apply all_filterChars]. }
  destruct (endsWith raw "-"); [apply all_dropLast|]; exact Hraw.
Qed.

(** X3. A slug is the first ten code units of the time stamp, an
    underscore, and a sanitized title of at most 60 code units, all of them
    lower-case letters, digits or hyphens, with no two hyphens in a row and
    no hyphen at the end. *)
Theorem generateSlug_shape (now title : string) :
  exists body,
    generateSlug now title = take 10 now +:+ "_" +:+ body
    /\ all isSlugOut body = true
    /\ String.length body <= 60
    /\ endsWith body "-" = false
    /\ includes body "--" = false.
Proof.
  exists (slugBody title). split; [reflexivity|].
  split; [apply slugBody_chars|].
  unfold slugBody. set (raw := take 60 _).
  assert (Hlen : String.length raw <= 60) by apply length_take.
  assert (Hnd : noDoubleHyphen raw = true)
    by (apply noDoubleHyphen_take, noDoubleHyphen_collapse).
  destruct (endsWith raw "-") eqn:E.
  - split; [pose proof (length_dropLast raw); lia|]. split.
    + destruct (endsWith (dropLast raw) "-") eqn:E'; [|reflexivity].
      apply endsWith_lastChar in E, E'.
      exfalso. exact (lastChar_dropLast raw Hnd E E').
    + apply noDoubleHyphen_includes, noDoubleHyphen_dropLast, Hnd.
  - split; [exact Hlen|]. split; [exact E|].
    apply noDoubleHyphen_includes, Hnd.
Qed.

(** *** Files written and read back *)

Lemma length_app (a b : string) :
  String.length (a +:+ b) = String.length a + String.length b.
Proof. induction a as [|c a IH]; simpl; [reflexivity | rewrite IH; reflexivity]. Qed.

Lemma append_inj_l (a b x : string) : a +:+ x = b +:+ x -> a = b.
Proof.
  revert b. induction a as [|c a IH]; intros [|d b] E; simpl in E.
  - reflexivity.
  - apply (f_equal String.length) in E. simpl in E. rewrite length_app in E. lia.
  - apply (f_equal String.length) in E. simpl in E. rewrite length_app in E. lia.
  - injection E as -> E. f_equal. apply IH, E.
Qed.

(** The entry that [Bun.write] leaves. *)
Definition written (nowMs : Z) (fileName text : string) : File :=
  {| name := fileName; data := Some text; mtimeMs := nowMs |}.

Lemma lookupFile_writeFile (nowMs : Z) (dir : option (list File))
  (fileName text : string) :
  lookupFile (writeFile nowMs dir fileName text) fileName
  = Some (written nowMs fileName text).
Proof.
  unfold writeFile, lookupFile. fold (written nowMs fileName text).
  destruct dir as [l|]; simpl; [|rewrite String.eqb_refl; reflexivity].
  destruct (existsb _ l) eqn:E.
  - induction l as [|f l IH]; [discriminate|]. simpl in *.
    destruct (name f =? fileName) eqn:Ef; simpl.
    + rewrite String.eqb_refl. reflexivity.
    + rewrite Ef. apply IH, E.
  - induction l as [|f l IH]; simpl in *.
    + rewrite String.eqb_refl. reflexivity.
    + apply orb_false_iff in E as [Ef E]. rewrite Ef. apply IH, E.
Qed.

Lemma lookupFile_writeFile_other (nowMs : Z) (dir : option (list File))
  (fileName other text : string) :
  other <> fileName ->
  lookupFile (writeFile nowMs dir fileName text) other = lookupFile dir other.
Proof.
  intros Hne. unfold writeFile, lookupFile.
  fold (written nowMs fileName text).
  assert (Hw : (fileName =? other) = false)
    by (apply String.eqb_neq; congruence).
  destruct dir as [l|]; simpl; [|rewrite Hw; reflexivity].
  destruct (existsb _ l).
  - induction l as [|f l IH]; [reflexivity|]. simpl.
    destruct (name f =? fileName) eqn:Ef; simpl.
    + rewrite Hw. apply String.eqb_eq in Ef.
      assert (Hf : (name f =? other) = false)
        by (apply String.eqb_neq; congruence).
      rewrite Hf. exact IH.
    + destruct (name f =? other); [reflexivity|exact IH].
  - induction l as [|f l IH]; simpl.
    + rewrite Hw. reflexivity.
    + destruct (name f =? other); [reflexivity|exact IH].
Qed.

(** X4. A summary that [saveSummary] wrote is what [readSummaryFile]
    returns for its slug, front matter first; the summaries of the other
    slugs are as they were, and writing an article or a page changes no
    summary.  The slugs are file names: they hold no dot, no slash and no
    backslash, so that [join] leaves the path of each as it is written. *)
Theorem readSummaryFile_saveSummary (now : string) (nowMs : Z)
  (slug summary : string) (meta : Meta) (fs : FileSystem) :
  lacks "." slug = true -> lacks "/" slug = true -> lacks "\" slug = true ->
  readSummaryFile (saveSummary now nowMs slug summary meta fs) slug
  = Some (frontmatter now meta +:+ newline +:+ newline +:+ summary)
  /\ (forall other,
        lacks "." other = true -> lacks "/" other = true ->
        lacks "\" other = true -> other <> slug ->
        readSummaryFile (saveSummary now nowMs slug summary meta fs) other
        = readSummaryFile fs other)
  /\ (forall other content,
        lacks "." other = true -> lacks "/" other = true ->
        lacks "\" other = true ->
        readSummaryFile (saveArticle now nowMs slug content meta fs) other
        = readSummaryFile fs other)
  /\ (forall other page,
        lacks "." other = true -> lacks "/" other = true ->
        lacks "\" other = true ->
        readSummaryFile (saveHTML nowMs slug page fs) other
        = readSummaryFile fs other).
Proof.
  intros _ _ _. split; [|split; [|split]].
  - unfold readSummaryFile, saveSummary. cbn [summaries].
    rewrite lookupFile_writeFile. reflexivity.
  - intros other _ _ _ Hne. unfold readSummaryFile, saveSummary.
    cbn [summaries].
    rewrite lookupFile_writeFile_other; [reflexivity|].
    intros E. apply append_inj_l in E. contradiction.
  - reflexivity.
  - reflexivity.
Qed.

(** *** The URL line of the front matter *)

(** No line terminator. *)
Definition oneLine (s : string) : bool :=
  all (fun c => negb (isLineTerminator c)) s.

(** A value that a front-matter line gives back as it is: one line, not
    empty, with no white space at either end. *)
Definition storable (u : string) : bool :=
  negb (u =? "") && oneLine u && negb (headIsSpace u) && (trim u =? u).

Lemma matchLine_other (k c : ascii) (key : string)
  (cap : string -> option string) (b : bool) (s : string) :
  c <> k ->
  matchLine (String k key) cap b (String c s)
  = matchLine (String k key) cap (isLineTerminator c) s.
Proof.
  intros Hne. cbn [matchLine]. unfold startsWith. cbn [prefix].
  destruct (ascii_dec k c) as [->|]; [contradiction|].
  rewrite andb_false_r. reflexivity.
Qed.

Lemma matchLine_skip_line (key : string) (cap : string -> option string)
  (body rest : string) :
  oneLine body = true ->
  matchLine key cap false (body +:+ String LF rest)
  = matchLine key cap true rest.
Proof.
  unfold oneLine. induction body as [|c body IH]; intros Hb.
  - reflexivity.
  - cbn [all] in Hb. apply andb_true_iff in Hb as [Hc Hb].
    apply negb_true_iff in Hc.
    cbn [append matchLine andb]. rewrite Hc. apply IH, Hb.
Qed.

Lemma lineOf_app (u t : string) :
  oneLine u = true -> lineOf (u +:+ String LF t) = u.
Proof.
  unfold oneLine. induction u as [|c u IH]; intros Hu; [reflexivity|].
  cbn [all] in Hu. apply andb_true_iff in Hu as [Hc Hu].
  apply negb_true_iff in Hc. cbn [append lineOf]. rewrite Hc, (IH Hu).
  reflexivity.
Qed.

Lemma drop_app (p x : string) : drop (String.length p) (p +:+ x) = x.
Proof. induction p as [|c p IH]; [destruct x; reflexivity | exact IH]. Qed.

Lemma captureValue_line (u t : string) :
  storable u = true ->
  captureValue (String " " (u +:+ String LF t)) = Some u.
Proof.
  unfold storable. rewrite !andb_true_iff. intros [[[Hne Hl] Hh] _].
  destruct u as [|c u]; [discriminate|].
  cbn [headIsSpace] in Hh. apply negb_true_iff in Hh.
  unfold captureValue.
  change (spanSpaces (String " " (String c u +:+ String LF t)))
    with (let (ws, rest) := spanSpaces (String c (u +:+ String LF t)) in
          (String " " ws, rest)).
  cbn [spanSpaces]. rewrite Hh.
  change (String c (u +:+ String LF t)) with (String c u +:+ String LF t).
  rewrite (lineOf_app _ _ Hl). reflexivity.
Qed.

(** The title as [frontmatter] writes it between the quotes. *)
Definition quotedTitle (meta : Meta) : string :=
  replaceAll (title meta) (String dquote EmptyString)
    (String "\" (String dquote EmptyString)).

(** The lines of the front matter after the URL line. *)
Definition afterUrlLine (now : string) (meta : Meta) : string :=
  "date: " +:+ now +:+ newline +:+
  "type: " +:+ kindName (type meta) +:+ newline +:+
  "words: " +:+ decimalZ (words meta) +:+ newline +:+
  "---".

Lemma frontmatter_lines (now : string) (meta : Meta) (rest : string) :
  frontmatter now meta +:+ rest
  = String "-" ("--" +:+ String LF
      (String "t" (("itle: " +:+ String dquote (quotedTitle meta)
                    +:+ String dquote "") +:+ String LF
         ("url:" +:+ String " " (url meta +:+ String LF
            (afterUrlLine now meta +:+ rest)))))).
Proof.
  unfold frontmatter, afterUrlLine, quotedTitle, newline.
  repeat (progress (rewrite ?append_assoc; cbn [append])). reflexivity.
Qed.

Lemma oneLine_quotedTitle (meta : Meta) :
  oneLine (title meta) = true -> oneLine (quotedTitle meta) = true.
Proof.
  unfold oneLine, quotedTitle. rewrite HtmlFacts.replaceAll_char.
  induction (title meta) as [|c t IH]; [reflexivity|].
  cbn [all HtmlFacts.flatMap]. rewrite andb_true_iff. intros [Hc Ht].
  rewrite all_app, (IH Ht), andb_true_r.
  destruct (c =? dquote)%char; [reflexivity|].
  cbn [all]. rewrite Hc. reflexivity.
Qed.

(** The URL line of a front matter is read back as the URL. *)
Lemma urlMatch_frontmatter (now : string) (meta : Meta) (rest : string) :
  oneLine (title meta) = true -> storable (url meta) = true ->
  urlMatch (frontmatter now meta +:+ rest) = Some (url meta).
Proof.
  intros Ht Hu. rewrite frontmatter_lines. unfold urlMatch.
  rewrite matchLine_other by discriminate.
  change (isLineTerminator "-") with false.
  rewrite matchLine_skip_line by reflexivity.
  rewrite matchLine_other by discriminate.
  change (isLineTerminator "t") with false.
  rewrite matchLine_skip_line.
  - set (x := String " " _).
    assert (E : matchLine "url:" captureValue true ("url:" +:+ x)
                = match captureValue x with
                  | Some cap => Some cap
                  | None => matchLine "url:" captureValue false
                              ("rl:" +:+ x)
                  end).
    { cbn [append matchLine andb].
      change (String "u" (String "r" (String "l" (String ":" x))))
        with ("url:" +:+ x).
      rewrite startsWith_app, drop_app. reflexivity. }
    rewrite E. unfold x. rewrite (captureValue_line _ _ Hu). reflexivity.
  - pose proof (oneLine_quotedTitle meta Ht) as Hq.
    unfold oneLine in *. rewrite !all_app. cbn [all].
    rewrite Hq. reflexivity.
Qed.

Lemma storable_parts (u : string) :
  storable u = true -> u <> "" /\ trim u = u.
Proof.
  unfold storable. rewrite !andb_true_iff. intros [[[Hne _] _] Ht].
  split; [|apply String.eqb_eq, Ht].
  apply negb_true_iff, String.eqb_neq in Hne. exact Hne.
Qed.

Lemma drop_length (s : string) : drop (String.length s) s = "".
Proof. induction s as [|c s IH]; [reflexivity | exact IH]. Qed.

(** A suffix that starts with a code unit the name lacks is found at the
    end of the name and nowhere before. *)
Lemma replaceFirst_suffix (c : ascii) (p a : string) :
  lacks c a = true -> replaceFirst (a +:+ String c p) (String c p) "" = a.
Proof.
  unfold lacks. induction a as [|d a IH]; intros Ha.
  - cbn [append]. destruct p as [|e p]; cbn [replaceFirst].
    + unfold startsWith. cbn [prefix].
      destruct (ascii_dec c c); [reflexivity|contradiction].
    + assert (E : startsWith (String c (String e p)) (String c (String e p)) = true).
      { apply startsWith_iff. exists "". rewrite append_empty_r. reflexivity. }
      rewrite E. cbn [append]. apply (drop_length (String c (String e p))).
  - cbn [all] in Ha. apply andb_true_iff in Ha as [Hd Ha].
    apply negb_true_iff, Ascii.eqb_neq in Hd.
    cbn [append replaceFirst]. unfold startsWith at 1. cbn [prefix].
    destruct (ascii_dec c d) as [->|]; [contradiction|].
    rewrite (IH Ha). reflexivity.
Qed.

Lemma endsWith_app (a p : string) : endsWith (a +:+ p) p = true.
Proof.
  induction a as [|c a IH].
  - cbn [append]. destruct p; cbn [endsWith]; rewrite String.eqb_refl; reflexivity.
  - cbn [append endsWith]. rewrite IH. apply orb_true_r.
Qed.

(** Where [Bun.write] leaves its entry in a listing: before it there are
    only entries of the former listing, under other names. *)
Lemma writeFile_split (nowMs : Z) (dir : option (list File))
  (fileName text : string) :
  exists before after,
    writeFile nowMs dir fileName text
    = Some (before ++ written nowMs fileName text :: after)
    /\ Forall (fun g => (exists l, dir = Some l /\ In g l)
                        /\ name g <> fileName) before
    /\ Forall (fun g => g = written nowMs fileName text
                        \/ ((exists l, dir = Some l /\ In g l)
                            /\ name g <> fileName)) after.
Proof.
  unfold writeFile. fold (written nowMs fileName text).
  destruct dir as [l|];
    [|exists [], []; split; [reflexivity|split; constructor]].
  assert (Hin : forall b, Forall (fun g => In g l /\ name g <> fileName) b ->
            Forall (fun g => (exists l0, Some l = Some l0 /\ In g l0)
                             /\ name g <> fileName) b).
  { intros b. apply Forall_impl. intros g [Hg Hn]. split; [|exact Hn].
    exists l. auto. }
  assert (Hrest : forall l',
            incl l' l ->
            Forall (fun g => g = written nowMs fileName text
                             \/ ((exists l0, Some l = Some l0 /\ In g l0)
                                 /\ name g <> fileName))
              (map (fun f => if name f =? fileName
                             then written nowMs fileName text else f) l')).
  { intros l' Hl'. apply Forall_forall. intros g Hg.
    apply in_map_iff in Hg as (f & <- & Hf).
    destruct (name f =? fileName) eqn:Ef; [left; reflexivity|].
    right. split; [exists l; split; [reflexivity|apply Hl', Hf]|].
    apply String.eqb_neq, Ef. }
  destruct (existsb _ l) eqn:E.
  - assert (Hl : exists before after,
      map (fun f => if name f =? fileName then written nowMs fileName text
                    else f) l
      = before ++ written nowMs fileName text :: after
      /\ Forall (fun g => In g l /\ name g <> fileName) before
      /\ exists l', incl l' l
            /\ after = map (fun f => if name f =? fileName
                                     then written nowMs fileName text
                                     else f) l').
    { clear Hin Hrest. induction l as [|f l IH]; [discriminate|].
      simpl in E |- *.
      destruct (name f =? fileName) eqn:Ef.
      - exists [], (map (fun f => if name f =? fileName
                                  then written nowMs fileName text else f) l).
        split; [reflexivity|]. split; [constructor|].
        exists l. split; [apply incl_tl, incl_refl|reflexivity].
      - simpl in E. destruct (IH E) as (b & a & Hm & Hb & l' & Hl' & Ha).
        exists (f :: b), a. rewrite Hm. split; [reflexivity|]. split.
        + constructor.
          * split; [left; reflexivity|]. apply String.eqb_neq, Ef.
          * eapply Forall_impl; [|exact Hb]. intros g [Hg Hn]. simpl. auto.
        + exists l'. split; [apply incl_tl, Hl'|exact Ha]. }
    destruct Hl as (b & a & Hm & Hb & l' & Hl' & ->).
    eexists b, _. rewrite Hm. split; [reflexivity|]. auto.
  - exists l, []. split; [reflexivity|]. split; [|constructor]. apply Hin.
    apply Forall_forall. intros g Hg. split; [assumption|].
    intros Hn. assert (existsb (fun f => name f =? fileName) l = true);
      [|congruence].
    apply existsb_exists. exists g. split; [assumption|].
    apply String.eqb_eq, Hn.
Qed.

Section WithPlatform.
Context `{UrlParser}.

(** The lookup in an archive whose articles directory is the one that
    [Bun.write] left. *)
Lemma findByUrl_written (now : string) (nowMs : Z)
  (slug content : string) (meta : Meta) (fs fs' : FileSystem)
  (type : option Kind) :
  articles fs'
  = writeFile nowMs (articles fs) (slug +:+ ".md")
      (frontmatter now meta +:+ newline +:+ newline +:+ content) ->
  oneLine (title meta) = true ->
  storable (url meta) = true ->
  lacks "." slug = true ->
  (forall l g, articles fs = Some l -> In g l ->
     endsWith (name g) ".md" = true -> name g <> slug +:+ ".md" ->
     data g <> None
     /\ StorageFacts.storedKey g <> Some (normalizeUrl (url meta))) ->
  findByUrl fs' (url meta) type = Some slug.
Proof.
  intros Hfs Ht Hu Hs Hothers. unfold findByUrl. rewrite Hfs.
  set (text := frontmatter now meta +:+ newline +:+ newline +:+ content).
  destruct (writeFile_split nowMs (articles fs) (slug +:+ ".md") text)
    as (before & after & -> & Hb & _).
  rewrite filter_app. cbn [filter]. unfold written at 1. cbn [name].
  rewrite endsWith_app.
  rewrite <- (replaceFirst_suffix "." "md" slug Hs) at 2.
  change (slug +:+ ".md") with (name (written nowMs (slug +:+ ".md") text)) at 2.
  apply StorageFacts.findByUrlLoop_first.
  - unfold StorageFacts.storedKey, written. cbn [data]. unfold text.
    rewrite (urlMatch_frontmatter now meta _ Ht Hu).
    rewrite (proj2 (storable_parts _ Hu)). reflexivity.
  - clear -Hb Hothers. induction before as [|g before IH]; [constructor|].
    pose proof (Forall_inv Hb) as [(l & Hl & Hg) Hn].
    apply Forall_inv_tail in Hb. cbn [filter].
    destruct (endsWith (name g) ".md") eqn:E; [|apply IH, Hb].
    constructor; [|apply IH, Hb].
    apply (Hothers l g Hl Hg E Hn).
Qed.


End WithPlatform.



(** *** What the lookup returns *)

Section WithPlatform.
Context `{UrlParser}.

Lemma findByUrlLoop_sound (needle slug : string) (mds : list File) :
  findByUrlLoop needle mds = Some slug ->
  exists f text cap,
    In f mds /\ data f = Some text /\ urlMatch text = Some cap
    /\ normalizeUrl (trim cap) = needle
    /\ slug = replaceFirst (name f) ".md" "".
Proof.
  induction mds as [|g mds IH]; [discriminate|]. cbn [findByUrlLoop].
  assert (Hrest : findByUrlLoop needle mds = Some slug ->
            exists f text cap,
              In f (g :: mds) /\ data f = Some text
              /\ urlMatch text = Some cap
              /\ normalizeUrl (trim cap) = needle
              /\ slug = replaceFirst (name f) ".md" "").
  { intros E. destruct (IH E) as (f & text & cap & Hf & Hrest).
    exists f, text, cap. split; [right; exact Hf|exact Hrest]. }
  destruct (data g) as [text|] eqn:Ed; [|discriminate].
  destruct (urlMatch text) as [cap|] eqn:Eu; [|exact Hrest].
  destruct (normalizeUrl (trim cap) =? needle) eqn:En; [|exact Hrest].
  intros [= <-]. apply String.eqb_eq in En.
  exists g, text, cap. repeat split; auto. left. reflexivity.
Qed.

(** X7. A slug that [findByUrl] returns names an article of the archive
    whose recorded URL has the canonical key of the URL looked up: the
    lookup never answers with an article stored for another key, and it
    answers nothing while the articles directory is missing. *)
Theorem findByUrl_sound (fs : FileSystem) (target : string)
  (type : option Kind) :
  match findByUrl fs target type with
  | Some slug =>
      exists l f text cap,
        articles fs = Some l /\ In f l /\ endsWith (name f) ".md" = true
        /\ data f = Some text /\ urlMatch text = Some cap
        /\ normalizeUrl (trim cap) = normalizeUrl target
        /\ slug = replaceFirst (name f) ".md" ""
  | None => True
  end
  /\ (articles fs = None -> findByUrl fs target type = None).
Proof.
  split; [|unfold findByUrl; intros ->; reflexivity].
  destruct (findByUrl fs target type) as [slug|] eqn:E; [|exact I].
  unfold findByUrl in E. destruct (articles fs) as [l|]; [|discriminate].
  apply findByUrlLoop_sound in E as (f & text & cap & Hf & Hd & Hu & Hn & Hs).
  apply filter_In in Hf as [Hf Hmd].
  exists l, f, text, cap. auto 10.
Qed.

Lemma findByUrlLoop_unreadable (needle : string) (before after : list File)
  (g : File) :
  data g = None ->
  Forall (fun f => StorageFacts.storedKey f <> Some needle) before ->
  findByUrlLoop needle (before ++ g :: after) = None.
Proof.
  intros Hg Hb. induction before as [|f before IH]; cbn [app findByUrlLoop].
  - rewrite Hg. reflexivity.
  - pose proof (Forall_inv Hb) as Hf. apply Forall_inv_tail in Hb.
    unfold StorageFacts.storedKey in Hf.
    destruct (data f) as [text|]; [|reflexivity].
    destruct (urlMatch text) as [cap|]; [|apply IH, Hb].
    destruct (normalizeUrl (trim cap) =? needle) eqn:E; [|apply IH, Hb].
    apply String.eqb_eq in E. congruence.
Qed.

(** X8. The reads of [findByUrl] share one [try]: an article entry that
    cannot be read ends the lookup with no result, so the articles listed
    after it are not looked at, a matching one included. *)
Theorem findByUrl_unreadable_entry (fs : FileSystem) (target : string)
  (type : option Kind) (before after : list File) (g : File) :
  articles fs = Some (before ++ g :: after) ->
  endsWith (name g) ".md" = true ->
  data g = None ->
  Forall (fun f => StorageFacts.storedKey f <> Some (normalizeUrl target))
    before ->
  findByUrl fs target type = None.
Proof.
  intros Ha Hmd Hg Hb. unfold findByUrl. rewrite Ha, filter_app.
  cbn [filter]. rewrite Hmd.
  apply findByUrlLoop_unreadable; [exact Hg|].
  clear -Hb. induction before as [|f before IH]; [constructor|].
  pose proof (Forall_inv Hb) as Hf. apply Forall_inv_tail in Hb.
  cbn [filter]. destruct (endsWith (name f) ".md"); [|apply IH, Hb].
  constructor; [exact Hf|apply IH, Hb].
Qed.

End WithPlatform.

(** *** The latest summary *)

Definition isMd (f : File) : bool := endsWith (name f) ".md".

(** [x] is the first entry of [l] with the greatest time. *)
Definition firstNewest {A : Type} (time : A -> Z) (l : list A) (x : A)
  : Prop :=
  exists before after,
    l = before ++ x :: after
    /\ Forall (fun y => (time y < time x)%Z) before
    /\ Forall (fun y => (time y <= time x)%Z) after.

Lemma firstNewest_place {A : Type} (time : A -> Z)
  (b a b' a' : list A) (x x' : A) :
  b ++ x :: a = b' ++ x' :: a' ->
  Forall (fun y => (time y < time x)%Z) b ->
  Forall (fun y => (time y <= time x)%Z) a ->
  Forall (fun y => (time y < time x')%Z) b' ->
  Forall (fun y => (time y <= time x')%Z) a' ->
  b = b' /\ x = x' /\ a = a'.
Proof.
  revert b'. induction b as [|y b IH]; intros [|y' b'] E Hb Ha Hb' Ha';
    simpl in E.
  - injection E as -> ->. auto.
  - injection E as E1 E2. subst y' a.
    apply Forall_inv in Hb'.
    rewrite Forall_forall in Ha.
    specialize (Ha x' (in_elt _ _ _)). lia.
  - injection E as E1 E2. subst y a'.
    apply Forall_inv in Hb.
    rewrite Forall_forall in Ha'.
    specialize (Ha' x (in_elt _ _ _)). lia.
  - injection E as E1 E. subst y'.
    destruct (IH b' E (Forall_inv_tail Hb) Ha (Forall_inv_tail Hb') Ha')
      as (-> & -> & ->).
    auto.
Qed.

Lemma firstNewest_unique {A : Type} (time : A -> Z) (l : list A) (x x' : A) :
  firstNewest time l x -> firstNewest time l x' -> x = x'.
Proof.
  intros (b & a & Hl & Hb & Ha) (b' & a' & Hl' & Hb' & Ha').
  subst l. apply (firstNewest_place time b a b' a' x x' Hl' Hb Ha Hb' Ha').
Qed.

Lemma sort_head_firstNewest {A : Type} (time : A -> Z) (l : list A) :
  match hd_error (Youtube.sort (fun a b => (time b - time a)%Z) l) with
  | Some x => firstNewest time l x
  | None => l = []
  end.
Proof.
  induction l as [|x l IH]; [reflexivity|].
  rewrite YoutubeFacts.sort_head_cons.
  destruct (hd_error (Youtube.sort _ l)) as [y|].
  - destruct IH as (b & a & -> & Hb & Ha).
    destruct (time y - time x <=? 0)%Z eqn:Hxy.
    + apply Z.leb_le in Hxy. exists [], (b ++ y :: a).
      split; [reflexivity|]. split; [constructor|].
      apply Forall_app. split.
      * eapply Forall_impl; [|exact Hb]. simpl. intros; lia.
      * constructor; [lia|].
        eapply Forall_impl; [|exact Ha]. simpl. intros; lia.
    + apply Z.leb_gt in Hxy. exists (x :: b), a.
      split; [reflexivity|]. split; [|assumption].
      constructor; [lia|assumption].
  - subst l. exists [], []. repeat split; constructor.
Qed.

Section WithStat.
Context (stat : File -> option Z).

(** The time [stat] gives for an entry. *)
Definition timeOf (f : File) : Z :=
  match stat f with
  | Some mtime => mtime
  | None => 0%Z
  end.

Definition stamped (f : File) : string * Z := (name f, timeOf f).

(** [f] is the first entry of [mds] with the greatest time, and [stat]
    succeeds on every entry of [mds]. *)
Definition latestOf (mds : list File) (f : File) : Prop :=
  exists before after mtime,
    mds = before ++ f :: after
    /\ stat f = Some mtime
    /\ Forall (fun g => exists t, stat g = Some t /\ (t < mtime)%Z) before
    /\ Forall (fun g => exists t, stat g = Some t /\ (t <= mtime)%Z) after.

Lemma withMtime_some (mds : list File) (l : list (string * Z)) :
  withMtime stat mds = Some l ->
  l = map stamped mds /\ Forall (fun g => stat g = Some (timeOf g)) mds.
Proof.
  revert l. induction mds as [|f mds IH]; intros l E; cbn [withMtime] in E.
  - injection E as <-. split; [reflexivity|constructor].
  - destruct (stat f) as [t|] eqn:Ef; [|discriminate].
    destruct (withMtime stat mds) as [l'|]; [|discriminate].
    injection E as <-. destruct (IH l' eq_refl) as [-> Hall].
    split.
    + cbn [map]. unfold stamped at 2, timeOf. rewrite Ef. reflexivity.
    + constructor; [|exact Hall]. unfold timeOf. rewrite Ef. reflexivity.
Qed.

Lemma withMtime_all (mds : list File) :
  Forall (fun g => stat g <> None) mds ->
  withMtime stat mds = Some (map stamped mds).
Proof.
  induction 1 as [|f mds Hf _ IH]; [reflexivity|].
  cbn [withMtime map]. rewrite IH. unfold stamped at 2, timeOf.
  destruct (stat f); [reflexivity|contradiction].
Qed.

Lemma withMtime_none (mds : list File) :
  withMtime stat mds = None <-> Exists (fun g => stat g = None) mds.
Proof.
  induction mds as [|f mds IH]; cbn [withMtime].
  - split; [discriminate|]. intros E. inversion E.
  - destruct (stat f) as [t|] eqn:Ef.
    + destruct (withMtime stat mds) as [l|].
      * split; [discriminate|]. intros E.
        apply Exists_cons in E as [E|E]; [congruence|].
        apply IH in E. discriminate.
      * split; [|reflexivity]. intros _. right. apply IH. reflexivity.
    + split; [|reflexivity]. intros _. left. exact Ef.
Qed.

Lemma latestOf_firstNewest (mds : list File) (f : File) :
  latestOf mds f ->
  Forall (fun g => stat g <> None) mds
  /\ firstNewest snd (map stamped mds) (stamped f).
Proof.
  intros (b & a & t & -> & Hf & Hb & Ha).
  assert (Ht : timeOf f = t) by (unfold timeOf; rewrite Hf; reflexivity).
  split.
  - apply Forall_app. split; [|constructor; [congruence|]].
    + eapply Forall_impl; [|exact Hb]. intros g (u & -> & _). discriminate.
    + eapply Forall_impl; [|exact Ha]. intros g (u & -> & _). discriminate.
  - exists (map stamped b), (map stamped a).
    split; [rewrite map_app; reflexivity|].
    split; apply Forall_map.
    + eapply Forall_impl; [|exact Hb]. intros g (u & Hu & Hlt).
      unfold stamped, timeOf. cbn [snd]. rewrite Hu, Hf. exact Hlt.
    + eapply Forall_impl; [|exact Ha]. intros g (u & Hu & Hle).
      unfold stamped, timeOf. cbn [snd]. rewrite Hu, Hf. exact Hle.
Qed.

Lemma firstNewest_latestOf (mds : list File) (p : string * Z) :
  Forall (fun g => stat g = Some (timeOf g)) mds ->
  firstNewest snd (map stamped mds) p ->
  exists f, latestOf mds f /\ fst p = name f.
Proof.
  intros Hall (b & a & E & Hb & Ha).
  apply map_eq_app in E as (before & rest & -> & <- & E).
  apply map_eq_cons in E as (f & after & -> & <- & <-).
  apply Forall_app in Hall as [Hallb Hall].
  pose proof (Forall_inv Hall) as Hf. apply Forall_inv_tail in Hall.
  exists f. split; [|reflexivity].
  exists before, after, (timeOf f). split; [reflexivity|].
  split; [exact Hf|]. split.
  - apply Forall_forall. intros g Hg. exists (timeOf g).
    rewrite Forall_forall in Hallb, Hb. split; [apply Hallb, Hg|].
    apply (Hb (stamped g)), in_map, Hg.
  - apply Forall_forall. intros g Hg. exists (timeOf g).
    rewrite Forall_forall in Hall, Ha. split; [apply Hall, Hg|].
    apply (Ha (stamped g)), in_map, Hg.
Qed.

(** The answer of [getLatestSlug] for a listing whose latest entry is
    known. *)
Lemma getLatestSlug_listing (fs : FileSystem) (l : list File) (f : File) :
  summaries fs = Some l -> latestOf (filter isMd l) f ->
  getLatestSlug stat fs = Some (replaceFirst (name f) ".md" "").
Proof.
  intros Hl Hf. unfold getLatestSlug. rewrite Hl. fold isMd.
  destruct (latestOf_firstNewest _ _ Hf) as [Hall Hnew].
  rewrite (withMtime_all _ Hall).
  pose proof (sort_head_firstNewest snd (map stamped (filter isMd l))) as Hs.
  fold newerFirst in Hs.
  destruct (filter isMd l) as [|f0 mds] eqn:Ef.
  - destruct Hf as ([|? ?] & ? & ? & ? & _); discriminate.
  - cbn [List.length Nat.eqb].
    destruct (Youtube.sort newerFirst (map stamped (f0 :: mds)))
      as [|latest rest]; cbn [hd_error] in Hs; [discriminate|].
    rewrite (firstNewest_unique _ _ _ _ Hs Hnew). reflexivity.
Qed.

(** X9. [getLatestSlug] names the summary to which [stat] gives the
    greatest modification time, the first listed one among equals, when
    [stat] succeeds on every [.md] entry of the summaries directory; it
    has no answer exactly when the directory is missing, lists no [.md]
    entry, or lists one on which [stat] fails. *)
Theorem getLatestSlug_newest (fs : FileSystem) :
  (forall slug, getLatestSlug stat fs = Some slug <->
     exists l f, summaries fs = Some l /\ latestOf (filter isMd l) f
                 /\ slug = replaceFirst (name f) ".md" "")
  /\ (getLatestSlug stat fs = None <->
      summaries fs = None
      \/ exists l, summaries fs = Some l
           /\ (filter isMd l = []
               \/ Exists (fun g => stat g = None) (filter isMd l))).
Proof.
  split.
  - intros slug. split.
    + unfold getLatestSlug. destruct (summaries fs) as [l|]; [|discriminate].
      fold isMd.
      destruct (filter isMd l) as [|f0 mds] eqn:Ef; [discriminate|].
      cbn [List.length Nat.eqb].
      destruct (withMtime stat (f0 :: mds)) as [st|] eqn:Ew; [|discriminate].
      apply withMtime_some in Ew as [-> Hall].
      pose proof (sort_head_firstNewest snd (map stamped (f0 :: mds))) as Hs.
      fold newerFirst in Hs.
      destruct (Youtube.sort newerFirst (map stamped (f0 :: mds)))
        as [|latest rest]; cbn [hd_error] in Hs; [discriminate|].
      intros [= <-].
      destruct (firstNewest_latestOf _ _ Hall Hs) as (f & Hf & ->).
      exists l, f. rewrite Ef. auto.
    + intros (l & f & Hl & Hf & ->). apply (getLatestSlug_listing fs l f Hl Hf).
  - unfold getLatestSlug. destruct (summaries fs) as [l|]; [|tauto].
    fold isMd. destruct (filter isMd l) as [|f0 mds] eqn:Ef.
    + split; [|reflexivity]. intros _. right. exists l. rewrite Ef. auto.
    + cbn [List.length Nat.eqb].
      destruct (withMtime stat (f0 :: mds)) as [st|] eqn:Ew.
      * pose proof (sort_head_firstNewest snd st) as Hs. fold newerFirst in Hs.
        destruct (Youtube.sort newerFirst st) as [|latest rest];
          cbn [hd_error] in Hs.
        -- subst st. apply withMtime_some in Ew as [Ew _]. discriminate.
        -- split; [discriminate|].
           intros [E|(l0 & [= <-] & [E|E])]; [discriminate| |].
           ++ rewrite Ef in E. discriminate.
           ++ rewrite Ef in E. apply withMtime_none in E. congruence.
      * split; [|reflexivity]. intros _. right. exists l. split; [reflexivity|].
        right. rewrite Ef. apply withMtime_none, Ew.
Qed.

(** X10. The summary written last is the latest one: after [saveSummary]
    under a slug that is a file name (no dot, no slash, no backslash),
    with a time stamp later than that of every other summary, in a
    directory where [stat] gives for each entry the time of its last
    writing, [getLatestSlug] returns the slug; and it returns nothing when
    [stat] fails on one of the [.md] entries. *)
Theorem getLatestSlug_saveSummary (now : string) (nowMs : Z)
  (slug summary : string) (meta : Meta) (fs : FileSystem) :
  lacks "." slug = true -> lacks "/" slug = true -> lacks "\" slug = true ->
  (forall l g, summaries fs = Some l -> In g l ->
     name g <> slug +:+ ".md" -> (mtimeMs g < nowMs)%Z) ->
  let saved := saveSummary now nowMs slug summary meta fs in
  ((forall l g, summaries saved = Some l -> In g l -> isMd g = true ->
      stat g = Some (mtimeMs g)) ->
   getLatestSlug stat saved = Some slug)
  /\ ((exists l g, summaries saved = Some l /\ In g l /\ isMd g = true
                   /\ stat g = None) ->
      getLatestSlug stat saved = None).
Proof.
  intros Hs _ _ Hold saved.
  set (text := frontmatter now meta +:+ newline +:+ newline +:+ summary).
  destruct (writeFile_split nowMs (summaries fs) (slug +:+ ".md") text)
    as (before & after & Hw & Hb & Ha).
  assert (Hsaved : summaries saved
                   = Some (before ++ written nowMs (slug +:+ ".md") text
                             :: after)) by exact Hw.
  split.
  - intros Hstat.
    rewrite <- (replaceFirst_suffix "." "md" slug Hs) at 1.
    change (slug +:+ ".md") with (name (written nowMs (slug +:+ ".md") text)).
    apply (getLatestSlug_listing _ _ _ Hsaved).
    rewrite filter_app. cbn [filter]. unfold isMd at 2. cbn [name written].
    rewrite endsWith_app.
    exists (filter isMd before), (filter isMd after), nowMs.
    split; [reflexivity|]. split; [|split].
    + apply (Hstat _ (written nowMs (slug +:+ ".md") text) Hsaved);
        [apply in_elt|].
      unfold isMd. cbn [name written]. apply endsWith_app.
    + apply Forall_forall. intros g Hg. apply filter_In in Hg as [Hg Hmd].
      exists (mtimeMs g). split.
      * apply (Hstat _ _ Hsaved); [|exact Hmd].
        apply in_or_app. left. exact Hg.
      * rewrite Forall_forall in Hb.
        destruct (Hb g Hg) as [(l & Hl0 & Hin) Hn].
        apply (Hold l g Hl0 Hin Hn).
    + apply Forall_forall. intros g Hg. apply filter_In in Hg as [Hg Hmd].
      exists (mtimeMs g). split.
      * apply (Hstat _ _ Hsaved); [|exact Hmd].
        apply in_or_app. right. right. exact Hg.
      * rewrite Forall_forall in Ha.
        destruct (Ha g Hg) as [->|[(l & Hl0 & Hin) Hn]];
          [cbn [mtimeMs written]; lia|].
        pose proof (Hold l g Hl0 Hin Hn). lia.
  - intros (l & g & Hl & Hg & Hmd & Hnone).
    unfold getLatestSlug. rewrite Hl. fold isMd.
    assert (Hin : In g (filter isMd l)) by (apply filter_In; auto).
    destruct (filter isMd l) as [|f0 mds]; [destruct Hin|].
    cbn [List.length Nat.eqb].
    assert (Hw' : withMtime stat (f0 :: mds) = None).
    { apply withMtime_none, Exists_exists. exists g. auto. }
    rewrite Hw'. reflexivity.
Qed.

End WithStat.

(** *** Discussions *)

Section WithPlatform.
Context `{UrlParser}.
Context (stat : File -> option Z).
Context (HOME : string).


End WithPlatform.

(** *** Concrete archives *)

Import SimpleUrl.

Definition stamp : string := "2024-03-05T08:30:00.000Z".

Definition guideMeta : Meta :=
  {| title := "A guide"; url := "https://a.com/guide";
     type := Web; words := 3 |}.

Definition emptyArchive : FileSystem :=
  {| articles := Some []; summaries := Some []; html := Some [] |}.

Definition guideArticle : File :=
  written 7 "2024-03-05_a-guide.md"
    (frontmatter stamp guideMeta +:+ newline +:+ newline +:+ "one two three").

Definition unreadable : File :=
  {| name := "2024-01-01_old.md"; data := None; mtimeMs := 5 |}.

(** A directory entry that cannot be read, listed before an article. *)
Definition brokenArchive : FileSystem :=
  {| articles := Some [unreadable; guideArticle];
     summaries := Some [];
     html := Some [] |}.


(** An archive with one summary, written at time 7. *)
Definition oldSummary : File := written 7 "2024-01-01_old.md" "Old.".

Definition oneSummary : FileSystem :=
  {| articles := Some []; summaries := Some [oldSummary]; html := Some [] |}.

Lemma readSummaryFile_saveSummary_witness :
  let saved := saveSummary stamp 9 "2024-03-05_a-guide" "Short." guideMeta
                 oneSummary in
  readSummaryFile saved "2024-03-05_a-guide"
  = Some (frontmatter stamp guideMeta +:+ newline +:+ newline +:+ "Short.")
  /\ readSummaryFile saved "2024-01-01_old" = Some "Old."
  /\ readSummaryFile
       (saveArticle stamp 9 "2024-03-05_a-guide" "one two three" guideMeta
          oneSummary) "2024-01-01_old" = Some "Old."
  /\ readSummaryFile
       (saveHTML 9 "2024-03-05_a-guide" "<p>Short.</p>" oneSummary)
       "2024-01-01_old" = Some "Old.".
Proof.
  destruct (readSummaryFile_saveSummary stamp 9 "2024-03-05_a-guide" "Short."
              guideMeta oneSummary eq_refl eq_refl eq_refl)
    as (Hread & Hother & Harticle & Hpage).
  split; [exact Hread|]. split; [|split].
  - rewrite (Hother "2024-01-01_old" eq_refl eq_refl eq_refl);
      [reflexivity|discriminate].
  - rewrite (Harticle "2024-01-01_old" "one two three"
               eq_refl eq_refl eq_refl).
    reflexivity.
  - rewrite (Hpage "2024-01-01_old" "<p>Short.</p>" eq_refl eq_refl eq_refl).
    reflexivity.
Defined.


Lemma findByUrl_unreadable_entry_witness :
  findByUrl brokenArchive "https://a.com/guide" None = None
  /\ StorageFacts.storedKey guideArticle
     = Some (normalizeUrl "https://a.com/guide").
Proof.
  split; [|vm_compute; reflexivity].
  apply (findByUrl_unreadable_entry brokenArchive "https://a.com/guide" None
           [] [guideArticle] unreadable).
  - reflexivity.
  - reflexivity.
  - reflexivity.
  - constructor.
Defined.

(** [stat] in a directory whose entries can all be examined. *)
Definition statAll (f : File) : option Z := Some (mtimeMs f).

(** [stat] in a directory from which the old summary is gone since the
    listing was read. *)
Definition statGone (f : File) : option Z :=
  if name f =? "2024-01-01_old.md" then None else Some (mtimeMs f).

Lemma getLatestSlug_saveSummary_witness :
  let saved := saveSummary stamp 9 "2024-03-05_a-guide" "Short." guideMeta
                 oneSummary in
  getLatestSlug statAll saved = Some "2024-03-05_a-guide"
  /\ getLatestSlug statGone saved = None.
Proof.
  split.
  - apply (getLatestSlug_saveSummary statAll stamp 9 "2024-03-05_a-guide"
             "Short." guideMeta oneSummary).
    + reflexivity.
    + reflexivity.
    + reflexivity.
    + intros l g [= <-] [<-|[]] _. reflexivity.
    + intros l g _ _ _. reflexivity.
  - apply (getLatestSlug_saveSummary statGone stamp 9 "2024-03-05_a-guide"
             "Short." guideMeta oneSummary).
    + reflexivity.
    + reflexivity.
    + reflexivity.
    + intros l g [= <-] [<-|[]] _. reflexivity.
    + exists [oldSummary;
              written 9 "2024-03-05_a-guide.md"
                (frontmatter stamp guideMeta +:+ newline +:+ newline
                 +:+ "Short.")], oldSummary.
      split; [reflexivity|]. split; [left; reflexivity|].
      split; reflexivity.
Defined.

(** Three summaries: the newest by time is listed second; the first and
    the third have the same time. *)
Example getLatestSlug_run :
  let fs := {| articles := Some [];
               summaries := Some [written 5 "a.md" "A"; written 8 "b.md" "B";
                                  written 8 "c.md" "C"; written 9 "notes.txt" "N"];
               html := Some [] |} in
  getLatestSlug statAll fs = Some "b"
  /\ getLatestSlug (fun f => if name f =? "a.md" then None
                             else Some (mtimeMs f)) fs = None
  /\ getLatestSlug statAll emptyArchive = None.
Proof. vm_compute. repeat split. Qed.


End ArchiveFacts.

(** ** youtube.ts and the video keys of storage.ts *)

Module VideoFacts.
Import JS Url Storage Youtube JSFacts.

Lemma takeId_app (n : nat) (id rest : string) :
  String.length id = n -> all isIdChar id = true ->
  takeId n (id +:+ rest) = Some id.
Proof.
  revert id. induction n as [|n IH]; intros [|c id] Hl Hc;
    try discriminate; [reflexivity|].
  cbn [all] in Hc. apply andb_true_iff in Hc as [Hc Hid].
  cbn [append takeId]. rewrite Hc, (IH id); [reflexivity| |exact Hid].
  simpl in Hl. lia.
Qed.

Lemma takeId_sound (n : nat) (s i : string) :
  takeId n s = Some i -> String.length i = n /\ all isIdChar i = true.
Proof.
  revert s i. induction n as [|n IH]; intros s i; cbn [takeId].
  - intros [= <-]. auto.
  - destruct s as [|c s]; [discriminate|].
    destruct (isIdChar c) eqn:Ec; [|discriminate].
    destruct (takeId n s) as [j|] eqn:Ej; [|discriminate].
    intros [= <-]. destruct (IH _ _ Ej) as [Hl Ha].
    cbn [String.length all]. rewrite Ec, Ha, Hl. auto.
Qed.

Lemma afterWatch_sound (s i : string) :
  afterWatch s = Some i -> String.length i = 11 /\ all isIdChar i = true.
Proof.
  induction s as [|c s IH]; [discriminate|]. cbn [afterWatch].
  destruct (if isLineTerminator c then None else afterWatch s) as [j|] eqn:E.
  - intros [= <-]. destruct (isLineTerminator c); [discriminate|].
    apply IH, E.
  - destruct (startsWith (String c s) "v="); [|discriminate].
    apply takeId_sound.
Qed.

Lemma afterWatch_none (s : string) :
  includes s "v=" = false -> afterWatch s = None.
Proof.
  induction s as [|c s IH]; [reflexivity|].
  cbn [includes]. rewrite orb_false_iff. intros [Hs Hi].
  cbn [afterWatch]. rewrite (IH Hi), Hs.
  destruct (isLineTerminator c); reflexivity.
Qed.

(** The identifier after the only [v=] of a query is the one taken. *)
Lemma afterWatch_single (id rest : string) :
  String.length id = 11 -> all isIdChar id = true ->
  includes (id +:+ rest) "v=" = false ->
  afterWatch (String "v" (String "=" (id +:+ rest))) = Some id.
Proof.
  intros Hl Hc Hi.
  cbn [afterWatch].
  change (isLineTerminator "v") with false.
  change (isLineTerminator "=") with false. cbv iota.
  rewrite (afterWatch_none _ Hi).
  assert (E1 : startsWith (String "=" (id +:+ rest)) "v=" = false)
    by reflexivity.
  rewrite E1.
  change (String "v" (String "=" (id +:+ rest))) with ("v=" +:+ id +:+ rest).
  rewrite startsWith_app.
  change 2 with (String.length "v="). rewrite ArchiveFacts.drop_app.
  apply takeId_app; assumption.
Qed.

Lemma ytMatch_here (s i : string) :
  ytMatchHere s = Some i -> ytMatch s = Some i.
Proof. intros E. destruct s; cbn [ytMatch]; rewrite E; reflexivity. Qed.

Lemma ytMatch_cons (c : ascii) (s : string) :
  ytMatchHere (String c s) = None -> ytMatch (String c s) = ytMatch s.
Proof. intros E. cbn [ytMatch]. rewrite E. reflexivity. Qed.

Lemma extractVideoId_here (s i : string) :
  videoIdHere s = Some i -> extractVideoId s = Some i.
Proof. intros E. destruct s; cbn [extractVideoId]; rewrite E; reflexivity. Qed.

Lemma extractVideoId_cons (c : ascii) (s : string) :
  videoIdHere (String c s) = None ->
  extractVideoId (String c s) = extractVideoId s.
Proof. intros E. cbn [extractVideoId]. rewrite E. reflexivity. Qed.

Lemma includes_here (s p : string) :
  startsWith s p = true -> includes s p = true.
Proof. intros E. destruct s; cbn [includes]; rewrite E; reflexivity. Qed.

Lemma includes_cons (c : ascii) (s p : string) :
  includes s p = true -> includes (String c s) p = true.
Proof. intros E. cbn [includes]. rewrite E. apply orb_true_r. Qed.

(** Where the expression of [extractVideoId] matches, the expression of
    [normalizeUrl] matches with the same identifier. *)
Lemma videoIdHere_ytMatchHere (s i : string) :
  videoIdHere s = Some i -> ytMatchHere s = Some i.
Proof.
  unfold videoIdHere, ytMatchHere.
  destruct (startsWith s "youtube.com/watch?") eqn:Ew.
  - apply startsWith_iff in Ew as [r ->]. intros E.
    change ("youtube.com/watch?" +:+ r)
      with ("youtube.com/" +:+ ("watch?" +:+ r)).
    rewrite startsWith_app.
    change (drop 12 ("youtube.com/" +:+ "watch?" +:+ r)) with ("watch?" +:+ r).
    rewrite startsWith_app. exact E.
  - destruct (startsWith s "youtu.be/") eqn:Eb; [|discriminate].
    apply startsWith_iff in Eb as [r ->]. intros E. exact E.
Qed.

Lemma videoIdHere_isYouTube (s i : string) :
  videoIdHere s = Some i ->
  startsWith s "youtube.com/watch" = true \/ startsWith s "youtu.be/" = true.
Proof.
  unfold videoIdHere.
  destruct (startsWith s "youtube.com/watch?") eqn:Ew.
  - intros _. left. apply startsWith_iff in Ew as [r ->].
    apply startsWith_iff. exists ("?" +:+ r). reflexivity.
  - destruct (startsWith s "youtu.be/"); [auto|discriminate].
Qed.

Lemma videoIdHere_sound (s i : string) :
  videoIdHere s = Some i -> String.length i = 11 /\ all isIdChar i = true.
Proof.
  unfold videoIdHere.
  destruct (startsWith s "youtube.com/watch?");
    [apply afterWatch_sound|].
  destruct (startsWith s "youtu.be/"); [apply takeId_sound|discriminate].
Qed.

(** X12. An identifier that [extractVideoId] returns has 11 code units
    out of [[a-zA-Z0-9_-]]; it is found only in a URL that [isYouTube]
    accepts, and [normalizeUrl] gives such a URL a video key. *)
Theorem extractVideoId_sound (url i : string) :
  extractVideoId url = Some i ->
  String.length i = 11 /\ all isIdChar i = true
  /\ isYouTube url = true
  /\ exists j, ytMatch url = Some j.
Proof.
  induction url as [|c url IH]; cbn [extractVideoId].
  - discriminate.
  - destruct (videoIdHere (String c url)) as [k|] eqn:E.
    + intros [= <-]. destruct (videoIdHere_sound _ _ E) as [Hl Hc].
      split; [exact Hl|]. split; [exact Hc|]. split.
      * unfold isYouTube.
        destruct (videoIdHere_isYouTube _ _ E) as [Hw|Hb];
          rewrite (includes_here _ _ Hw) || rewrite (includes_here _ _ Hb);
          [reflexivity|apply orb_true_r].
      * exists k. apply ytMatch_here, videoIdHere_ytMatchHere, E.
    + intros Hi. destruct (IH Hi) as (Hl & Hc & Hy & j & Hj).
      split; [exact Hl|]. split; [exact Hc|]. split.
      * unfold isYouTube in *. apply orb_true_iff in Hy as [Hy|Hy];
          rewrite (includes_cons _ _ _ Hy); [reflexivity|apply orb_true_r].
      * cbn [ytMatch]. destruct (ytMatchHere (String c url)) as [k|];
          [exists k; reflexivity | exists j; exact Hj].
Qed.

(** The leftmost match is at the head of the text that is left. *)
Ltac ytFound i H :=
  match goal with
  | |- context [ytMatch ?x] =>
      replace (ytMatch x) with (Some i)
        by (symmetry; apply ytMatch_here; exact H)
  end.

Section WithPlatform.
Context `{UrlParser}.

(** X13. The URL forms of one video have one key: for an identifier of 11
    code units out of [[a-zA-Z0-9_-]], the [youtu.be], [shorts] and [live]
    forms, whatever follows the identifier, and the [watch] form when no
    other [v=] follows, are all normalized to [yt:] and the identifier;
    [extractVideoId] finds the identifier in the [youtu.be] and [watch]
    forms. *)
Theorem normalizeUrl_video_forms (id rest : string) :
  String.length id = 11 -> all isIdChar id = true ->
  normalizeUrl ("https://youtu.be/" +:+ id +:+ rest) = "yt:" +:+ id
  /\ normalizeUrl ("https://www.youtube.com/shorts/" +:+ id +:+ rest)
     = "yt:" +:+ id
  /\ normalizeUrl ("https://www.youtube.com/live/" +:+ id +:+ rest)
     = "yt:" +:+ id
  /\ extractVideoId ("https://youtu.be/" +:+ id +:+ rest) = Some id
  /\ (includes (id +:+ rest) "v=" = false ->
      normalizeUrl ("https://www.youtube.com/watch?v=" +:+ id +:+ rest)
      = "yt:" +:+ id
      /\ extractVideoId ("https://www.youtube.com/watch?v=" +:+ id +:+ rest)
         = Some id).
Proof.
  intros Hl Hc.
  pose proof (takeId_app 11 id rest Hl Hc) as Hid.
  assert (Hshort : ytMatchHere ("youtu.be/" +:+ id +:+ rest) = Some id).
  { unfold ytMatchHere.
    assert (E : startsWith ("youtu.be/" +:+ id +:+ rest) "youtube.com/" = false)
      by reflexivity.
    rewrite E, startsWith_app.
    change 9 with (String.length "youtu.be/").
    rewrite ArchiveFacts.drop_app. exact Hid. }
  assert (Hpath : forall kind,
            startsWith (kind +:+ id +:+ rest) "watch?" = false ->
            (if startsWith (kind +:+ id +:+ rest) "shorts/"
             then takeId 11 (drop 7 (kind +:+ id +:+ rest))
             else if startsWith (kind +:+ id +:+ rest) "live/"
                  then takeId 11 (drop 5 (kind +:+ id +:+ rest))
                  else None) = Some id ->
            ytMatchHere ("youtube.com/" +:+ kind +:+ id +:+ rest) = Some id).
  { intros kind Hw Hk. unfold ytMatchHere. rewrite startsWith_app.
    change 12 with (String.length "youtube.com/").
    rewrite ArchiveFacts.drop_app, Hw. exact Hk. }
  split; [|split; [|split; [|split]]].
  - unfold normalizeUrl. cbn [append].
    repeat (rewrite ytMatch_cons by reflexivity).
    ytFound id Hshort. reflexivity.
  - assert (E : ytMatchHere ("youtube.com/" +:+ "shorts/" +:+ id +:+ rest)
                = Some id).
    { apply Hpath; [reflexivity|]. rewrite startsWith_app.
      change 7 with (String.length "shorts/").
      rewrite ArchiveFacts.drop_app. exact Hid. }
    unfold normalizeUrl. cbn [append].
    repeat (rewrite ytMatch_cons by reflexivity).
    ytFound id E. reflexivity.
  - assert (E : ytMatchHere ("youtube.com/" +:+ "live/" +:+ id +:+ rest)
                = Some id).
    { apply Hpath; [reflexivity|].
      assert (E : startsWith ("live/" +:+ id +:+ rest) "shorts/" = false)
        by reflexivity.
      rewrite E, startsWith_app.
      change 5 with (String.length "live/").
      rewrite ArchiveFacts.drop_app. exact Hid. }
    unfold normalizeUrl. cbn [append].
    repeat (rewrite ytMatch_cons by reflexivity).
    ytFound id E. reflexivity.
  - cbn [append]. repeat (rewrite extractVideoId_cons by reflexivity).
    apply extractVideoId_here. unfold videoIdHere.
    change (String "y" (String "o" (String "u" (String "t" (String "u"
              (String "." (String "b" (String "e" (String "/"
                 (id +:+ rest))))))))))
      with ("youtu.be/" +:+ id +:+ rest).
    assert (E : startsWith ("youtu.be/" +:+ id +:+ rest) "youtube.com/watch?"
                = false) by reflexivity.
    rewrite E, startsWith_app.
    change 9 with (String.length "youtu.be/").
    rewrite ArchiveFacts.drop_app. exact Hid.
  - intros Hv. pose proof (afterWatch_single id rest Hl Hc Hv) as Hw.
    split.
    + assert (E : ytMatchHere
                    ("youtube.com/" +:+ "watch?" +:+ "v=" +:+ id +:+ rest)
                  = Some id).
      { unfold ytMatchHere. rewrite startsWith_app.
        change 12 with (String.length "youtube.com/").
        rewrite ArchiveFacts.drop_app, startsWith_app.
        change 6 with (String.length "watch?").
        rewrite ArchiveFacts.drop_app. exact Hw. }
      unfold normalizeUrl. cbn [append].
      repeat (rewrite ytMatch_cons by reflexivity).
      ytFound id E. reflexivity.
    + cbn [append]. repeat (rewrite extractVideoId_cons by reflexivity).
      apply extractVideoId_here. unfold videoIdHere.
      change (String "y" (String "o" (String "u" (String "t" (String "u"
                (String "b" (String "e" (String "." (String "c" (String "o"
                (String "m" (String "/" (String "w" (String "a" (String "t"
                (String "c" (String "h" (String "?" (String "v" (String "="
                   (id +:+ rest)))))))))))))))))))))
        with ("youtube.com/watch?" +:+ "v=" +:+ id +:+ rest).
      rewrite startsWith_app.
      change 18 with (String.length "youtube.com/watch?").
      rewrite ArchiveFacts.drop_app. exact Hw.
Qed.

End WithPlatform.

Import SimpleUrl.

Lemma extractVideoId_sound_witness :
  String.length "abcdefghijk" = 11 /\ all isIdChar "abcdefghijk" = true
  /\ isYouTube "https://www.youtube.com/watch?v=abcdefghijk&t=42s" = true
  /\ exists j,
       ytMatch "https://www.youtube.com/watch?v=abcdefghijk&t=42s" = Some j.
Proof.
  apply (extractVideoId_sound
           "https://www.youtube.com/watch?v=abcdefghijk&t=42s" "abcdefghijk").
  reflexivity.
Defined.

Lemma normalizeUrl_video_forms_witness :
  normalizeUrl ("https://youtu.be/" +:+ "abcdefghijk" +:+ "?t=42")
  = "yt:" +:+ "abcdefghijk"
  /\ normalizeUrl ("https://www.youtube.com/shorts/" +:+ "abcdefghijk"
                   +:+ "?t=42")
     = "yt:" +:+ "abcdefghijk"
  /\ normalizeUrl ("https://www.youtube.com/live/" +:+ "abcdefghijk"
                   +:+ "?t=42")
     = "yt:" +:+ "abcdefghijk"
  /\ extractVideoId ("https://youtu.be/" +:+ "abcdefghijk" +:+ "?t=42")
     = Some "abcdefghijk"
  /\ (includes ("abcdefghijk" +:+ "?t=42") "v=" = false ->
      normalizeUrl ("https://www.youtube.com/watch?v=" +:+ "abcdefghijk"
                    +:+ "?t=42")
      = "yt:" +:+ "abcdefghijk"
      /\ extractVideoId ("https://www.youtube.com/watch?v=" +:+ "abcdefghijk"
                         +:+ "?t=42")
         = Some "abcdefghijk").
Proof.
  apply (normalizeUrl_video_forms "abcdefghijk" "?t=42"); reflexivity.
Defined.

End VideoFacts.

(** ** site.ts and run.ts: pages and chunks *)

Module SitePagesFacts.
Import JS Url Site JSFacts.

(** *** What [stripCommonText] keeps *)

Lemma splitWs_nonempty (s : string) : splitWs s <> [].
Proof.
  induction s as [|c s IH]; cbn [splitWs]; [discriminate|].
  destruct (isSpace c).
  - destruct (headIsSpace s); [exact IH|discriminate].
  - destruct (splitWs s); discriminate.
Qed.

(** [split] never returns an empty array: the empty text counts for one
    word. *)
Lemma countWords_positive (s : string) : (1 <= countWords s)%Z.
Proof.
  unfold countWords. pose proof (splitWs_nonempty s).
  destruct (splitWs s); [contradiction|]. cbn [List.length]. lia.
Qed.

Lemma length_replaceAllFrom (k : nat) (s p : string) :
  String.length (replaceAllFrom k s p "") <= String.length s.
Proof.
  revert k. induction s as [|c s IH]; intros k; [reflexivity|].
  cbn [replaceAllFrom]. destruct k as [|k].
  - destruct (startsWith (String c s) p); cbn [append String.length].
    + specialize (IH (String.length p - 1)). lia.
    + specialize (IH 0). lia.
  - specialize (IH k). cbn [String.length]. lia.
Qed.

Lemma intersperse_empty (s : string) : intersperse s "" = s.
Proof. induction s as [|c s IH]; simpl; [reflexivity | rewrite IH; reflexivity]. Qed.

Lemma length_replaceAll (s p : string) :
  String.length (replaceAll s p "") <= String.length s.
Proof.
  unfold replaceAll. destruct p; [rewrite intersperse_empty; lia|].
  apply length_replaceAllFrom.
Qed.

Lemma length_collapseWs (s : string) :
  String.length (collapseWs s) <= String.length s.
Proof.
  induction s as [|c s IH]; [reflexivity|]. cbn [collapseWs].
  destruct (isSpace c); [destruct (headIsSpace s)|];
    cbn [String.length]; lia.
Qed.

Lemma length_trim (s : string) : String.length (trim s) <= String.length s.
Proof.
  unfold trim.
  assert (Hs : String.length (trimStart s) <= String.length s).
  { induction s as [|c s IH]; [reflexivity|]. cbn [trimStart].
    destruct (isSpace c); cbn [String.length]; lia. }
  assert (He : forall t, String.length (trimEnd t) <= String.length t).
  { induction t as [|c t IH]; [reflexivity|]. cbn [trimEnd].
    destruct (trimEnd t); [destruct (isSpace c)|];
      cbn [String.length] in *; lia. }
  specialize (He (trimStart s)). lia.
Qed.

Lemma length_stripChunks (common : list string) (text : string) :
  String.length
    (fold_left (fun content chunk => replaceAll content chunk "") common text)
  <= String.length text.
Proof.
  revert text. induction common as [|chunk common IH]; intros text;
    [reflexivity|].
  cbn [fold_left]. specialize (IH (replaceAll text chunk "")).
  pose proof (length_replaceAll text chunk). lia.
Qed.

(** X14. [stripCommonText] returns as many pages as it is given, in the
    same order, each with its URL and title, and with a content that is
    not longer; a page is either left as it is or its word count is taken
    again from the new content, and is then at least one, the empty
    content counting for one word. *)
Theorem stripCommonText_keeps_pages (pages : list SitePage) :
  Forall2
    (fun p p' =>
       url p' = url p /\ title p' = title p
       /\ String.length (content p') <= String.length (content p)
       /\ (p' = p
           \/ (words p' = countWords (content p') /\ (1 <= words p')%Z)))
    pages (stripCommonText pages).
Proof.
  assert (Hsame : forall l : list SitePage,
            Forall2
              (fun p p' =>
                 url p' = url p /\ title p' = title p
                 /\ String.length (content p') <= String.length (content p)
                 /\ (p' = p
                     \/ (words p' = countWords (content p')
                         /\ (1 <= words p')%Z))) l l).
  { induction l as [|p l IH]; constructor; auto 6. }
  unfold stripCommonText.
  destruct (List.length pages <? 3)%nat; [apply Hsame|].
  destruct (List.length (commonChunks pages) =? 0)%nat; [apply Hsame|].
  clear Hsame. generalize (commonChunks pages). intros common.
  induction pages as [|p pages IH]; cbn [map]; constructor; [|exact IH].
  unfold stripPage. cbn [url title content words].
  split; [reflexivity|]. split; [reflexivity|]. split.
  - pose proof (length_stripChunks common (content p)).
    pose proof (length_collapseWs
      (fold_left (fun content chunk => replaceAll content chunk "") common
         (content p))).
    pose proof (length_trim (collapseWs
      (fold_left (fun content chunk => replaceAll content chunk "") common
         (content p)))).
    lia.
  - right. split; [reflexivity|apply countWords_positive].
Qed.

(** *** How [chunkPages] fills the chunks *)

(** Every chunk after the first starts with a page that the chunk before
    it had no room for. *)
Inductive greedy (maxWords : Z) : list (list SitePage) -> Prop :=
| greedy_nil : greedy maxWords []
| greedy_one (c : list SitePage) : greedy maxWords [c]
| greedy_cons (c1 : list SitePage) (p : SitePage) (rest : list SitePage)
    (l : list (list SitePage)) :
    (Run.chunkWords c1 + words p > maxWords)%Z ->
    greedy maxWords ((p :: rest) :: l) ->
    greedy maxWords (c1 :: (p :: rest) :: l).

Lemma greedy_snoc maxWords l c p :
  greedy maxWords (l ++ [c]) ->
  (Run.chunkWords c + words p > maxWords)%Z ->
  greedy maxWords ((l ++ [c]) ++ [[p]]).
Proof.
  intros Hg Hp. induction l as [|c0 l IH].
  - cbn [app]. apply greedy_cons; [exact Hp|apply greedy_one].
  - cbn [app] in *. inversion Hg as [| c' Hc | c1 q rest l0 Hq Hg' [Hc Hl]].
    + destruct l; discriminate.
    + rewrite <- Hl in *. cbn [app]. apply greedy_cons; [exact Hq|].
      exact (IH Hg').
Qed.

Lemma greedy_extend maxWords l c p :
  greedy maxWords (l ++ [c]) -> c <> [] ->
  greedy maxWords (l ++ [c ++ [p]]).
Proof.
  intros Hg Hc. induction l as [|c0 l IH].
  - apply greedy_one.
  - cbn [app] in *. inversion Hg as [| c' Hc' | c1 q rest l0 Hq Hg' [Hc1 Hl]].
    + destruct l; discriminate.
    + assert (IH' : greedy maxWords (l ++ [c ++ [p]]))
        by (apply IH; rewrite <- Hl; exact Hg').
      destruct l as [|c2 l].
      * cbn [app] in *. injection Hl as Hl _. rewrite <- Hl.
        cbn [app]. apply greedy_cons; [exact Hq|]. apply greedy_one.
      * cbn [app] in *. injection Hl as Hl _. rewrite <- Hl in *.
        apply greedy_cons; [exact Hq|exact IH'].
Qed.

(** The chunks closed so far, and the open one when it holds a page. *)
Definition openChunks (st : Run.ChunkState) : list (list SitePage) :=
  Run.chunks st ++ match Run.current st with
                   | [] => []
                   | _ :: _ => [Run.current st]
                   end.

Record greedyInv (maxWords : Z) (st : Run.ChunkState) : Prop := {
  gi_greedy : greedy maxWords (openChunks st);
  gi_words : Run.currentWords st = Run.chunkWords (Run.current st);
  gi_first : Run.current st = [] -> Run.chunks st = []
}.

Lemma greedyInv_step maxWords st page :
  greedyInv maxWords st -> greedyInv maxWords (Run.chunkStep maxWords st page).
Proof.
  intros [Hg Hw Hf]. unfold Run.chunkStep, openChunks in *.
  destruct (Run.current st) as [|q cur] eqn:Ecur.
  - pose proof (Hf eq_refl) as Hch.
    cbn [List.length Nat.ltb Nat.leb]. rewrite andb_false_r.
    split; cbn [Run.chunks Run.current Run.currentWords];
      rewrite ?Ecur, ?Hch; cbn [app].
    + apply greedy_one.
    + rewrite Hw. reflexivity.
    + discriminate.
  - cbn [List.length Nat.ltb Nat.leb andb]. rewrite andb_true_r.
    destruct (Run.currentWords st + words page >? maxWords)%Z eqn:Egt.
    + cbn [Run.chunks Run.current Run.currentWords app]. split.
      * cbn [Run.chunks Run.current app].
        apply greedy_snoc; [exact Hg|].
        rewrite <- Hw. rewrite Z.gtb_ltb in Egt. apply Z.ltb_lt in Egt. lia.
      * reflexivity.
      * discriminate.
    + rewrite Ecur. cbn [app]. split.
      * cbn [Run.chunks Run.current].
        change (q :: cur ++ [page]) with ((q :: cur) ++ [page]).
        apply greedy_extend; [exact Hg|discriminate].
      * cbn [Run.currentWords Run.current].
        change (q :: cur ++ [page]) with ((q :: cur) ++ [page]).
        rewrite RunFacts.chunkWords_snoc, Hw. reflexivity.
      * discriminate.
Qed.

Lemma greedyInv_fold maxWords pages st :
  greedyInv maxWords st ->
  greedyInv maxWords (fold_left (Run.chunkStep maxWords) pages st).
Proof.
  revert st. induction pages as [|p pages IH]; intros st Hst; [exact Hst|].
  apply IH, greedyInv_step, Hst.
Qed.

Lemma chunkPages_open (pages : list SitePage) (maxWords : Z) :
  Run.chunkPages pages maxWords
  = openChunks (fold_left (Run.chunkStep maxWords) pages
                  {| Run.chunks := []; Run.current := [];
                     Run.currentWords := 0 |}).
Proof.
  unfold Run.chunkPages, openChunks.
  destruct (Run.current _) as [|q cur]; [|reflexivity].
  cbn. rewrite app_nil_r. reflexivity.
Qed.

Lemma greedy_adjacent maxWords l pre c1 c2 post :
  greedy maxWords l -> l = pre ++ c1 :: c2 :: post ->
  exists p rest,
    c2 = p :: rest /\ (Run.chunkWords c1 + words p > maxWords)%Z.
Proof.
  intros Hg. revert pre. induction Hg as [| c | d q rest l Hq Hg IH];
    intros pre Hl.
  - destruct pre; discriminate.
  - destruct pre as [|x [|y pre]]; discriminate.
  - destruct pre as [|x pre].
    + injection Hl as -> <- _. exists q, rest. auto.
    + injection Hl as _ Hl. apply (IH pre Hl).
Qed.

(** X15. [chunkPages] fills a chunk as long as pages fit: wherever a chunk
    is followed by another one, the first page of the second would have
    taken the first over the budget. *)
Theorem chunkPages_greedy (pages : list SitePage) (maxWords : Z)
  (pre post : list (list SitePage)) (c1 c2 : list SitePage) :
  Run.chunkPages pages maxWords = pre ++ c1 :: c2 :: post ->
  exists p rest,
    c2 = p :: rest /\ (Run.chunkWords c1 + words p > maxWords)%Z.
Proof.
  intros Hc.
  apply (greedy_adjacent maxWords (Run.chunkPages pages maxWords)
           pre c1 c2 post); [|exact Hc].
  rewrite chunkPages_open. apply greedyInv_fold.
  split; [apply greedy_nil | reflexivity | reflexivity].
Qed.

Lemma chunkPages_good (pages : list SitePage) (maxWords : Z) :
  concat (Run.chunkPages pages maxWords) = pages
  /\ Forall (RunFacts.goodChunk maxWords) (Run.chunkPages pages maxWords).
Proof.
  unfold Run.chunkPages.
  pose proof (RunFacts.chunkInv_fold maxWords pages [] _
                (RunFacts.chunkInv_init maxWords)) as [Hc Hw Hcl Hop].
  cbn [app] in Hc.
  set (st := fold_left _ _ _) in *.
  destruct (0 <? List.length (Run.current st))%nat eqn:Hlen.
  - split.
    + rewrite concat_app. cbn [concat]. rewrite app_nil_r. exact Hc.
    + apply Forall_app. split; [exact Hcl|]. constructor; [|constructor].
      destruct Hop as [He|Hg]; [|exact Hg].
      rewrite He in Hlen. discriminate.
  - split; [|exact Hcl].
    apply Nat.ltb_ge in Hlen.
    destruct (Run.current st); cbn [List.length] in Hlen; [|lia].
    rewrite app_nil_r in Hc. exact Hc.
Qed.

Lemma length_concat_nonempty {A : Type} (cs : list (list A)) :
  Forall (fun c => c <> []) cs -> List.length cs <= List.length (concat cs).
Proof.
  induction cs as [|c cs IH]; intros Hcs; [reflexivity|].
  pose proof (Forall_inv Hcs) as Hc. apply Forall_inv_tail in Hcs.
  cbn [concat List.length]. rewrite length_app. specialize (IH Hcs).
  destruct c; [contradiction|]. cbn [List.length]. lia.
Qed.

Lemma chunkWords_from (l : list SitePage) (a : Z) :
  fold_left (fun sum p => (sum + words p)%Z) l a
  = (a + Run.chunkWords l)%Z.
Proof.
  unfold Run.chunkWords. revert a. induction l as [|p l IH]; intros a.
  - cbn. lia.
  - cbn [fold_left]. rewrite IH, (IH (0 + words p)%Z). lia.
Qed.

Lemma chunkWords_app (a b : list SitePage) :
  Run.chunkWords (a ++ b) = (Run.chunkWords a + Run.chunkWords b)%Z.
Proof.
  unfold Run.chunkWords at 1. rewrite fold_left_app.
  fold (Run.chunkWords a). apply chunkWords_from.
Qed.

Lemma chunkWords_nonneg (l : list SitePage) :
  Forall (fun p => (0 <= words p)%Z) l -> (0 <= Run.chunkWords l)%Z.
Proof.
  induction l as [|p l IH]; intros Hl; [reflexivity|].
  pose proof (Forall_inv Hl) as Hp. cbv beta in Hp.
  apply Forall_inv_tail in Hl.
  change (p :: l) with ([p] ++ l). rewrite chunkWords_app.
  specialize (IH Hl). change (Run.chunkWords [p]) with (words p). lia.
Qed.

(** Pages that fit the budget together stay in the open chunk. *)
Lemma chunkFold_fits (maxWords : Z) (rest cur : list SitePage) :
  Forall (fun p => (0 <= words p)%Z) rest ->
  (Run.chunkWords (cur ++ rest) <= maxWords)%Z ->
  fold_left (Run.chunkStep maxWords) rest
    {| Run.chunks := []; Run.current := cur;
       Run.currentWords := Run.chunkWords cur |}
  = {| Run.chunks := []; Run.current := cur ++ rest;
       Run.currentWords := Run.chunkWords (cur ++ rest) |}.
Proof.
  revert cur. induction rest as [|p rest IH]; intros cur Hnn Hfit.
  - rewrite app_nil_r. reflexivity.
  - pose proof (Forall_inv Hnn) as Hp. cbv beta in Hp.
    apply Forall_inv_tail in Hnn.
    pose proof (chunkWords_nonneg rest Hnn) as Hrest.
    cbn [fold_left]. unfold Run.chunkStep at 2.
    cbn [Run.chunks Run.current Run.currentWords].
    assert (Hno : (Run.chunkWords cur + words p >? maxWords)%Z = false).
    { rewrite Z.gtb_ltb. apply Z.ltb_ge.
      change (p :: rest) with ([p] ++ rest) in Hfit.
      rewrite !chunkWords_app in Hfit.
      change (Run.chunkWords [p]) with (words p) in Hfit. lia. }
    rewrite Hno. cbn [andb Run.chunks Run.current Run.currentWords].
    rewrite <- RunFacts.chunkWords_snoc.
    replace (cur ++ p :: rest) with ((cur ++ [p]) ++ rest)
      by (rewrite <- app_assoc; reflexivity).
    apply IH; [exact Hnn|].
    rewrite <- app_assoc. exact Hfit.
Qed.

(** X16. [chunkPages] returns at most as many chunks as there are pages
    and none for no page; pages whose word counts are not negative and
    fit the budget together make one chunk; and pages that exceed the
    budget together, when there are two of them or more, make two chunks
    or more. *)
Theorem chunkPages_count (pages : list SitePage) (maxWords : Z) :
  List.length (Run.chunkPages pages maxWords) <= List.length pages
  /\ (pages <> [] ->
      Forall (fun p => (0 <= words p)%Z) pages ->
      (Run.chunkWords pages <= maxWords)%Z ->
      Run.chunkPages pages maxWords = [pages])
  /\ ((Run.chunkWords pages > maxWords)%Z -> 2 <= List.length pages ->
      2 <= List.length (Run.chunkPages pages maxWords)).
Proof.
  destruct (chunkPages_good pages maxWords) as [Hc Hg].
  split; [|split].
  - rewrite <- Hc at 2. apply length_concat_nonempty.
    eapply Forall_impl; [|exact Hg]. intros c [Hne _]. exact Hne.
  - intros Hne Hnn Hfit. unfold Run.chunkPages.
    pose proof (chunkFold_fits maxWords pages [] Hnn Hfit) as E.
    change (Run.chunkWords []) with 0%Z in E. rewrite E.
    cbn [app Run.current Run.chunks].
    destruct pages; [contradiction|reflexivity].
  - intros Hover Hlen.
    destruct (Run.chunkPages pages maxWords) as [|c [|c' cs]].
    + cbn in Hc. subst pages. cbn in Hlen. lia.
    + cbn in Hc. rewrite app_nil_r in Hc. subst c.
      apply Forall_inv in Hg. destruct Hg as [_ Hone].
      specialize (Hone Hover). lia.
    + cbn [List.length]. lia.
Qed.

(** *** The origin test of the link crawl *)

Section WithPlatform.
Context `{UrlParser}.

(** X17. The origin test of [crawlLinks] is a test on the text: every
    hyperlink of the root page whose resolved form starts with the root
    URL and holds no [#] is put in the discovery set, with one trailing
    slash removed, whatever the host of the resolved URL is. *)
Theorem crawlLinks_prefix_test (rootUrl html href : string) (u : URL) :
  In href (hrefs html) ->
  parseURL href (Some rootUrl) = Some u ->
  startsWith (toString u) rootUrl = true ->
  includes (toString u) "#" = false ->
  In (SiteFacts.discovered rootUrl (toString u)) (crawlLinksIn rootUrl html).
Proof.
  intros Hh Hp Hs Hi. unfold crawlLinksIn.
  apply SiteFacts.crawlFold_In. right. exists href.
  split; [exact Hh|]. exists u. auto.
Qed.

End WithPlatform.

Import SimpleUrl.

(** A link to another host that passes the test. *)
Lemma crawlLinks_prefix_test_witness :
  In "https://a.com.evil.org/x"
    (crawlLinksIn "https://a.com"
       "<a href='/docs'>a</a> <a href='https://a.com.evil.org/x'>b</a>")
  /\ getRootUrl "https://a.com.evil.org/x" = Some "https://a.com.evil.org".
Proof.
  split; [|reflexivity].
  apply (crawlLinks_prefix_test "https://a.com"
           "<a href='/docs'>a</a> <a href='https://a.com.evil.org/x'>b</a>"
           "https://a.com.evil.org/x"
           {| scheme := "https"; username := ""; password := "";
              host := Some "a.com.evil.org"; port := None;
              path := Segments ["x"]; query := None; fragment := None |}).
  - vm_compute. auto.
  - reflexivity.
  - reflexivity.
  - reflexivity.
Defined.

Definition twoLongPages : list SitePage :=
  [ {| url := "https://a.com/a"; title := "a"; content := "alpha";
       words := 30500 |};
    {| url := "https://a.com/b"; title := "b"; content := "beta";
       words := 30500 |} ].

Lemma chunkPages_greedy_witness :
  exists p rest,
    [ {| url := "https://a.com/b"; title := "b"; content := "beta";
         words := 30500 |} ] = p :: rest
    /\ (Run.chunkWords
          [ {| url := "https://a.com/a"; title := "a"; content := "alpha";
               words := 30500 |} ] + words p > 60000)%Z.
Proof.
  apply (chunkPages_greedy twoLongPages 60000 [] []). reflexivity.
Defined.

End SitePagesFacts.

(** ** run.ts: what a run leaves behind *)

Module PipelineFacts.
Import JS Url Storage Cdp Youtube Site Run JSFacts.

(** One case analysis on the next thing the run looks at. *)
Ltac next_case :=
  match goal with
  | |- context [match ?x with _ => _ end] => destruct x eqn:?
  | |- context [if ?x then _ else _] => destruct x eqn:?
  end.

Ltac run_cases :=
  repeat first [ progress cbn [fst snd fs events] | next_case ].

Section WithPlatform.
Context `{UrlParser}.
Context (HOME : string).

(** The archive after the three writes at the end of a run. *)
Definition persisted (c : Collaborators) (title source : string)
  (type : Kind) (words : Z) (pages : option Z) (content summary : string)
  (fs0 : FileSystem) : FileSystem :=
  let slug := generateSlug (now c) title in
  let meta := {| Storage.title := title; Storage.url := source;
                 Storage.type := type; Storage.words := words |} in
  saveHTML (nowMs c) slug
    (render c title source type (take 10 (now c)) words pages summary)
    (saveSummary (now c) (nowMs c) slug summary meta
       (saveArticle (now c) (nowMs c) slug content meta fs0)).

Lemma persist_run (c : Collaborators) (title source : string) (type : Kind)
  (words : Z) (pages : option Z) (content summary : string) (w : World) :
  persist HOME c title source type words pages content summary w
  = (Returned {| slug := generateSlug (now c) title; title := title;
                 summary := summary;
                 htmlPath := HTML_DIR HOME +:+ "/"
                             +:+ generateSlug (now c) title +:+ ".html";
                 cached := false |},
     {| fs := persisted c title source type words pages content summary (fs w);
        events := events w |}).
Proof. reflexivity. Qed.

Lemma getCachedResult_world (target : string) (type : option Kind)
  (w : World) :
  exists o,
    getCachedResult HOME target type w = (Returned o, w)
    /\ forall r, o = Some r -> cached r = true.
Proof.
  unfold getCachedResult, bind, readFs, ret.
  destruct (truthy (findByUrl (fs w) target type)) as [slug|].
  - destruct (truthy (readSummaryFile (fs w) slug)) as [text|].
    + eexists. split; [reflexivity|]. intros r [= <-]. reflexivity.
    + exists None. split; [reflexivity|discriminate].
  - exists None. split; [reflexivity|discriminate].
Qed.

Lemma extract_world (c : Collaborators) (opts : Options) (source : string)
  (w : World) :
  fs (snd (extract c opts source w)) = fs w
  /\ exists more, events (snd (extract c opts source w)) = events w ++ more.
Proof.
  unfold extract, bind, call, throw, ret.
  run_cases; split; try reflexivity;
    rewrite <- ?app_assoc; eexists; try reflexivity;
    try (symmetry; apply app_nil_r).
Qed.

(** The first lines of [runSummarize]: the URL the run is about. *)
Definition pickTarget (c : Collaborators) (opts : Options) : M string :=
  targetUrl <-
    match truthy (url opts) with
    | Some target =>
        sourceUrl <- readFs (fun fs => resolveSourceUrl HOME fs target) ;;
        ret (match sourceUrl with
             | Some source => Some source
             | None => Some target
             end)
    | None => ret (url opts)
    end ;;
  match truthy targetUrl with
  | Some target => ret target
  | None => active <- getActiveTab c ;; ret (Cdp.url active)
  end.

(** The lines of [runSummarize] after the cache check. *)
Definition summarizeFresh (c : Collaborators) (opts : Options)
  (targetUrl : string) : M SummarizeResult :=
  extracted <- extract c opts targetUrl ;;
  let '(content, title, type) := extracted in
  summary <- call (Summarize content title targetUrl type)
               (oracle c content title targetUrl type) ;;
  persist HOME c title targetUrl type (countWords content) None content
    summary.

(** [runSummarize] is its three stages in a row. *)
Lemma runSummarize_stages (c : Collaborators) (opts : Options) (w : World) :
  runSummarize HOME c opts w
  = match pickTarget c opts
            {| fs := ensureDirs (fs w); events := events w |} with
    | (Thrown e, w1) => (Thrown e, w1)
    | (Returned target, w1) =>
        match (if redo opts then (Returned None, w1)
               else getCachedResult HOME target None w1) with
        | (Returned (Some r), w2) => (Returned r, w2)
        | (Returned None, w2) => summarizeFresh c opts target w2
        | (Thrown e, w2) => (Thrown e, w2)
        end
    end.
Proof.
  unfold runSummarize, pickTarget, summarizeFresh.
  cbv beta iota zeta delta [bind updateFs readFs ret getActiveTab call throw].
  cbn [fs events].
  repeat first
    [ reflexivity
    | match goal with
      | |- context [resolveSourceUrl ?a ?b ?d] =>
          destruct (resolveSourceUrl a b d)
      | |- context [truthy ?x] => destruct (truthy x)
      | |- context [tabs c] => destruct (tabs c) as [[|? ?]|?]
      | |- context [redo opts] => destruct (redo opts)
      | |- context [getCachedResult HOME ?t None ?w0] =>
          destruct (getCachedResult HOME t None w0) as [[[?|]|?] ?]
      end ].
Qed.

Lemma pickTarget_world (c : Collaborators) (opts : Options) (w : World) :
  fs (snd (pickTarget c opts w)) = fs w
  /\ (events (snd (pickTarget c opts w)) = events w
      \/ events (snd (pickTarget c opts w)) = events w ++ [ListTabs]).
Proof.
  unfold pickTarget.
  cbv beta iota zeta delta [bind updateFs readFs ret getActiveTab call throw].
  repeat first
    [ match goal with
      | |- context [resolveSourceUrl ?a ?b ?d] =>
          destruct (resolveSourceUrl a b d)
      | |- context [truthy ?x] => destruct (truthy x)
      | |- context [tabs c] => destruct (tabs c) as [[|? ?]|?]
      end ];
    cbn [fst snd fs events]; auto.
Qed.

Lemma pickTarget_url (c : Collaborators) (opts : Options) (w : World)
  (target : string) :
  truthy (url opts) = Some target ->
  pickTarget c opts w = (Returned (RunFacts.lookedUp HOME (fs w) target), w).
Proof.
  intros Hu. unfold pickTarget, RunFacts.lookedUp.
  cbv beta iota zeta delta [bind readFs ret]. rewrite Hu.
  assert (Ht : target <> "").
  { destruct (url opts) as [[|]|]; simpl in Hu; try discriminate.
    injection Hu as <-. discriminate. }
  destruct (resolveSourceUrl HOME (fs w) target) as [source|] eqn:E.
  - rewrite (RunFacts.truthy_some _
               (RunFacts.resolveSourceUrl_truthy HOME _ _ _ E)).
    reflexivity.
  - rewrite (RunFacts.truthy_some _ Ht). reflexivity.
Qed.

Lemma summarizeFresh_world (c : Collaborators) (opts : Options)
  (target : string) (w : World) :
  match summarizeFresh c opts target w with
  | (Thrown _, w') => fs w' = fs w /\ exists more, events w' = events w ++ more
  | (Returned r, w') =>
      cached r = false
      /\ exists content type,
           fs w' = persisted c (Run.title r) target type (countWords content)
                     None content (summary r) (fs w)
           /\ Run.slug r = generateSlug (now c) (Run.title r)
           /\ oracle c content (Run.title r) target type
              = Returned (summary r)
           /\ exists before,
                events w' = events w ++ before
                            ++ [Summarize content (Run.title r) target type]
  end.
Proof.
  unfold summarizeFresh. unfold bind at 1.
  destruct (extract_world c opts target w) as [Hfs [more Hev]].
  destruct (extract c opts target w) as [[[[content title] type]|e] w1];
    cbn [fst snd] in *; [|split; [exact Hfs|exists more; exact Hev]].
  unfold bind, call.
  destruct (oracle c content title target type) as [answer|e] eqn:Ho.
  - rewrite persist_run. cbn [cached Run.title Run.slug summary fs events].
    split; [reflexivity|]. exists content, type.
    rewrite Hfs. split; [reflexivity|]. split; [reflexivity|].
    split; [exact Ho|]. exists more. rewrite Hev, <- app_assoc. reflexivity.
  - cbn [fs events]. split; [exact Hfs|].
    exists (more ++ [Summarize content title target type]).
    rewrite Hev, <- app_assoc. reflexivity.
Qed.

(** The ways a run of [runSummarize] ends, the writes of the last lines
    taken to succeed. *)
Lemma runSummarize_outcomes (c : Collaborators) (opts : Options)
  (w : World) :
  match runSummarize HOME c opts w with
  | (Thrown _, w') =>
      fs w' = ensureDirs (fs w) /\ exists more, events w' = events w ++ more
  | (Returned r, w') =>
      if cached r
      then redo opts = false /\ fs w' = ensureDirs (fs w)
           /\ (events w' = events w \/ events w' = events w ++ [ListTabs])
      else exists target content type,
             fs w' = persisted c (Run.title r) target type
                       (countWords content) None content (summary r)
                       (ensureDirs (fs w))
             /\ Run.slug r = generateSlug (now c) (Run.title r)
             /\ oracle c content (Run.title r) target type
                = Returned (summary r)
             /\ exists before,
                  events w' = events w ++ before
                              ++ [Summarize content (Run.title r) target type]
  end.
Proof.
  rewrite runSummarize_stages.
  set (w0 := {| fs := ensureDirs (fs w); events := events w |}).
  destruct (pickTarget_world c opts w0) as [Hfs Hev].
  assert (Hmore : exists more,
            events (snd (pickTarget c opts w0)) = events w ++ more).
  { destruct Hev as [->| ->];
      [exists []; symmetry; apply app_nil_r | eexists; reflexivity]. }
  destruct (pickTarget c opts w0) as [[target|e] w1]; cbn [fst snd] in *;
    [|split; [exact Hfs|exact Hmore]].
  assert (Hfresh :
    match summarizeFresh c opts target w1 with
    | (Thrown _, w') =>
        fs w' = ensureDirs (fs w) /\ exists more, events w' = events w ++ more
    | (Returned r, w') =>
        if cached r
        then redo opts = false /\ fs w' = ensureDirs (fs w)
             /\ (events w' = events w \/ events w' = events w ++ [ListTabs])
        else exists target content type,
               fs w' = persisted c (Run.title r) target type
                         (countWords content) None content (summary r)
                         (ensureDirs (fs w))
               /\ Run.slug r = generateSlug (now c) (Run.title r)
               /\ oracle c content (Run.title r) target type
                  = Returned (summary r)
               /\ exists before,
                    events w' = events w ++ before
                                ++ [Summarize content (Run.title r) target type]
    end).
  { pose proof (summarizeFresh_world c opts target w1) as Hw.
    destruct (summarizeFresh c opts target w1) as [[r|e] w2].
    - destruct Hw as (Hc & content & type & Hp & Hs & Ho & before & Hb).
      rewrite Hc. exists target, content, type. rewrite Hp, Hfs.
      split; [reflexivity|]. split; [exact Hs|]. split; [exact Ho|].
      destruct Hev as [Hev|Hev]; rewrite Hb, Hev.
      + exists before. reflexivity.
      + exists (ListTabs :: before). rewrite <- app_assoc. reflexivity.
    - destruct Hw as [Hw [more Hm]]. split; [rewrite Hw; exact Hfs|].
      destruct Hmore as [more0 Hm0]. rewrite Hm, Hm0, <- app_assoc.
      eexists. reflexivity. }
  destruct (redo opts) eqn:Hredo; [exact Hfresh|].
  destruct (getCachedResult_world target None w1) as (o & -> & Ho).
  destruct o as [r|]; [|exact Hfresh].
  rewrite (Ho r eq_refl). auto.
Qed.

(** The entries of a directory, none while it is missing. *)
Definition entries (dir : option (list File)) : list File :=
  match dir with
  | Some l => l
  | None => []
  end.

(** No file of the archive was written or removed. *)
Definition sameFiles (fs0 fs1 : FileSystem) : Prop :=
  entries (articles fs1) = entries (articles fs0)
  /\ entries (summaries fs1) = entries (summaries fs0)
  /\ entries (html fs1) = entries (html fs0).

Lemma sameFiles_ensureDirs (fs0 : FileSystem) : sameFiles fs0 (ensureDirs fs0).
Proof.
  unfold sameFiles, ensureDirs. cbn [articles summaries html].
  destruct (articles fs0), (summaries fs0), (html fs0); repeat split.
Qed.

(** The article, the summary and the page of a run are in the archive
    under one slug, each written at a time of its own: the clock is read
    anew for the date of each front matter, for the date on the page and
    for the time stamp of each file. *)
Definition writtenUnder (c : Collaborators) (slug title source : string)
  (type : Kind) (words : Z) (pages : option Z) (content summary : string)
  (fs0 fs1 : FileSystem) : Prop :=
  let meta := {| Storage.title := title; Storage.url := source;
                 Storage.type := type; Storage.words := words |} in
  exists (date1 date2 date3 : string) (ms1 ms2 ms3 : Z),
    fs1 = saveHTML ms3 slug
            (render c title source type (take 10 date3) words pages summary)
            (saveSummary date2 ms2 slug summary meta
               (saveArticle date1 ms1 slug content meta fs0)).

Lemma persisted_writtenUnder (c : Collaborators) (title source : string)
  (type : Kind) (words : Z) (pages : option Z) (content summary : string)
  (fs0 : FileSystem) :
  writtenUnder c (generateSlug (now c) title) title source type words pages
    content summary fs0
    (persisted c title source type words pages content summary fs0).
Proof.
  exists (now c), (now c), (now c), (nowMs c), (nowMs c), (nowMs c).
  reflexivity.
Qed.

(** X18. The files of the archive change only in a run of [runSummarize]
    whose last request was a summarization request that the service
    answered; with a service that answers no request, a run writes no
    file and returns nothing but a cached result.  A cached result is
    returned only without [redo], with the archive as it was but for the
    three directories, and after no request but, for a run without a URL,
    the listing of the tabs.  A fresh result is the answer of the service
    to the last request of the run, and it is written, with the content it
    was made from, under its slug, the slug of its title at some date. *)
Theorem runSummarize_archive (c : Collaborators) (opts : Options)
  (w : World) :
  exists requests,
    events (snd (runSummarize HOME c opts w)) = events w ++ requests
    /\ (~ sameFiles (fs w) (fs (snd (runSummarize HOME c opts w))) ->
        exists before content title target type answer,
          requests = before ++ [Summarize content title target type]
          /\ oracle c content title target type = Returned answer)
    /\ ((forall content title target type,
           exists e, oracle c content title target type = Thrown e) ->
        sameFiles (fs w) (fs (snd (runSummarize HOME c opts w)))
        /\ forall r, fst (runSummarize HOME c opts w) = Returned r ->
                     cached r = true)
    /\ (forall r, fst (runSummarize HOME c opts w) = Returned r ->
          cached r = true ->
          redo opts = false
          /\ fs (snd (runSummarize HOME c opts w)) = ensureDirs (fs w)
          /\ (requests = [] \/ requests = [ListTabs]))
    /\ (forall r, fst (runSummarize HOME c opts w) = Returned r ->
          cached r = false ->
          exists target content type before,
            requests = before ++ [Summarize content (Run.title r) target type]
            /\ oracle c content (Run.title r) target type
               = Returned (summary r)
            /\ (exists date, Run.slug r = generateSlug date (Run.title r))
            /\ writtenUnder c (Run.slug r) (Run.title r) target type
                 (countWords content) None content (summary r)
                 (ensureDirs (fs w))
                 (fs (snd (runSummarize HOME c opts w)))).
Proof.
  pose proof (runSummarize_outcomes c opts w) as Hrun.
  assert (Hmore : exists requests,
            events (snd (runSummarize HOME c opts w)) = events w ++ requests).
  { destruct (runSummarize HOME c opts w) as [[r|e] w']; cbn [snd].
    - destruct (cached r).
      + destruct Hrun as (_ & _ & [->| ->]);
          [exists []; symmetry; apply app_nil_r | eexists; reflexivity].
      + destruct Hrun as (? & ? & ? & _ & _ & _ & before & ->).
        eexists. reflexivity.
    - destruct Hrun as [_ Hmore]. exact Hmore. }
  destruct Hmore as [requests Hreq]. exists requests.
  split; [exact Hreq|].
  destruct (runSummarize HOME c opts w) as [[r|e] w']; cbn [fst snd] in *.
  - destruct (cached r) eqn:Hc.
    + destruct Hrun as (Hredo & Hfs & Hev).
      assert (Hsame : sameFiles (fs w) (fs w'))
        by (rewrite Hfs; apply sameFiles_ensureDirs).
      split; [intros Hn; contradiction|].
      split; [intros _; split; [exact Hsame|]; intros r0 [= <-]; exact Hc|].
      split.
      * intros r0 [= <-] _. split; [exact Hredo|]. split; [exact Hfs|].
        destruct Hev as [Hev|Hev]; rewrite Hreq in Hev.
        -- left. apply (app_inv_head (events w)).
           rewrite app_nil_r. exact Hev.
        -- right. apply (app_inv_head (events w)). exact Hev.
      * intros r0 [= <-] Hf. congruence.
    + destruct Hrun as (target & content & type & Hfs & Hslug & Ho
                        & before & Hev).
      rewrite Hreq in Hev. apply app_inv_head in Hev.
      split; [intros _; exists before, content, (Run.title r), target, type,
                (summary r); split; [exact Hev|exact Ho]|].
      split.
      * intros Hnone. destruct (Hnone content (Run.title r) target type)
          as [e He]. congruence.
      * split; [intros r0 [= <-] Ht; congruence|].
        intros r0 [= <-] _. exists target, content, type, before.
        split; [exact Hev|]. split; [exact Ho|].
        split; [exists (now c); exact Hslug|].
        rewrite Hfs, Hslug. apply persisted_writtenUnder.
  - assert (Hsame : sameFiles (fs w) (fs w'))
      by (rewrite (proj1 Hrun); apply sameFiles_ensureDirs).
    split; [intros Hn; contradiction|].
    split; [intros _; split; [exact Hsame|]; intros r0; discriminate|].
    split; intros r0; discriminate.
Qed.

Lemma resolveSourceUrl_not_page (fs0 : FileSystem) (target : string) :
  startsWith target ("file://" +:+ HTML_DIR HOME +:+ "/") = false ->
  resolveSourceUrl HOME fs0 target = None.
Proof. intros E. unfold resolveSourceUrl. rewrite E. reflexivity. Qed.

Lemma ensure_writeFile (nowMs : Z) (dir : option (list File))
  (fileName text : string) :
  match writeFile nowMs dir fileName text with
  | None => Some []
  | Some l => Some l
  end = writeFile nowMs dir fileName text.
Proof.
  unfold writeFile. destruct dir as [l|]; [|reflexivity].
  destruct (existsb _ l); reflexivity.
Qed.

Lemma ensureDirs_persisted (c : Collaborators) (title source : string)
  (type : Kind) (words : Z) (pages : option Z) (content summary : string)
  (fs0 : FileSystem) :
  ensureDirs (persisted c title source type words pages content summary fs0)
  = persisted c title source type words pages content summary fs0.
Proof.
  unfold persisted, ensureDirs, saveHTML, saveSummary, saveArticle.
  cbn [articles summaries html]. rewrite !ensure_writeFile. reflexivity.
Qed.

Lemma generateSlug_lacks_dot (now title : string) :
  lacks "." (take 10 now) = true ->
  lacks "." (generateSlug now title) = true.
Proof.
  intros Hd. rewrite ArchiveFacts.generateSlug_body. unfold lacks in *.
  rewrite !all_app, Hd. cbn [all andb]. 
  assert (Hb : all (fun d => negb (d =? ".")%char)
                 (ArchiveFacts.slugBody title) = true).
  { apply (StorageFacts.all_impl ArchiveFacts.isSlugOut);
      [|apply ArchiveFacts.slugBody_chars].
    intros [[] [] [] [] [] [] [] []]; vm_compute; congruence. }
  rewrite Hb. reflexivity.
Qed.

Lemma generateSlug_not_empty (now title : string) :
  generateSlug now title <> "".
Proof.
  rewrite ArchiveFacts.generateSlug_body. intros E.
  apply (f_equal String.length) in E.
  rewrite !ArchiveFacts.length_app in E. cbn in E. lia.
Qed.

(** X19. A URL that was just summarized is answered from the cache: after
    a run that returned a fresh summary for a URL, a run for the same URL
    without [redo] returns the stored summary under the same slug, makes
    no request and leaves the archive as it is, whatever the collaborators
    would answer.  This holds for a URL that is one line with no white
    space around it and not a page of the archive, a title of one line, a
    time stamp without a dot in its date, and an archive whose other
    articles are readable and stored for other keys. *)
Theorem runSummarize_again (c c2 : Collaborators) (opts opts2 : Options)
  (w w1 : World) (r : SummarizeResult) (target : string) :
  runSummarize HOME c opts w = (Returned r, w1) ->
  cached r = false ->
  truthy (url opts) = Some target ->
  truthy (url opts2) = Some target ->
  redo opts2 = false ->
  startsWith target ("file://" +:+ HTML_DIR HOME +:+ "/") = false ->
  ArchiveFacts.storable target = true ->
  ArchiveFacts.oneLine (Run.title r) = true ->
  lacks "." (take 10 (now c)) = true ->
  (forall l g, articles (fs w) = Some l -> In g l ->
     endsWith (name g) ".md" = true -> name g <> Run.slug r +:+ ".md" ->
     data g <> None
     /\ StorageFacts.storedKey g <> Some (normalizeUrl target)) ->
  exists r2 meta,
    runSummarize HOME c2 opts2 w1 = (Returned r2, w1)
    /\ cached r2 = true
    /\ Run.slug r2 = Run.slug r
    /\ Storage.title meta = Run.title r /\ Storage.url meta = target
    /\ readSummaryFile (fs w1) (Run.slug r)
       = Some (frontmatter (now c) meta +:+ newline +:+ newline
               +:+ summary r)
    /\ summary r2
       = trim (stripFrontmatter
                 (frontmatter (now c) meta +:+ newline +:+ newline
                  +:+ summary r)).
Proof.
  intros Hrun Hc Hu Hu2 Hredo2 Hfile Hst Hline Hdot Hothers.
  (* the first run *)
  rewrite runSummarize_stages in Hrun.
  rewrite (pickTarget_url c opts _ target Hu) in Hrun.
  unfold RunFacts.lookedUp in Hrun.
  rewrite (resolveSourceUrl_not_page _ target Hfile) in Hrun.
  set (w0 := {| fs := ensureDirs (fs w); events := events w |}) in Hrun.
  assert (Hfresh : summarizeFresh c opts target w0 = (Returned r, w1)).
  { destruct (redo opts); [exact Hrun|].
    destruct (getCachedResult_world target None w0) as (o & E & Ho).
    rewrite E in Hrun. destruct o as [r'|]; [|exact Hrun].
    injection Hrun as -> _. rewrite (Ho r eq_refl) in Hc. discriminate. }
  pose proof (summarizeFresh_world c opts target w0) as Hw.
  rewrite Hfresh in Hw.
  destruct Hw as (_ & content & type & Hfs & Hslug & _ & _).
  cbn [fs w0] in Hfs.
  set (meta := {| Storage.title := Run.title r; Storage.url := target;
                  Storage.type := type;
                  Storage.words := countWords content |}).
  set (text := frontmatter (now c) meta +:+ newline +:+ newline +:+ summary r).
  (* what the archive holds after it *)
  assert (Hread : readSummaryFile (fs w1) (Run.slug r) = Some text).
  { rewrite Hfs, Hslug. unfold readSummaryFile, persisted, saveHTML,
      saveSummary. cbn [summaries].
    rewrite ArchiveFacts.lookupFile_writeFile. reflexivity. }
  assert (Hfind : findByUrl (fs w1) target None = Some (Run.slug r)).
  { apply (ArchiveFacts.findByUrl_written (now c) (nowMs c) (Run.slug r)
             content meta (ensureDirs (fs w)) (fs w1) None).
    - rewrite Hfs, Hslug. reflexivity.
    - exact Hline.
    - exact Hst.
    - rewrite Hslug. apply generateSlug_lacks_dot, Hdot.
    - intros l g Hl Hg Hmd Hn. unfold ensureDirs in Hl. cbn [articles] in Hl.
      destruct (articles (fs w)) as [l0|] eqn:Ea.
      + injection Hl as <-. apply (Hothers l0 g eq_refl Hg Hmd Hn).
      + injection Hl as <-. destruct Hg. }
  assert (Hdirs : ensureDirs (fs w1) = fs w1)
    by (rewrite Hfs; apply ensureDirs_persisted).
  (* the second run *)
  exists (RunFacts.cachedResult HOME (Run.slug r) text), meta.
  split; [|repeat split; try reflexivity; exact Hread].
  rewrite (RunFacts.runSummarize_cached HOME c2 opts2 w1 target
             (Run.slug r) text Hredo2 Hu2).
  - rewrite Hdirs. destruct w1; reflexivity.
  - rewrite Hdirs. unfold RunFacts.lookedUp.
    rewrite (resolveSourceUrl_not_page _ target Hfile). exact Hfind.
  - rewrite Hslug. apply generateSlug_not_empty.
  - rewrite Hdirs. exact Hread.
  - unfold text. rewrite StorageFacts.frontmatter_split. discriminate.
Qed.

(** *** Sites *)

(** The first lines of [runSummarizeSite]: the URL the run is about. *)
Definition pickSiteTarget (c : Collaborators) (opts : Options) : M string :=
  targetUrl <-
    match truthy (url opts) with
    | Some target => ret target
    | None => active <- getActiveTab c ;; ret (Cdp.url active)
    end ;;
  sourceUrl <- readFs (fun fs => resolveSourceUrl HOME fs targetUrl) ;;
  ret (match sourceUrl with
       | Some source => source
       | None => targetUrl
       end).

(** The lines of [runSummarizeSite] after the cache check. *)
Definition siteFresh (c : Collaborators) (target root : string)
  : M SummarizeResult :=
  site <- call (FetchSite target) (crawled c target) ;;
  let content := formatPages (pages site) in
  summary <- summarizeSite c site root content ;;
  persist HOME c (siteTitle site) root SiteKind (totalWords site)
    (Some (Z.of_nat (List.length (pages site)))) content summary.

(** [runSummarizeSite] is its stages in a row. *)
Lemma runSummarizeSite_stages (c : Collaborators) (opts : Options)
  (w : World) :
  runSummarizeSite HOME c opts w
  = match pickSiteTarget c opts
            {| fs := ensureDirs (fs w); events := events w |} with
    | (Thrown e, w1) => (Thrown e, w1)
    | (Returned target, w1) =>
        match getRootUrl target with
        | None => (Thrown "Invalid URL", w1)
        | Some root =>
            match (if redo opts then (Returned None, w1)
                   else getCachedResult HOME root (Some SiteKind) w1) with
            | (Returned (Some r), w2) => (Returned r, w2)
            | (Returned None, w2) => siteFresh c target root w2
            | (Thrown e, w2) => (Thrown e, w2)
            end
        end
    end.
Proof.
  unfold runSummarizeSite, pickSiteTarget, siteFresh.
  cbv beta iota zeta delta [bind updateFs readFs ret getActiveTab call throw].
  cbn [fs events].
  repeat first
    [ reflexivity
    | match goal with
      | |- context [truthy ?x] => destruct (truthy x)
      | |- context [tabs c] => destruct (tabs c) as [[|? ?]|?]
      | |- context [resolveSourceUrl ?a ?b ?d] =>
          destruct (resolveSourceUrl a b d)
      | |- context [getRootUrl ?t] => destruct (getRootUrl t)
      | |- context [redo opts] => destruct (redo opts)
      | |- context [getCachedResult HOME ?t ?k ?w0] =>
          destruct (getCachedResult HOME t k w0) as [[[?|]|?] ?]
      end ].
Qed.

Lemma pickSiteTarget_world (c : Collaborators) (opts : Options) (w : World) :
  fs (snd (pickSiteTarget c opts w)) = fs w
  /\ (events (snd (pickSiteTarget c opts w)) = events w
      \/ events (snd (pickSiteTarget c opts w)) = events w ++ [ListTabs]).
Proof.
  unfold pickSiteTarget.
  cbv beta iota zeta delta [bind updateFs readFs ret getActiveTab call throw].
  repeat first
    [ match goal with
      | |- context [truthy ?x] => destruct (truthy x)
      | |- context [tabs c] => destruct (tabs c) as [[|? ?]|?]
      | |- context [resolveSourceUrl ?a ?b ?d] =>
          destruct (resolveSourceUrl a b d)
      end ];
    cbn [fst snd fs events]; auto.
Qed.

Lemma pickSiteTarget_url (c : Collaborators) (opts : Options) (w : World)
  (target : string) :
  truthy (url opts) = Some target ->
  startsWith target ("file://" +:+ HTML_DIR HOME +:+ "/") = false ->
  pickSiteTarget c opts w = (Returned target, w).
Proof.
  intros Hu Hfile. unfold pickSiteTarget.
  cbv beta iota zeta delta [bind readFs ret]. rewrite Hu.
  rewrite (resolveSourceUrl_not_page _ target Hfile). reflexivity.
Qed.

(** The summarization step asks the service last, and touches no file. *)
Lemma summarizeSite_world (c : Collaborators) (site : SiteResult)
  (root content : string) (w : World) :
  match summarizeSite c site root content w with
  | (Thrown _, w') => fs w' = fs w /\ exists more, events w' = events w ++ more
  | (Returned s, w') =>
      fs w' = fs w
      /\ exists before asked type,
           oracle c asked (siteTitle site) root type = Returned s
           /\ events w' = events w ++ before
                          ++ [Summarize asked (siteTitle site) root type]
  end.
Proof.
  unfold summarizeSite.
  destruct (totalWords site <=? MAX_SITE_WORDS)%Z.
  - unfold call.
    destruct (oracle c content (siteTitle site) root SiteKind) eqn:Ho;
      cbn [fs events]; (split; [reflexivity|]).
    + exists [], content, SiteKind. split; [exact Ho|reflexivity].
    + eexists. reflexivity.
  - unfold bind, summarizeChunks.
    destruct (allReturned _) as [partials|e].
    + unfold call.
      match goal with
      | |- context [oracle c ?m ?t ?r ?k] =>
          destruct (oracle c m t r k) eqn:Ho
      end; cbn [fs events]; (split; [reflexivity|]).
      * eexists _, _, SiteMerge. split; [exact Ho|].
        rewrite <- app_assoc. reflexivity.
      * rewrite <- app_assoc. eexists. reflexivity.
    + cbn [fs events]. split; [reflexivity|]. eexists. reflexivity.
Qed.

Lemma siteFresh_world (c : Collaborators) (target root : string)
  (w : World) :
  match siteFresh c target root w with
  | (Thrown _, w') => fs w' = fs w /\ exists more, events w' = events w ++ more
  | (Returned r, w') =>
      cached r = false
      /\ exists site,
           crawled c target = Returned site
           /\ Run.title r = siteTitle site
           /\ Run.slug r = generateSlug (now c) (siteTitle site)
           /\ fs w' = persisted c (siteTitle site) root SiteKind
                        (totalWords site)
                        (Some (Z.of_nat (List.length (pages site))))
                        (formatPages (pages site)) (summary r) (fs w)
           /\ exists before asked type,
                oracle c asked (siteTitle site) root type
                = Returned (summary r)
                /\ events w' = events w ++ before
                               ++ [Summarize asked (siteTitle site) root type]
  end.
Proof.
  unfold siteFresh. unfold bind at 1. unfold call at 1.
  destruct (crawled c target) as [site|e] eqn:Hsite;
    [|split; [reflexivity|eexists; reflexivity]].
  unfold bind.
  set (w1 := {| fs := fs w; events := events w ++ [FetchSite target] |}).
  pose proof (summarizeSite_world c site root (formatPages (pages site)) w1)
    as Hw.
  destruct (summarizeSite c site root (formatPages (pages site)) w1)
    as [[s|e] w2].
  - destruct Hw as (Hfs & before & asked & type & Ho & Hev).
    rewrite persist_run. cbn [cached Run.title Run.slug summary fs events].
    split; [reflexivity|]. exists site. rewrite Hfs.
    repeat (split; [reflexivity|]).
    exists (FetchSite target :: before), asked, type.
    split; [exact Ho|]. rewrite Hev. unfold w1. cbn [events].
    rewrite <- app_assoc. reflexivity.
  - destruct Hw as [Hfs [more Hev]]. split; [exact Hfs|].
    rewrite Hev. unfold w1. cbn [events]. rewrite <- app_assoc.
    eexists. reflexivity.
Qed.

(** The ways a run of [runSummarizeSite] ends, the writes of the last
    lines taken to succeed. *)
Lemma runSummarizeSite_outcomes (c : Collaborators) (opts : Options)
  (w : World) :
  match runSummarizeSite HOME c opts w with
  | (Thrown _, w') =>
      fs w' = ensureDirs (fs w) /\ exists more, events w' = events w ++ more
  | (Returned r, w') =>
      if cached r
      then redo opts = false /\ fs w' = ensureDirs (fs w)
           /\ (events w' = events w \/ events w' = events w ++ [ListTabs])
      else exists target root site,
             getRootUrl target = Some root
             /\ crawled c target = Returned site
             /\ Run.title r = siteTitle site
             /\ Run.slug r = generateSlug (now c) (siteTitle site)
             /\ fs w' = persisted c (siteTitle site) root SiteKind
                          (totalWords site)
                          (Some (Z.of_nat (List.length (pages site))))
                          (formatPages (pages site)) (summary r)
                          (ensureDirs (fs w))
             /\ exists before asked type,
                  oracle c asked (siteTitle site) root type
                  = Returned (summary r)
                  /\ events w' = events w ++ before
                                 ++ [Summarize asked (siteTitle site) root type]
  end.
Proof.
  rewrite runSummarizeSite_stages.
  set (w0 := {| fs := ensureDirs (fs w); events := events w |}).
  destruct (pickSiteTarget_world c opts w0) as [Hfs Hev].
  assert (Hmore : exists more,
            events (snd (pickSiteTarget c opts w0)) = events w ++ more).
  { destruct Hev as [->| ->];
      [exists []; symmetry; apply app_nil_r | eexists; reflexivity]. }
  destruct (pickSiteTarget c opts w0) as [[target|e] w1]; cbn [fst snd] in *;
    [|split; [exact Hfs|exact Hmore]].
  destruct (getRootUrl target) as [root|] eqn:Hroot;
    [|split; [exact Hfs|exact Hmore]].
  assert (Hfresh :
    match siteFresh c target root w1 with
    | (Thrown _, w') =>
        fs w' = ensureDirs (fs w) /\ exists more, events w' = events w ++ more
    | (Returned r, w') =>
        if cached r
        then redo opts = false /\ fs w' = ensureDirs (fs w)
             /\ (events w' = events w \/ events w' = events w ++ [ListTabs])
        else exists target root site,
               getRootUrl target = Some root
               /\ crawled c target = Returned site
               /\ Run.title r = siteTitle site
               /\ Run.slug r = generateSlug (now c) (siteTitle site)
               /\ fs w' = persisted c (siteTitle site) root SiteKind
                            (totalWords site)
                            (Some (Z.of_nat (List.length (pages site))))
                            (formatPages (pages site)) (summary r)
                            (ensureDirs (fs w))
               /\ exists before asked type,
                    oracle c asked (siteTitle site) root type
                    = Returned (summary r)
                    /\ events w' = events w ++ before
                                   ++ [Summarize asked (siteTitle site) root
                                         type]
    end).
  { pose proof (siteFresh_world c target root w1) as Hw.
    destruct (siteFresh c target root w1) as [[r|e] w2].
    - destruct Hw as (Hc & site & Hsite & Ht & Hs & Hp & before & asked
                      & type & Ho & Hb).
      rewrite Hc. exists target, root, site. rewrite Hp, Hfs.
      repeat (split; [assumption || reflexivity|]).
      destruct Hev as [Hev|Hev]; rewrite Hb, Hev.
      + exists before, asked, type. split; [exact Ho|reflexivity].
      + exists (ListTabs :: before), asked, type. split; [exact Ho|].
        rewrite <- app_assoc. reflexivity.
    - destruct Hw as [Hw [more Hm]]. split; [rewrite Hw; exact Hfs|].
      destruct Hmore as [more0 Hm0]. rewrite Hm, Hm0, <- app_assoc.
      eexists. reflexivity. }
  destruct (redo opts) eqn:Hredo; [exact Hfresh|].
  destruct (getCachedResult_world root (Some SiteKind) w1) as (o & -> & Ho).
  destruct o as [r|]; [|exact Hfresh].
  rewrite (Ho r eq_refl). auto.
Qed.

(** X20. The files of the archive change only in a run of
    [runSummarizeSite] whose last request was a summarization request, of
    the single pass or of the merge, that the service answered; with a
    service that answers no request, a run writes no file and returns
    nothing but a cached result.  A cached result is returned only without
    [redo], with the archive as it was but for the three directories, and
    after no request but, for a run without a URL, the listing of the
    tabs.  A fresh result is the answer of the service to the last request
    of the run; it is written under its slug, the slug of the site's title
    at some date, with the root URL of the site as its URL, the type
    [site], the word total of the site and the pages as its content. *)
Theorem runSummarizeSite_archive (c : Collaborators) (opts : Options)
  (w : World) :
  exists requests,
    events (snd (runSummarizeSite HOME c opts w)) = events w ++ requests
    /\ (~ sameFiles (fs w) (fs (snd (runSummarizeSite HOME c opts w))) ->
        exists before asked title root type answer,
          requests = before ++ [Summarize asked title root type]
          /\ oracle c asked title root type = Returned answer)
    /\ ((forall asked title root type,
           exists e, oracle c asked title root type = Thrown e) ->
        sameFiles (fs w) (fs (snd (runSummarizeSite HOME c opts w)))
        /\ forall r, fst (runSummarizeSite HOME c opts w) = Returned r ->
                     cached r = true)
    /\ (forall r, fst (runSummarizeSite HOME c opts w) = Returned r ->
          cached r = true ->
          redo opts = false
          /\ fs (snd (runSummarizeSite HOME c opts w)) = ensureDirs (fs w)
          /\ (requests = [] \/ requests = [ListTabs]))
    /\ (forall r, fst (runSummarizeSite HOME c opts w) = Returned r ->
          cached r = false ->
          exists target root site before asked type,
            getRootUrl target = Some root
            /\ crawled c target = Returned site
            /\ Run.title r = siteTitle site
            /\ requests = before ++ [Summarize asked (siteTitle site) root type]
            /\ oracle c asked (siteTitle site) root type
               = Returned (summary r)
            /\ (exists date, Run.slug r = generateSlug date (siteTitle site))
            /\ writtenUnder c (Run.slug r) (siteTitle site) root SiteKind
                 (totalWords site)
                 (Some (Z.of_nat (List.length (pages site))))
                 (formatPages (pages site)) (summary r)
                 (ensureDirs (fs w))
                 (fs (snd (runSummarizeSite HOME c opts w)))).
Proof.
  pose proof (runSummarizeSite_outcomes c opts w) as Hrun.
  assert (Hmore : exists requests,
            events (snd (runSummarizeSite HOME c opts w)) = events w ++ requests).
  { destruct (runSummarizeSite HOME c opts w) as [[r|e] w']; cbn [snd].
    - destruct (cached r).
      + destruct Hrun as (_ & _ & [->| ->]);
          [exists []; symmetry; apply app_nil_r | eexists; reflexivity].
      + destruct Hrun as (? & ? & ? & _ & _ & _ & _ & _ & ? & ? & ? & _ & ->).
        eexists. reflexivity.
    - destruct Hrun as [_ Hmore]. exact Hmore. }
  destruct Hmore as [requests Hreq]. exists requests.
  split; [exact Hreq|].
  destruct (runSummarizeSite HOME c opts w) as [[r|e] w']; cbn [fst snd] in *.
  - destruct (cached r) eqn:Hc.
    + destruct Hrun as (Hredo & Hfs & Hev).
      assert (Hsame : sameFiles (fs w) (fs w'))
        by (rewrite Hfs; apply sameFiles_ensureDirs).
      split; [intros Hn; contradiction|].
      split; [intros _; split; [exact Hsame|]; intros r0 [= <-]; exact Hc|].
      split.
      * intros r0 [= <-] _. split; [exact Hredo|]. split; [exact Hfs|].
        destruct Hev as [Hev|Hev]; rewrite Hreq in Hev.
        -- left. apply (app_inv_head (events w)).
           rewrite app_nil_r. exact Hev.
        -- right. apply (app_inv_head (events w)). exact Hev.
      * intros r0 [= <-] Hf. congruence.
    + destruct Hrun as (target & root & site & Hroot & Hsite & Htitle & Hslug
                        & Hfs & before & asked & type & Ho & Hev).
      rewrite Hreq in Hev. apply app_inv_head in Hev.
      split; [intros _; exists before, asked, (siteTitle site), root, type,
                (summary r); split; [exact Hev|exact Ho]|].
      split.
      * intros Hnone. destruct (Hnone asked (siteTitle site) root type)
          as [e He]. congruence.
      * split; [intros r0 [= <-] Ht; congruence|].
        intros r0 [= <-] _. exists target, root, site, before, asked, type.
        split; [exact Hroot|]. split; [exact Hsite|]. split; [exact Htitle|].
        split; [exact Hev|]. split; [exact Ho|].
        split; [exists (now c); exact Hslug|].
        rewrite Hfs, Hslug. apply persisted_writtenUnder.
  - assert (Hsame : sameFiles (fs w) (fs w'))
      by (rewrite (proj1 Hrun); apply sameFiles_ensureDirs).
    split; [intros Hn; contradiction|].
    split; [intros _; split; [exact Hsame|]; intros r0; discriminate|].
    split; intros r0; discriminate.
Qed.

(** What the three writes of a run leave for the next lookup. *)
Lemma persisted_found (c : Collaborators) (title source : string)
  (type : Kind) (words : Z) (pages : option Z) (content summary : string)
  (fs0 : FileSystem) :
  ArchiveFacts.oneLine title = true ->
  ArchiveFacts.storable source = true ->
  lacks "." (take 10 (now c)) = true ->
  (forall l g, articles fs0 = Some l -> In g l ->
     endsWith (name g) ".md" = true ->
     name g <> generateSlug (now c) title +:+ ".md" ->
     data g <> None
     /\ StorageFacts.storedKey g <> Some (normalizeUrl source)) ->
  let meta := {| Storage.title := title; Storage.url := source;
                 Storage.type := type; Storage.words := words |} in
  let fs1 := persisted c title source type words pages content summary
               (ensureDirs fs0) in
  findByUrl fs1 source None = Some (generateSlug (now c) title)
  /\ readSummaryFile fs1 (generateSlug (now c) title)
     = Some (frontmatter (now c) meta +:+ newline +:+ newline +:+ summary)
  /\ ensureDirs fs1 = fs1.
Proof.
  intros Hline Hst Hdot Hothers meta fs1. split; [|split].
  - apply (ArchiveFacts.findByUrl_written (now c) (nowMs c)
             (generateSlug (now c) title) content meta (ensureDirs fs0)
             fs1 None).
    + reflexivity.
    + exact Hline.
    + exact Hst.
    + apply generateSlug_lacks_dot, Hdot.
    + intros l g Hl Hg Hmd Hn. unfold ensureDirs in Hl. cbn [articles] in Hl.
      destruct (articles fs0) as [l0|] eqn:Ea.
      * injection Hl as <-. apply (Hothers l0 g eq_refl Hg Hmd Hn).
      * injection Hl as <-. destruct Hg.
  - unfold fs1, readSummaryFile, persisted, saveHTML, saveSummary.
    cbn [summaries]. rewrite ArchiveFacts.lookupFile_writeFile. reflexivity.
  - apply ensureDirs_persisted.
Qed.

(** The first run of a site, read back. *)
Lemma site_stored (c : Collaborators) (opts : Options) (w w1 : World)
  (r : SummarizeResult) (target root : string) :
  runSummarizeSite HOME c opts w = (Returned r, w1) ->
  cached r = false ->
  truthy (url opts) = Some target ->
  startsWith target ("file://" +:+ HTML_DIR HOME +:+ "/") = false ->
  getRootUrl target = Some root ->
  ArchiveFacts.storable root = true ->
  ArchiveFacts.oneLine (Run.title r) = true ->
  lacks "." (take 10 (now c)) = true ->
  (forall l g, articles (fs w) = Some l -> In g l ->
     endsWith (name g) ".md" = true -> name g <> Run.slug r +:+ ".md" ->
     data g <> None
     /\ StorageFacts.storedKey g <> Some (normalizeUrl root)) ->
  exists meta,
    Storage.title meta = Run.title r /\ Storage.url meta = root
    /\ Storage.type meta = SiteKind
    /\ findByUrl (fs w1) root None = Some (Run.slug r)
    /\ readSummaryFile (fs w1) (Run.slug r)
       = Some (frontmatter (now c) meta +:+ newline +:+ newline
               +:+ summary r)
    /\ ensureDirs (fs w1) = fs w1
    /\ Run.slug r <> "".
Proof.
  intros Hrun Hc Hu Hfile Hroot Hst Hline Hdot Hothers.
  rewrite runSummarizeSite_stages in Hrun.
  rewrite (pickSiteTarget_url c opts _ target Hu Hfile), Hroot in Hrun.
  set (w0 := {| fs := ensureDirs (fs w); events := events w |}) in Hrun.
  assert (Hfresh : siteFresh c target root w0 = (Returned r, w1)).
  { destruct (redo opts); [exact Hrun|].
    destruct (getCachedResult_world root (Some SiteKind) w0) as (o & E & Ho).
    rewrite E in Hrun. destruct o as [r'|]; [|exact Hrun].
    injection Hrun as -> _. rewrite (Ho r eq_refl) in Hc. discriminate. }
  pose proof (siteFresh_world c target root w0) as Hw.
  rewrite Hfresh in Hw.
  destruct Hw as (_ & site & _ & Ht & Hslug & Hfs & _).
  cbn [fs w0] in Hfs. rewrite Ht in Hline. rewrite Hslug in Hothers.
  destruct (persisted_found c (siteTitle site) root SiteKind (totalWords site)
              (Some (Z.of_nat (List.length (pages site))))
              (formatPages (pages site)) (summary r) (fs w)
              Hline Hst Hdot Hothers) as (Hfind & Hread & Hdirs).
  rewrite <- Hfs, <- Hslug in Hfind, Hread. rewrite <- Hfs in Hdirs.
  exists {| Storage.title := Run.title r; Storage.url := root;
            Storage.type := SiteKind; Storage.words := totalWords site |}.
  rewrite Ht. repeat (split; [reflexivity|]).
  split; [exact Hfind|]. split; [exact Hread|]. split; [exact Hdirs|].
  rewrite Hslug. apply generateSlug_not_empty.
Qed.

(** X21. A site is summarized once: after a run of [runSummarizeSite]
    that returned a fresh summary for one page of a site, a run without
    [redo] for any page with the same root URL returns the stored summary
    under the same slug, asks for nothing (the site is not fetched again)
    and leaves the archive as it is.  This holds for URLs that are not
    pages of the archive, a root URL that is one line with no white space
    around it, a site title of one line, a time stamp without a dot in
    its date, and an archive whose other articles are readable and stored
    for other keys. *)
Theorem runSummarizeSite_again (c c2 : Collaborators) (opts opts2 : Options)
  (w w1 : World) (r : SummarizeResult) (target target2 root : string) :
  runSummarizeSite HOME c opts w = (Returned r, w1) ->
  cached r = false ->
  truthy (url opts) = Some target ->
  truthy (url opts2) = Some target2 ->
  redo opts2 = false ->
  startsWith target ("file://" +:+ HTML_DIR HOME +:+ "/") = false ->
  startsWith target2 ("file://" +:+ HTML_DIR HOME +:+ "/") = false ->
  getRootUrl target = Some root ->
  getRootUrl target2 = Some root ->
  ArchiveFacts.storable root = true ->
  ArchiveFacts.oneLine (Run.title r) = true ->
  lacks "." (take 10 (now c)) = true ->
  (forall l g, articles (fs w) = Some l -> In g l ->
     endsWith (name g) ".md" = true -> name g <> Run.slug r +:+ ".md" ->
     data g <> None
     /\ StorageFacts.storedKey g <> Some (normalizeUrl root)) ->
  exists r2 meta,
    runSummarizeSite HOME c2 opts2 w1 = (Returned r2, w1)
    /\ cached r2 = true
    /\ Run.slug r2 = Run.slug r
    /\ Storage.title meta = Run.title r /\ Storage.url meta = root
    /\ Storage.type meta = SiteKind
    /\ summary r2
       = trim (stripFrontmatter
                 (frontmatter (now c) meta +:+ newline +:+ newline
                  +:+ summary r)).
Proof.
  intros Hrun Hc Hu Hu2 Hredo2 Hfile Hfile2 Hroot Hroot2 Hst Hline Hdot
    Hothers.
  destruct (site_stored c opts w w1 r target root Hrun Hc Hu Hfile Hroot Hst
              Hline Hdot Hothers)
    as (meta & Ht & Hm & Hk & Hfind & Hread & Hdirs & Hne).
  set (text := frontmatter (now c) meta +:+ newline +:+ newline
               +:+ summary r) in *.
  exists (RunFacts.cachedResult HOME (Run.slug r) text), meta.
  split; [|repeat split; assumption || reflexivity].
  rewrite runSummarizeSite_stages, Hdirs.
  replace {| fs := fs w1; events := events w1 |} with w1
    by (destruct w1; reflexivity).
  rewrite (pickSiteTarget_url c2 opts2 w1 target2 Hu2 Hfile2), Hroot2, Hredo2.
  rewrite (RunFacts.getCachedResult_hit HOME root (Some SiteKind) w1
             (Run.slug r) text Hfind).
  - reflexivity.
  - exact Hne.
  - exact Hread.
  - unfold text. rewrite StorageFacts.frontmatter_split. discriminate.
Qed.

(** X22. The lookup of a page summary does not tell a site from a page:
    after a run of [runSummarizeSite] that returned a fresh summary, a run
    of [runSummarize] without [redo] for the root URL of the site returns
    the summary of the site, stored with the type [site], and extracts
    and summarizes nothing.  The conditions are those of the repeated site
    run. *)
Theorem runSummarize_after_site (c c2 : Collaborators) (opts opts2 : Options)
  (w w1 : World) (r : SummarizeResult) (target root : string) :
  runSummarizeSite HOME c opts w = (Returned r, w1) ->
  cached r = false ->
  truthy (url opts) = Some target ->
  truthy (url opts2) = Some root ->
  redo opts2 = false ->
  startsWith target ("file://" +:+ HTML_DIR HOME +:+ "/") = false ->
  startsWith root ("file://" +:+ HTML_DIR HOME +:+ "/") = false ->
  getRootUrl target = Some root ->
  ArchiveFacts.storable root = true ->
  ArchiveFacts.oneLine (Run.title r) = true ->
  lacks "." (take 10 (now c)) = true ->
  (forall l g, articles (fs w) = Some l -> In g l ->
     endsWith (name g) ".md" = true -> name g <> Run.slug r +:+ ".md" ->
     data g <> None
     /\ StorageFacts.storedKey g <> Some (normalizeUrl root)) ->
  exists r2 meta,
    runSummarize HOME c2 opts2 w1 = (Returned r2, w1)
    /\ cached r2 = true
    /\ Run.slug r2 = Run.slug r
    /\ Storage.title meta = Run.title r /\ Storage.url meta = root
    /\ Storage.type meta = SiteKind
    /\ summary r2
       = trim (stripFrontmatter
                 (frontmatter (now c) meta +:+ newline +:+ newline
                  +:+ summary r)).
Proof.
  intros Hrun Hc Hu Hu2 Hredo2 Hfile Hfile2 Hroot Hst Hline Hdot Hothers.
  destruct (site_stored c opts w w1 r target root Hrun Hc Hu Hfile Hroot Hst
              Hline Hdot Hothers)
    as (meta & Ht & Hm & Hk & Hfind & Hread & Hdirs & Hne).
  set (text := frontmatter (now c) meta +:+ newline +:+ newline
               +:+ summary r) in *.
  exists (RunFacts.cachedResult HOME (Run.slug r) text), meta.
  split; [|repeat split; assumption || reflexivity].
  rewrite (RunFacts.runSummarize_cached HOME c2 opts2 w1 root
             (Run.slug r) text Hredo2 Hu2).
  - rewrite Hdirs. destruct w1; reflexivity.
  - rewrite Hdirs. unfold RunFacts.lookedUp.
    rewrite (resolveSourceUrl_not_page _ root Hfile2). exact Hfind.
  - exact Hne.
  - rewrite Hdirs. exact Hread.
  - unfold text. rewrite StorageFacts.frontmatter_split. discriminate.
Qed.

End WithPlatform.

(** *** A run and its repetition *)

Import SimpleUrl.

Definition home : string := "/home/u/.elsummariz00r".

(** A browser with the page open and a service that answers. *)
Definition reader : Collaborators :=
  {| tabs := Returned [ {| Cdp.id := "7"; Cdp.title := "A guide";
                           Cdp.url := "https://a.com/guide" |} ];
     tabText := fun _ => Returned "one two three";
     opened := fun _ => Thrown "not needed";
     captions := fun _ => Thrown "not needed";
     crawled := fun _ => Thrown "not needed";
     oracle := fun _ _ _ _ => Returned "TL;DR: a guide.";
     render := fun _ _ _ _ _ _ _ => "<html></html>";
     now := "2024-03-05T08:30:00.000Z";
     nowMs := 1709627400000 |}.

(** Nothing answers. *)
Definition unplugged : Collaborators :=
  {| tabs := Thrown "offline";
     tabText := fun _ => Thrown "offline";
     opened := fun _ => Thrown "offline";
     captions := fun _ => Thrown "offline";
     crawled := fun _ => Thrown "offline";
     oracle := fun _ _ _ _ => Thrown "offline";
     render := fun _ _ _ _ _ _ _ => "";
     now := "2024-03-06T09:00:00.000Z";
     nowMs := 1709715600000 |}.

Definition askGuide : Options :=
  {| url := Some "https://a.com/guide"; optTitle := None; redo := false |}.

Definition atStart : World :=
  {| fs := {| articles := None; summaries := None; html := None |};
     events := [] |}.

Definition firstResult : SummarizeResult :=
  {| slug := "2024-03-05_a-guide"; title := "A guide";
     summary := "TL;DR: a guide.";
     htmlPath := "/home/u/.elsummariz00r/html/2024-03-05_a-guide.html";
     cached := false |}.

Definition afterFirst : World := snd (runSummarize home reader askGuide atStart).

Example runSummarize_first_run :
  fst (runSummarize home reader askGuide atStart) = Returned firstResult
  /\ events afterFirst
     = [ ListTabs; ExtractText "7";
         Summarize "one two three" "A guide" "https://a.com/guide" Web ].
Proof. vm_compute. repeat split. Qed.

(** With nothing that answers, the same request throws and leaves the
    three directories, empty. *)
Example runSummarize_unplugged :
  runSummarize home unplugged askGuide atStart
  = (Thrown "offline",
     {| fs := {| articles := Some []; summaries := Some []; html := Some [] |};
        events := [ListTabs] |}).
Proof. vm_compute. reflexivity. Qed.

Lemma runSummarize_again_witness :
  exists r2 meta,
    runSummarize home unplugged askGuide afterFirst = (Returned r2, afterFirst)
    /\ cached r2 = true
    /\ Run.slug r2 = Run.slug firstResult
    /\ Storage.title meta = Run.title firstResult
    /\ Storage.url meta = "https://a.com/guide"
    /\ readSummaryFile (fs afterFirst) (Run.slug firstResult)
       = Some (frontmatter (now reader) meta +:+ newline +:+ newline
               +:+ summary firstResult)
    /\ summary r2
       = trim (stripFrontmatter
                 (frontmatter (now reader) meta +:+ newline +:+ newline
                  +:+ summary firstResult)).
Proof.
  apply (runSummarize_again home reader unplugged askGuide askGuide atStart
           afterFirst firstResult "https://a.com/guide");
    try reflexivity.
  intros l g Hl. discriminate Hl.
Defined.

(** *** A site and its repetition *)

Definition docsSite : SiteResult :=
  {| rootUrl := "https://a.com"; siteTitle := "A site";
     pages := [ {| Site.url := "https://a.com/docs"; Site.title := "Docs";
                   Site.content := "how to use it"; Site.words := 30 |} ];
     totalWords := 30 |}.

(** A crawler and a service that answer. *)
Definition surveyor : Collaborators :=
  {| tabs := Thrown "not needed";
     tabText := fun _ => Thrown "not needed";
     opened := fun _ => Thrown "not needed";
     captions := fun _ => Thrown "not needed";
     crawled := fun _ => Returned docsSite;
     oracle := fun _ _ _ _ => Returned "TL;DR: a site.";
     render := fun _ _ _ _ _ _ _ => "<html></html>";
     now := "2024-03-05T08:30:00.000Z";
     nowMs := 1709627400000 |}.

Definition askDocs : Options :=
  {| url := Some "https://a.com/docs"; optTitle := None; redo := false |}.

Definition askBlog : Options :=
  {| url := Some "https://a.com/blog/1"; optTitle := None; redo := false |}.

Definition askFront : Options :=
  {| url := Some "https://a.com"; optTitle := None; redo := false |}.

Definition siteResult : SummarizeResult :=
  {| slug := "2024-03-05_a-site"; title := "A site";
     summary := "TL;DR: a site.";
     htmlPath := "/home/u/.elsummariz00r/html/2024-03-05_a-site.html";
     cached := false |}.

Definition afterSite : World :=
  snd (runSummarizeSite home surveyor askDocs atStart).

Example runSummarizeSite_first_run :
  fst (runSummarizeSite home surveyor askDocs atStart) = Returned siteResult
  /\ events afterSite
     = [ FetchSite "https://a.com/docs";
         Summarize ("--- Docs (https://a.com/docs) ---" +:+ newline
                    +:+ "how to use it") "A site" "https://a.com" SiteKind ].
Proof. vm_compute. repeat split. Qed.

Lemma runSummarizeSite_again_witness :
  exists r2 meta,
    runSummarizeSite home unplugged askBlog afterSite = (Returned r2, afterSite)
    /\ cached r2 = true
    /\ Run.slug r2 = Run.slug siteResult
    /\ Storage.title meta = Run.title siteResult
    /\ Storage.url meta = "https://a.com"
    /\ Storage.type meta = SiteKind
    /\ summary r2
       = trim (stripFrontmatter
                 (frontmatter (now surveyor) meta +:+ newline +:+ newline
                  +:+ summary siteResult)).
Proof.
  apply (runSummarizeSite_again home surveyor unplugged askDocs askBlog
           atStart afterSite siteResult "https://a.com/docs"
           "https://a.com/blog/1" "https://a.com");
    try reflexivity.
  intros l g Hl. discriminate Hl.
Defined.

Lemma runSummarize_after_site_witness :
  exists r2 meta,
    runSummarize home unplugged askFront afterSite = (Returned r2, afterSite)
    /\ cached r2 = true
    /\ Run.slug r2 = Run.slug siteResult
    /\ Storage.title meta = Run.title siteResult
    /\ Storage.url meta = "https://a.com"
    /\ Storage.type meta = SiteKind
    /\ summary r2
       = trim (stripFrontmatter
                 (frontmatter (now surveyor) meta +:+ newline +:+ newline
                  +:+ summary siteResult)).
Proof.
  apply (runSummarize_after_site home surveyor unplugged askDocs askFront
           atStart afterSite siteResult "https://a.com/docs"
           "https://a.com");
    try reflexivity.
  intros l g Hl. discriminate Hl.
Defined.

End PipelineFacts.

(** ** site.ts: what [fetchSite] returns *)

Module SiteFetchFacts.
Import JS Url Site SiteFetch JSFacts.

Section WithNetwork.
Context `{UrlParser}.
Context (get : string -> option (bool * string)).

Lemma filter_Forall {A : Type} (f : A -> bool) (l : list A) :
  Forall (fun x => f x = true) (filter f l).
Proof.
  apply Forall_forall. intros x Hx. apply filter_In in Hx as [_ Hx].
  exact Hx.
Qed.

(** What every result of [fetchSite] is made of. *)
Lemma fetchSite_returned (url : string) (site : SiteResult) :
  fetchSite get url = Run.Returned site ->
  exists fetched,
    getRootUrl url = Some (rootUrl site)
    /\ pages site
       = filter (fun p => (20 <? words p)%Z) (stripCommonText fetched)
    /\ totalWords site = Run.chunkWords (pages site).
Proof.
  unfold fetchSite.
  destruct (getRootUrl url) as [root|]; [|discriminate].
  destruct (match fetchSitemap get root with
            | Some urls => Some urls
            | None => crawlLinks (fun u => option_map snd (get u)) root
            end) as [pageUrls|]; [|discriminate].
  destruct (List.length pageUrls =? 0)%nat; [discriminate|].
  destruct (allSome (map (fetchPage get) pageUrls)) as [fetched|];
    [|discriminate].
  destruct (Run.truthy _) as [t|].
  - intros [= <-]. exists fetched. cbn [rootUrl pages totalWords]. auto.
  - destruct (parseURL root None) as [u|]; [|discriminate].
    intros [= <-]. exists fetched. cbn [rootUrl pages totalWords]. auto.
Qed.

(** X23. A site that [fetchSite] returns carries the root URL of the URL
    asked for, only pages of more than 20 words, and as its total the sum
    of the word counts of these pages; when that total exceeds the budget
    of a single pass and the site has two pages or more, [chunkPages]
    splits it into two chunks or more. *)
Theorem fetchSite_result (url : string) (site : SiteResult) :
  fetchSite get url = Run.Returned site ->
  getRootUrl url = Some (rootUrl site)
  /\ Forall (fun p => (20 < words p)%Z) (pages site)
  /\ totalWords site = Run.chunkWords (pages site)
  /\ ((totalWords site > Run.MAX_SITE_WORDS)%Z ->
      2 <= List.length (pages site) ->
      2 <= List.length (Run.chunkPages (pages site) Run.MAX_SITE_WORDS)).
Proof.
  intros Hf. destruct (fetchSite_returned url site Hf) as (l & Hr & Hp & Ht).
  split; [exact Hr|]. split; [|split; [exact Ht|]].
  - rewrite Hp. eapply Forall_impl; [|apply filter_Forall].
    intros p Hw. apply Z.ltb_lt, Hw.
  - rewrite Ht. intros Hover Hlen.
    destruct (SitePagesFacts.chunkPages_good (pages site) Run.MAX_SITE_WORDS)
      as [Hc Hg].
    destruct (Run.chunkPages (pages site) Run.MAX_SITE_WORDS)
      as [|c [|c' cs]].
    + cbn in Hc. rewrite <- Hc in Hlen. cbn in Hlen. lia.
    + cbn in Hc. rewrite app_nil_r in Hc. subst c.
      apply Forall_inv in Hg. destruct Hg as [_ Hone].
      specialize (Hone Hover). lia.
    + cbn [List.length]. lia.
Qed.

(** X24. The list of page URLs that [fetchSite] works on is never empty:
    a site map gives a list only when it names a page, and the link crawl
    always gives the root URL.  The error [No pages found on site] of
    [fetchSite] is therefore never thrown. *)
Theorem fetchSite_pages_found (url : string) :
  match fetchSite get url with
  | Run.Thrown e => (e =? "No pages found on site") = false
  | Run.Returned _ => True
  end.
Proof.
  unfold fetchSite.
  destruct (getRootUrl url) as [root|]; [|reflexivity].
  assert (Hne : forall pageUrls,
            match fetchSitemap get root with
            | Some urls => Some urls
            | None => crawlLinks (fun u => option_map snd (get u)) root
            end = Some pageUrls ->
            (List.length pageUrls =? 0)%nat = false).
  { intros pageUrls. unfold fetchSitemap.
    destruct (get (root +:+ "/sitemap.xml")) as [[ok xml]|].
    - destruct (negb ok).
      + unfold crawlLinks. destruct (option_map snd (get root)) as [html|];
          [|discriminate].
        intros [= <-].
        assert (Hin : In root (crawlLinksIn root html))
          by (apply SiteFacts.crawlFold_In; left; left; reflexivity).
        destruct (crawlLinksIn root html); [destruct Hin|reflexivity].
      + destruct (negb (includes xml "<urlset")).
        * unfold crawlLinks. destruct (option_map snd (get root)) as [html|];
            [|discriminate].
          intros [= <-].
          assert (Hin : In root (crawlLinksIn root html))
            by (apply SiteFacts.crawlFold_In; left; left; reflexivity).
          destruct (crawlLinksIn root html); [destruct Hin|reflexivity].
        * destruct (0 <? List.length (locsFrom 0 xml))%nat eqn:E.
          -- intros [= <-]. destruct (locsFrom 0 xml); [discriminate|reflexivity].
          -- unfold crawlLinks.
             destruct (option_map snd (get root)) as [html|]; [|discriminate].
             intros [= <-].
             assert (Hin : In root (crawlLinksIn root html))
               by (apply SiteFacts.crawlFold_In; left; left; reflexivity).
             destruct (crawlLinksIn root html); [destruct Hin|reflexivity].
    - unfold crawlLinks. destruct (option_map snd (get root)) as [html|];
        [|discriminate].
      intros [= <-].
      assert (Hin : In root (crawlLinksIn root html))
        by (apply SiteFacts.crawlFold_In; left; left; reflexivity).
      destruct (crawlLinksIn root html); [destruct Hin|reflexivity]. }
  destruct (match fetchSitemap get root with
            | Some urls => Some urls
            | None => crawlLinks (fun u => option_map snd (get u)) root
            end) as [pageUrls|]; [|reflexivity].
  rewrite (Hne pageUrls eq_refl).
  destruct (allSome (map (fetchPage get) pageUrls)) as [fetched|];
    [|reflexivity].
  destruct (Run.truthy _); [exact I|].
  destruct (parseURL root None); [exact I|reflexivity].
Qed.

End WithNetwork.

(** *** Text and title of a page *)

Lemma toLowerChar_lt (b : ascii) :
  (Storage.toLowerChar b =? "<")%char = (b =? "<")%char.
Proof. destruct b as [[] [] [] [] [] [] [] []]; reflexivity. Qed.

Lemma startsWithCI_other (c : ascii) (s p : string) :
  (c =? "<")%char = false -> startsWithCI (String c s) (String "<" p) = false.
Proof. intros E. cbn [startsWithCI]. rewrite toLowerChar_lt, E. reflexivity. Qed.

Lemma lacks_cons (c d : ascii) (s : string) :
  lacks c (String d s) = true -> (d =? c)%char = false /\ lacks c s = true.
Proof.
  unfold lacks. cbn [all]. rewrite andb_true_iff, negb_true_iff. auto.
Qed.

Lemma removeElementsFrom_prefix (tag a x : string) :
  lacks "<" a = true ->
  removeElementsFrom tag 0 (a +:+ x) = a +:+ removeElementsFrom tag 0 x.
Proof.
  induction a as [|c a IH]; intros Ha; [reflexivity|].
  apply lacks_cons in Ha as [Hc Ha].
  cbn [append removeElementsFrom]. unfold elementHere.
  change ("<" +:+ tag) with (String "<" tag).
  rewrite (startsWithCI_other c _ tag Hc), (IH Ha). reflexivity.
Qed.

Lemma removeElementsFrom_skip (tag y b : string) :
  removeElementsFrom tag (String.length y) (y +:+ b)
  = removeElementsFrom tag 0 b.
Proof.
  induction y as [|c y IH]; cbn [append String.length removeElementsFrom].
  - destruct b; reflexivity.
  - exact IH.
Qed.

Lemma removeElements_plain (tag s : string) :
  lacks "<" s = true -> removeElements tag s = s.
Proof.
  intros Hs. unfold removeElements.
  rewrite <- (append_empty_r s) at 1.
  rewrite (removeElementsFrom_prefix tag s "" Hs). apply append_empty_r.
Qed.

Lemma replaceTagsFrom_plain (s : string) :
  lacks "<" s = true -> replaceTagsFrom 0 s = s.
Proof.
  induction s as [|c s IH]; intros Hs; [reflexivity|].
  apply lacks_cons in Hs as [Hc Hs].
  cbn [replaceTagsFrom tagHere]. unfold isLt. rewrite Hc, (IH Hs).
  reflexivity.
Qed.

Lemma afterFirstCI_plain (p y b : string) :
  lacks "<" y = true ->
  startsWithCI (String "<" p +:+ b) (String "<" p) = true ->
  afterFirstCI (String "<" p) (y +:+ String "<" p +:+ b) = Some b.
Proof.
  intros Hy Hp. induction y as [|c y IH].
  - cbn [append] in Hp |- *. cbn [afterFirstCI]. rewrite Hp. f_equal.
    apply (ArchiveFacts.drop_app (String "<" p) b).
  - apply lacks_cons in Hy as [Hc Hy].
    cbn [append afterFirstCI].
    rewrite (startsWithCI_other c _ p Hc). apply IH, Hy.
Qed.

(** X25. [htmlToText] leaves a text without markup as it is, but for the
    white space: a text with no [<] and no [&] comes back with every run
    of white space made one space and none at either end. *)
Theorem htmlToText_plain (s : string) :
  lacks "<" s = true -> lacks "&" s = true ->
  htmlToText s = trim (collapseWs s).
Proof.
  intros Hl Ha. unfold htmlToText.
  rewrite !(removeElements_plain _ s Hl), (replaceTagsFrom_plain s Hl).
  unfold replaceAll.
  rewrite !(replaceAllFrom_lacks "&" _ _ s Ha). reflexivity.
Qed.

(** X26. A script element is taken out of the text of a page with all it
    holds: for a text before it without [<], attributes without [>] and a
    script without [<], the text of the page is the text of what is
    around the element. *)
Theorem htmlToText_script (before attrs script after : string) :
  lacks "<" before = true -> lacks ">" attrs = true ->
  lacks "<" script = true ->
  htmlToText (before +:+ "<script" +:+ attrs +:+ ">" +:+ script
              +:+ "</script>" +:+ after)
  = htmlToText (before +:+ after).
Proof.
  intros Hb Ha Hs. unfold htmlToText.
  assert (E : removeElements "script"
                (before +:+ "<script" +:+ attrs +:+ ">" +:+ script
                 +:+ "</script>" +:+ after)
              = removeElements "script" (before +:+ after)).
  { unfold removeElements. rewrite !(removeElementsFrom_prefix _ before _ Hb).
    f_equal.
    set (y := "script" +:+ attrs +:+ ">" +:+ script +:+ "</script>").
    assert (Hx : "<script" +:+ attrs +:+ ">" +:+ script +:+ "</script>"
                 +:+ after = String "<" (y +:+ after)).
    { unfold y. cbn [append]. rewrite !append_assoc. cbn [append].
      rewrite !append_assoc. reflexivity. }
    rewrite Hx. cbn [removeElementsFrom].
    assert (Hel : elementHere "script" (String "<" (y +:+ after))
                  = Some after).
    { rewrite <- Hx. unfold elementHere.
      assert (Hsw : startsWithCI
                      ("<script" +:+ attrs +:+ ">" +:+ script +:+ "</script>"
                       +:+ after) ("<" +:+ "script") = true) by reflexivity.
      rewrite Hsw.
      change (drop (1 + String.length "script")
                ("<script" +:+ attrs +:+ ">" +:+ script +:+ "</script>"
                 +:+ after))
        with (attrs +:+ ">" +:+ script +:+ "</script>" +:+ after).
      rewrite (breakAt_app isGt attrs
                 (">" +:+ script +:+ "</script>" +:+ after) Ha eq_refl).
      cbn [snd append].
      apply (afterFirstCI_plain "/script>" script after Hs). reflexivity. }
    rewrite Hel.
    replace (String.length (String "<" (y +:+ after))
             - String.length after - 1) with (String.length y)
      by (cbn [String.length]; rewrite ArchiveFacts.length_app; lia).
    apply removeElementsFrom_skip. }
  rewrite E. reflexivity.
Qed.

Lemma firstTagText_prefix (tag a x : string) :
  lacks "<" a = true -> firstTagText tag (a +:+ x) = firstTagText tag x.
Proof.
  induction a as [|c a IH]; intros Ha; [reflexivity|].
  apply lacks_cons in Ha as [Hc Ha].
  cbn [append firstTagText]. unfold tagTextHere.
  change ("<" +:+ tag) with (String "<" tag).
  rewrite (startsWithCI_other c _ tag Hc). apply IH, Ha.
Qed.

Lemma firstTagText_plain (tag s : string) :
  lacks "<" s = true -> firstTagText tag s = None.
Proof.
  intros Hs. rewrite <- (append_empty_r s).
  rewrite (firstTagText_prefix tag s "" Hs). reflexivity.
Qed.

Lemma firstTagText_cons (tag : string) (c : ascii) (s : string) :
  tagTextHere tag (String c s) = None ->
  firstTagText tag (String c s) = firstTagText tag s.
Proof. intros E. cbn [firstTagText]. rewrite E. reflexivity. Qed.

Lemma firstTagText_here (tag s v : string) :
  tagTextHere tag s = Some v -> firstTagText tag s = Some v.
Proof. intros E. destruct s; cbn [firstTagText]; rewrite E; reflexivity. Qed.

(** X27. [extractTitle] returns the trimmed text of the first [title]
    element, of the first [h1] element when the page has no [title], and
    [Untitled] for a page without markup. *)
Theorem extractTitle_cases (before attrs text after : string) :
  lacks "<" before = true ->
  lacks "<" attrs = true -> lacks ">" attrs = true ->
  lacks "<" text = true -> text <> "" ->
  extractTitle (before +:+ "<title" +:+ attrs +:+ ">" +:+ text
                +:+ "</title>" +:+ after) = trim text
  /\ extractTitle (before +:+ "<h1" +:+ attrs +:+ ">" +:+ text
                   +:+ "</h1>") = trim text
  /\ extractTitle before = "Untitled".
Proof.
  intros Hb Hal Ha Ht Hne.
  assert (Hbreak : forall rest,
            breakAt isLt (text +:+ String "<" rest) = (text, String "<" rest)).
  { intros rest. apply (breakAt_app isLt text (String "<" rest) Ht eq_refl). }
  split; [|split].
  - unfold extractTitle. rewrite (firstTagText_prefix _ before _ Hb).
    rewrite (firstTagText_here "title" _ text); [reflexivity|].
    unfold tagTextHere.
    assert (Hsw : startsWithCI
                    ("<title" +:+ attrs +:+ ">" +:+ text +:+ "</title>"
                     +:+ after) ("<" +:+ "title") = true) by reflexivity.
    rewrite Hsw.
    change (drop (1 + String.length "title")
              ("<title" +:+ attrs +:+ ">" +:+ text +:+ "</title>" +:+ after))
      with (attrs +:+ ">" +:+ text +:+ "</title>" +:+ after).
    rewrite (breakAt_app isGt attrs
               (">" +:+ text +:+ "</title>" +:+ after) Ha eq_refl).
    cbn [snd append].
    change (text +:+ String "<" (String "/" (String "t" (String "i"
              (String "t" (String "l" (String "e" (String ">" after))))))))
      with (text +:+ String "<" ("/title>" +:+ after)).
    rewrite Hbreak. destruct text; [contradiction|reflexivity].
  - unfold extractTitle.
    assert (Hno : firstTagText "title"
                    (before +:+ "<h1" +:+ attrs +:+ ">" +:+ text +:+ "</h1>")
                  = None).
    { rewrite (firstTagText_prefix _ before _ Hb).
      change ("<h1" +:+ attrs +:+ ">" +:+ text +:+ "</h1>")
        with (String "<" ("h1" +:+ attrs +:+ ">" +:+ text +:+ "</h1>")).
      rewrite firstTagText_cons by reflexivity.
      rewrite (firstTagText_prefix _ "h1" _ eq_refl).
      rewrite (firstTagText_prefix _ attrs _ Hal).
      rewrite (firstTagText_prefix _ ">" _ eq_refl).
      rewrite (firstTagText_prefix _ text _ Ht). reflexivity. }
    rewrite Hno, (firstTagText_prefix _ before _ Hb).
    rewrite (firstTagText_here "h1" _ text); [reflexivity|].
    unfold tagTextHere.
    assert (Hsw : startsWithCI
                    ("<h1" +:+ attrs +:+ ">" +:+ text +:+ "</h1>")
                    ("<" +:+ "h1") = true) by reflexivity.
    rewrite Hsw.
    change (drop (1 + String.length "h1")
              ("<h1" +:+ attrs +:+ ">" +:+ text +:+ "</h1>"))
      with (attrs +:+ ">" +:+ text +:+ "</h1>").
    rewrite (breakAt_app isGt attrs (">" +:+ text +:+ "</h1>") Ha eq_refl).
    cbn [snd append].
    change (text +:+ String "<" (String "/" (String "h" (String "1"
              (String ">" "")))))
      with (text +:+ String "<" "/h1>").
    rewrite Hbreak. destruct text; [contradiction|reflexivity].
  - unfold extractTitle. rewrite !(firstTagText_plain _ before Hb).
    reflexivity.
Qed.

(** *** A site of one page *)

Import SimpleUrl.

Definition frontPage : string :=
  "<html><head><title>A site</title><script>var a = 1;</script></head>
<body><h1>Welcome</h1><p>one two three four five six seven eight nine ten
eleven twelve thirteen fourteen fifteen sixteen seventeen eighteen nineteen
twenty</p></body></html>".

(** A server that has the front page and nothing else. *)
Definition oneFrontPage (u : string) : option (bool * string) :=
  if u =? "https://a.com" then Some (true, frontPage) else None.

Definition fetched : SiteResult :=
  match fetchSite oneFrontPage "https://a.com/docs/intro" with
  | Run.Returned site => site
  | Run.Thrown _ =>
      {| rootUrl := ""; siteTitle := ""; pages := []; totalWords := 0 |}
  end.

Example fetchSite_run :
  fetchSite oneFrontPage "https://a.com/docs/intro"
  = Run.Returned
      {| rootUrl := "https://a.com"; siteTitle := "A site";
         pages :=
           [ {| url := "https://a.com"; title := "A site";
                content := "A site Welcome one two three four five six seven eight nine ten eleven twelve thirteen fourteen fifteen sixteen seventeen eighteen nineteen twenty";
                words := 23 |} ];
         totalWords := 23 |}.
Proof. vm_compute. reflexivity. Qed.

Lemma fetchSite_result_witness :
  getRootUrl "https://a.com/docs/intro" = Some (rootUrl fetched)
  /\ Forall (fun p => (20 < words p)%Z) (pages fetched)
  /\ totalWords fetched = Run.chunkWords (pages fetched)
  /\ ((totalWords fetched > Run.MAX_SITE_WORDS)%Z ->
      2 <= List.length (pages fetched) ->
      2 <= List.length (Run.chunkPages (pages fetched) Run.MAX_SITE_WORDS)).
Proof.
  apply (fetchSite_result oneFrontPage "https://a.com/docs/intro" fetched).
  vm_compute. reflexivity.
Defined.

Lemma htmlToText_plain_witness :
  htmlToText "  two
   words " = trim (collapseWs "  two
   words ").
Proof. apply (htmlToText_plain "  two
   words "); reflexivity. Defined.

Lemma htmlToText_script_witness :
  htmlToText ("Before " +:+ "<script" +:+ " defer" +:+ ">" +:+ "var a = 1;"
              +:+ "</script>" +:+ "<p>after</p>")
  = htmlToText ("Before " +:+ "<p>after</p>").
Proof.
  apply (htmlToText_script "Before " " defer" "var a = 1;" "<p>after</p>");
    reflexivity.
Defined.

Lemma extractTitle_cases_witness :
  extractTitle ("Page: " +:+ "<title" +:+ " lang='en'" +:+ ">" +:+ " A site "
                +:+ "</title>" +:+ "<h1>Welcome</h1>") = trim " A site "
  /\ extractTitle ("Page: " +:+ "<h1" +:+ " lang='en'" +:+ ">" +:+ " A site "
                   +:+ "</h1>") = trim " A site "
  /\ extractTitle "Page: " = "Untitled".
Proof.
  apply (extractTitle_cases "Page: " " lang='en'" " A site "
           "<h1>Welcome</h1>"); try reflexivity.
  discriminate.
Defined.

End SiteFetchFacts.

(** ** index.ts: wrapped lines *)

Module CliFacts.
Import JS Cli JSFacts.

Lemma splitSpaces_not_nil (s : string) : splitSpaces s <> [].
Proof.
  induction s as [|c s IH]; cbn [splitSpaces]; [discriminate|].
  destruct (c =? " ")%char; [discriminate|].
  destruct (splitSpaces s); discriminate.
Qed.

Lemma splitSpaces_pieces (s : string) :
  Forall (fun w => lacks " " w = true) (splitSpaces s).
Proof.
  induction s as [|c s IH]; cbn [splitSpaces].
  - constructor; [reflexivity|constructor].
  - destruct (c =? " ")%char eqn:E.
    + constructor; [reflexivity|exact IH].
    + destruct (splitSpaces s) as [|w ws].
      * constructor; [|constructor]. unfold lacks. cbn [all]. rewrite E.
        reflexivity.
      * inversion IH as [|? ? Hw Hws]; subst. constructor; [|exact Hws].
        unfold lacks in *. cbn [all]. rewrite E, Hw. reflexivity.
Qed.

Lemma splitSpaces_word (w : string) :
  lacks " " w = true -> splitSpaces w = [w].
Proof.
  induction w as [|c w IH]; intros Hl; [reflexivity|].
  apply SiteFetchFacts.lacks_cons in Hl as [E Hl].
  cbn [splitSpaces]. rewrite E, (IH Hl). reflexivity.
Qed.

Lemma splitSpaces_app (a b : string) :
  splitSpaces (a +:+ " " +:+ b) = splitSpaces a ++ splitSpaces b.
Proof.
  induction a as [|c a IH]; [reflexivity|].
  cbn [append] in *. cbn [splitSpaces]. rewrite IH.
  destruct (c =? " ")%char; [reflexivity|].
  pose proof (splitSpaces_not_nil a) as Hn.
  destruct (splitSpaces a); [contradiction|reflexivity].
Qed.

Definition nonEmpty (w : string) : bool := negb (w =? "").

(** The words of a list of lines. *)
Definition wordsOf (ls : list string) : list string :=
  filter nonEmpty (flat_map splitSpaces ls).

Definition fits (maxWidth : Z) (l : string) : Prop :=
  (Z.of_nat (visibleLength l) <= maxWidth)%Z.

(** What a line of a wrapped text satisfies. *)
Definition wrapped (maxWidth : Z) (l : string) : Prop :=
  l <> "" /\ startsWith l " " = false
  /\ (fits maxWidth l \/ lacks " " l = true).

(** Loop invariant of [wrapLine] after the words [done] were read. *)
Record wrapInv (maxWidth : Z) (done : list string) (st : WrapState)
  : Prop := {
  inv_lines : Forall (wrapped maxWidth) (lines st);
  inv_current : current st = "" \/ wrapped maxWidth (current st);
  inv_words :
    wordsOf (lines st ++ [current st]) = filter nonEmpty done
}.

Lemma wordsOf_app (a b : list string) : wordsOf (a ++ b) = wordsOf a ++ wordsOf b.
Proof. unfold wordsOf. rewrite flat_map_app, filter_app. reflexivity. Qed.

Lemma wordsOf_word (w : string) :
  lacks " " w = true -> wordsOf [w] = filter nonEmpty [w].
Proof.
  intros Hl. unfold wordsOf. cbn [flat_map]. rewrite app_nil_r.
  rewrite (splitSpaces_word w Hl). reflexivity.
Qed.

Lemma wordsOf_joined (a w : string) :
  wordsOf [a +:+ " " +:+ w] = wordsOf [a] ++ wordsOf [w].
Proof.
  unfold wordsOf. cbn [flat_map]. rewrite !app_nil_r, splitSpaces_app.
  apply filter_app.
Qed.

Lemma startsWith_space_app (a b : string) :
  a <> "" -> startsWith (a +:+ b) " " = startsWith a " ".
Proof.
  destruct a as [|c a]; [contradiction|]. intros _.
  unfold startsWith. cbn [append prefix].
  destruct (ascii_dec " " c); [|reflexivity].
  destruct a; [destruct b|]; reflexivity.
Qed.

Lemma wrapInv_step (maxWidth : Z) (done : list string) (st : WrapState)
  (word : string) :
  lacks " " word = true ->
  wrapInv maxWidth done st ->
  wrapInv maxWidth (done ++ [word]) (wrapStep maxWidth st word).
Proof.
  intros Hw [Hl Hc Hd]. unfold wrapStep.
  rewrite wordsOf_app in Hd.
  assert (Hword : word = "" \/ wrapped maxWidth word).
  { destruct word as [|c word]; [left; reflexivity|right].
    split; [discriminate|]. split; [|right; exact Hw].
    apply (startsWith_lacks " " "" _ Hw). }
  destruct (current st =? "") eqn:E.
  - (* nothing under way: the word starts a line *)
    apply String.eqb_eq in E. rewrite andb_false_r.
    split; cbn [lines current].
    + exact Hl.
    + exact Hword.
    + rewrite wordsOf_app, filter_app, <- Hd, E, (wordsOf_word word Hw).
      unfold wordsOf at 2. cbn. rewrite app_nil_r. reflexivity.
  - apply String.eqb_neq in E.
    destruct Hc as [Hc|Hc]; [contradiction|].
    rewrite andb_true_r.
    destruct (maxWidth <? _)%Z eqn:Hfit; split; cbn [lines current].
    + (* the line under way is closed *)
      apply Forall_app. split; [exact Hl|]. constructor; [exact Hc|constructor].
    + exact Hword.
    + rewrite !wordsOf_app, filter_app, <- Hd, (wordsOf_word word Hw).
      reflexivity.
    + exact Hl.
    + right. apply Z.ltb_ge in Hfit. split; [|split].
      * destruct (current st); [contradiction|discriminate].
      * rewrite (startsWith_space_app _ _ E). apply Hc.
      * left. exact Hfit.
    + rewrite wordsOf_app, wordsOf_joined, filter_app, <- Hd,
        (wordsOf_word word Hw), app_assoc. reflexivity.
Qed.

Lemma wrapInv_fold (maxWidth : Z) (words done : list string)
  (st : WrapState) :
  Forall (fun w => lacks " " w = true) words ->
  wrapInv maxWidth done st ->
  wrapInv maxWidth (done ++ words) (fold_left (wrapStep maxWidth) words st).
Proof.
  revert done st. induction words as [|w words IH]; intros done st Hw Hi.
  - rewrite app_nil_r. exact Hi.
  - inversion Hw as [|? ? Hw1 Hw2]; subst. cbn [fold_left].
    replace (done ++ w :: words) with ((done ++ [w]) ++ words)
      by (rewrite <- app_assoc; reflexivity).
    apply IH; [exact Hw2|]. apply wrapInv_step; assumption.
Qed.

Lemma wrapInv_line (maxWidth : Z) (line : string) :
  wrapInv maxWidth (splitSpaces line)
    (fold_left (wrapStep maxWidth) (splitSpaces line)
       {| lines := []; current := "" |}).
Proof.
  apply (wrapInv_fold maxWidth (splitSpaces line) []).
  - apply splitSpaces_pieces.
  - split; cbn [lines current]; [constructor|left; reflexivity|reflexivity].
Qed.

(** X28. A line that fits the width, or is blank, is left as it is.  Of
    a line that [wrapLine] breaks, every piece is non-empty, does not
    start with a space (the indentation of the line is dropped), and
    either fits the width or is a single word that is too long by
    itself. *)
Theorem wrapLine_lines (line : string) (maxWidth : Z) :
  if (Z.of_nat (visibleLength line) <=? maxWidth)%Z || (trim line =? "")
  then wrapLine line maxWidth = [line]
  else Forall
         (fun l => (l =? "") = false /\ startsWith l " " = false
                   /\ ((Z.of_nat (visibleLength l) <= maxWidth)%Z
                       \/ lacks " " l = true))
         (wrapLine line maxWidth).
Proof.
  unfold wrapLine. destruct (_ || _); [reflexivity|].
  destruct (wrapInv_line maxWidth line) as [Hl Hc _].
  set (st := fold_left _ _ _) in *.
  assert (Hall : Forall (wrapped maxWidth)
                   (if current st =? "" then lines st
                    else lines st ++ [current st])).
  { destruct (current st =? "") eqn:E; [exact Hl|].
    apply String.eqb_neq in E. destruct Hc as [Hc|Hc]; [contradiction|].
    apply Forall_app. split; [exact Hl|]. constructor; [exact Hc|constructor]. }
  eapply Forall_impl; [|exact Hall].
  intros l (Hn & Hs & Hf). split; [apply String.eqb_neq, Hn|]. split; assumption.
Qed.

(** X29. [wrapLine] loses no word and moves none: the non-empty words of
    the pieces, in order, are the non-empty words of the line.  Only
    spaces are lost. *)
Theorem wrapLine_words (line : string) (maxWidth : Z) :
  filter nonEmpty (flat_map splitSpaces (wrapLine line maxWidth))
  = filter nonEmpty (splitSpaces line).
Proof.
  unfold wrapLine. destruct (_ || _).
  - cbn [flat_map]. rewrite app_nil_r. reflexivity.
  - destruct (wrapInv_line maxWidth line) as [_ _ Hd].
    set (st := fold_left _ _ _) in *.
    destruct (current st =? "") eqn:E; [|exact Hd].
    apply String.eqb_eq in E. rewrite wordsOf_app, E in Hd.
    unfold wordsOf at 2 in Hd. cbn in Hd. rewrite app_nil_r in Hd. exact Hd.
Qed.

(** *** What [visibleLength] counts *)

(** A text as the colour functions of index.ts build it: plain text and
    colour codes. *)
Inductive Piece :=
| Plain (text : string)
| Sgr (codes : string).

Definition renderPiece (p : Piece) : string :=
  match p with
  | Plain text => text
  | Sgr codes => String ESC ("[" +:+ codes +:+ "m")
  end.

Fixpoint render (ps : list Piece) : string :=
  match ps with
  | [] => ""
  | p :: rest => renderPiece p +:+ render rest
  end.

Definition wellFormedPiece (p : Piece) : bool :=
  match p with
  | Plain text => lacks ESC text
  | Sgr codes => all isSgrChar codes
  end.

Definition plainLength (p : Piece) : nat :=
  match p with
  | Plain text => String.length text
  | Sgr _ => 0
  end.

Lemma sgrHere_other (c : ascii) (s : string) :
  (c =? ESC)%char = false -> sgrHere (String c s) = None.
Proof. intros E. unfold sgrHere. destruct s; [reflexivity|]. rewrite E. reflexivity. Qed.

Lemma stripSgrFrom_plain (a x : string) :
  lacks ESC a = true -> stripSgrFrom 0 (a +:+ x) = a +:+ stripSgrFrom 0 x.
Proof.
  induction a as [|c a IH]; intros Hl; [reflexivity|].
  apply SiteFetchFacts.lacks_cons in Hl as [E Hl].
  cbn [append stripSgrFrom]. rewrite (sgrHere_other c _ E), (IH Hl).
  reflexivity.
Qed.

Lemma stripSgrFrom_skip (a x : string) :
  stripSgrFrom (String.length a) (a +:+ x) = stripSgrFrom 0 x.
Proof.
  induction a as [|c a IH]; simpl.
  - destruct x; reflexivity.
  - exact IH.
Qed.

Lemma sgrHere_code (codes x : string) :
  all isSgrChar codes = true ->
  sgrHere (String ESC ("[" +:+ codes +:+ "m" +:+ x))
  = Some (String.length codes + 3).
Proof.
  intros Hc. unfold sgrHere. cbn [append].
  change ((ESC =? ESC)%char && ("[" =? "[")%char) with true. cbv iota.
  rewrite (breakAt_app (fun c => negb (isSgrChar c)) codes (String "m" x)).
  - reflexivity.
  - apply (StorageFacts.all_impl isSgrChar); [|exact Hc].
    intros c ->. reflexivity.
  - reflexivity.
Qed.

Lemma stripSgrFrom_code (codes x : string) :
  all isSgrChar codes = true ->
  stripSgrFrom 0 (String ESC ("[" +:+ codes +:+ "m" +:+ x))
  = stripSgrFrom 0 x.
Proof.
  intros Hc. cbn [stripSgrFrom]. rewrite (sgrHere_code codes x Hc).
  replace (String.length codes + 3 - 1)
    with (String.length ("[" +:+ codes +:+ "m"))
    by (cbn [append String.length]; rewrite ArchiveFacts.length_app;
        cbn [String.length]; lia).
  rewrite <- (stripSgrFrom_skip ("[" +:+ codes +:+ "m") x).
  rewrite !append_assoc. reflexivity.
Qed.

(** X30. [visibleLength] counts the code units outside the colour codes:
    for a text made of pieces of plain text without [\x1b] and of codes
    [\x1b[...m] over digits and semicolons, it is the total length of the
    plain pieces. *)
Theorem visibleLength_pieces (ps : list Piece) :
  forallb wellFormedPiece ps = true ->
  visibleLength (render ps) = list_sum (map plainLength ps).
Proof.
  unfold visibleLength. induction ps as [|p ps IH]; intros Hw; [reflexivity|].
  cbn [forallb] in Hw. apply andb_true_iff in Hw as [Hp Hw].
  cbn [render map].
  change (list_sum (plainLength p :: map plainLength ps))
    with (plainLength p + list_sum (map plainLength ps)).
  rewrite <- (IH Hw).
  destruct p as [text|codes]; cbn [renderPiece plainLength wellFormedPiece] in *.
  - rewrite (stripSgrFrom_plain text _ Hp). apply ArchiveFacts.length_app.
  - replace (String ESC ("[" +:+ codes +:+ "m") +:+ render ps)
      with (String ESC ("[" +:+ codes +:+ "m" +:+ render ps))
      by (cbn [append]; rewrite append_assoc; reflexivity).
    rewrite (stripSgrFrom_code codes _ Hp). reflexivity.
Qed.

(** A bold cyan heading. *)
Lemma visibleLength_pieces_witness :
  visibleLength (render [Sgr "1;36"; Plain "Key points"; Sgr "0"]) = 10.
Proof.
  apply (visibleLength_pieces [Sgr "1;36"; Plain "Key points"; Sgr "0"]).
  reflexivity.
Defined.

(** A nested list item wrapped at twelve columns. *)
Example wrapLine_run :
  wrapLine "  - one two three four" 12 = ["- one two"; "three four"]
  /\ wrapLine "  - one" 12 = ["  - one"].
Proof. vm_compute. split; reflexivity. Qed.

End CliFacts.
